(** * MIMS: billing transactions and sales analytics

    A shallow embedding of the store service ([storeService.js]:
    [addToStock], [removeFromStock], [createBilling]) and of the analytics
    service ([analyticsService.js]: the cache, the period windows, the
    aggregation pipelines and the bucketed series), with the properties of
    the specification stated over it.

    Conventions of the embedding.
    - JavaScript numbers are IEEE 754 doubles. Counts, stock quantities and
      epoch milliseconds are whole numbers, kept as [Z]. Money is the exact
      rational value ([Q]) of a double, and every arithmetic operation on
      money gives the double nearest to the exact result, a tie going to
      the even one (module [Double]); so do the additions of quantities in
      [addToStock] and in the pipelines. [NaN] and the infinities are not
      represented.
    - [$sum] adds the values of a group one after the other, in scan
      order.
    - [undefined]/[null] is [None]; a thrown [Error] is the [Throw] branch
      of [Result].
    - The Mongo collection of stores is a finite map keyed by [storeEmail]
      (a unique index in the schema); a transaction works on the loaded
      document and only [save]+[commit] writes it back.
    - The time zone of the process is a function giving the offset of local
      time from universal time at each instant and for each local reading
      ([LocalTZA] of the language definition), so that clock changes are
      covered; dates are not clipped to the range of [Date]. *)

From Stdlib Require Import ZArith QArith Qround Qabs Qpower Lia Lqa.
From stdpp Require Import base gmap list strings pretty sorting.

(** ** Results of fallible operations *)

Inductive Error : Type :=
  | STORE_NOT_FOUND
  | INVALID_QUANTITY
  | INVALID_PERIOD
  | VALIDATION_FAILED                        (* store.save() *)
  | MEDICINE_NOT_FOUND                       (* removeFromStock *)
  | INSUFFICIENT_STOCK                       (* removeFromStock *)
  | MEDICINE_NOT_FOUND_for (id : option string)   (* createBilling *)
  | INSUFFICIENT_STOCK_for (id : option string).  (* createBilling *)

(** A template literal prints [undefined] for a missing value. The message
    of a validation error goes on with the paths that failed. *)
Definition template (id : option string) : string :=
  match id with Some s => s | None => "undefined" end.

Definition message (e : Error) : string :=
  match e with
  | STORE_NOT_FOUND => "STORE_NOT_FOUND"
  | INVALID_QUANTITY => "INVALID_QUANTITY"
  | INVALID_PERIOD => "INVALID_PERIOD"
  | VALIDATION_FAILED => "Stores validation failed"
  | MEDICINE_NOT_FOUND => "MEDICINE_NOT_FOUND"
  | INSUFFICIENT_STOCK => "INSUFFICIENT_STOCK"
  | MEDICINE_NOT_FOUND_for id => "MEDICINE_NOT_FOUND:" +:+ template id
  | INSUFFICIENT_STOCK_for id => "INSUFFICIENT_STOCK:" +:+ template id
  end.

Inductive Result (A : Type) : Type :=
  | Ok (a : A)
  | Throw (e : Error).
Arguments Ok {A} a.
Arguments Throw {A} e.

(** Sequencing: a thrown error skips the rest ([x ← r; k] below). *)
#[global] Instance Result_ret : MRet Result := fun A a => Ok a.
#[global] Instance Result_bind : MBind Result := fun A B k r =>
  match r with
  | Ok a => k a
  | Throw e => Throw e
  end.
#[global] Instance Result_fmap : FMap Result := fun A B f r =>
  match r with
  | Ok a => Ok (f a)
  | Throw e => Throw e
  end.

(** ** Data model (store schema, billing record) *)

Record MedData : Type := {
  medID : string;
  name : string;
  secName : string;
  sellingType : string;
  medType : string;
  pricePerTab : option Q;
  cardPerBox : Z;
}.

Record StockEntry : Type := {
  medData : option MedData;
  quantity : Z;
  expiryDate : option Z;
  batchNumber : string;
  purchasePrice : Q;
}.

(** One line of a bill, as sent by the client and stored in [productList]. *)
Record Product : Type := {
  p_medData : option MedData;
  p_quantity : Z;
}.

Record Billing : Type := {
  b_id : N;
  storeId : N;
  customerName : string;
  customerAge : Z;
  phone : string;
  productList : list Product;
  totalAmount : Q;
  createdAt : Z;
}.

Record Store : Type := {
  s_id : N;
  stock : list StockEntry;
  billingHistory : list Billing;
}.

(** [med.medData?.medID] *)
Definition medID_of (md : option MedData) : option string := medID <$> md.

Definition with_quantity (e : StockEntry) (q : Z) : StockEntry :=
  {| medData := medData e; quantity := q; expiryDate := expiryDate e;
     batchNumber := batchNumber e; purchasePrice := purchasePrice e |}.

Definition with_expiry (e : StockEntry) (d : option Z) : StockEntry :=
  {| medData := medData e; quantity := quantity e; expiryDate := d;
     batchNumber := batchNumber e; purchasePrice := purchasePrice e |}.

(** [String.prototype.toLowerCase], on the ASCII letters. *)
Definition lower_ascii (c : Ascii.ascii) : Ascii.ascii :=
  let n := Ascii.N_of_ascii c in
  if ((65 <=? n) && (n <=? 90))%N then Ascii.ascii_of_N (n + 32) else c.

Fixpoint toLowerCase (s : string) : string :=
  match s with
  | EmptyString => EmptyString
  | String c s' => String (lower_ascii c) (toLowerCase s')
  end.

(** [String.prototype.trim], on the ASCII white space (tab, line feed,
    vertical tab, form feed, carriage return, space). *)
Definition is_white_space (c : Ascii.ascii) : bool :=
  let n := Ascii.N_of_ascii c in
  (((9 <=? n) && (n <=? 13)) || (n =? 32))%N.

Fixpoint trimStart (s : string) : string :=
  match s with
  | EmptyString => EmptyString
  | String c s' => if is_white_space c then trimStart s' else s
  end.

Fixpoint trimEnd (s : string) : string :=
  match s with
  | EmptyString => EmptyString
  | String c s' =>
      match trimEnd s' with
      | EmptyString => if is_white_space c then EmptyString else String c EmptyString
      | rest => String c rest
      end
  end.

Definition trim (s : string) : string := trimEnd (trimStart s).

(** ** Numbers (IEEE 754 doubles)

    A finite double is the rational it stands for. An arithmetic operation
    of the language gives the double nearest to the exact result: with
    [2 ^ e <= |x| < 2 ^ (e + 1)], the multiple of the unit in the last
    place [2 ^ (max e (-1022) - 52)] nearest to [x], a tie going to the
    even multiple. *)

Module Double.
Local Open Scope Q_scope.

Definition pow2 (e : Z) : Q := 2 ^ e.

(** The exponent [e] with [2 ^ e <= x < 2 ^ (e + 1)], for [0 < x]: the
    difference of the bit lengths of numerator and denominator, or one
    less. *)
Definition ilog2 (x : Q) : Z :=
  let e := (Z.log2 (Qnum x) - Z.log2 (Zpos (Qden x)))%Z in
  if Qle_bool (pow2 e) x then e else (e - 1)%Z.

(** The integer nearest to [y], a half going to the even neighbour. *)
Definition roundHalfEven (y : Q) : Z :=
  let f := Qfloor y in
  match Qcompare (y - inject_Z f) (1 # 2) with
  | Lt => f
  | Gt => (f + 1)%Z
  | Eq => if Z.even f then f else (f + 1)%Z
  end.

(** The exponent of the unit in the last place of the doubles around [x]
    (the subnormal ones share the exponent -1074). *)
Definition ulpExp (x : Q) : Z := (Z.max (ilog2 (Qabs x)) (-1022) - 52)%Z.

(** The double nearest to [x]. *)
Definition double (x : Q) : Q :=
  if Qeq_bool x 0 then 0
  else Qred (inject_Z (roundHalfEven (x / pow2 (ulpExp x))) * pow2 (ulpExp x)).

(** [x + y], [x - y], [x * y] and [x / y] on doubles. *)
Definition add (x y : Q) : Q := double (x + y).
Definition sub (x y : Q) : Q := double (x - y).
Definition mul (x y : Q) : Q := double (x * y).
Definition div (x y : Q) : Q := double (x / y).

(** [Math.round(x)] on a double: the nearest integer, a half going up. *)
Definition Math_round (x : Q) : Z := Qfloor (x + (1 # 2)).

(** [Math.ceil(x)] on a double. *)
Definition Math_ceil (x : Q) : Z := Qceiling x.

(** [a + b] on two whole numbers: the sum, as a double. *)
Definition addInt (a b : Z) : Z := Qfloor (double (inject_Z (a + b))).

End Double.

(** ** The stock ledger *)

Module Ledger.

(** [store.stock.findIndex(med => med.medData?.medID === medID)]: the first
    entry carrying the identifier, with its index; [None] is the [-1] of
    [findIndex]. *)
Definition findByMedID (id : option string) (stock : list StockEntry)
  : option (nat * StockEntry) :=
  list_find (fun med => medID_of (medData med) = id) stock.

(** [findIndex(med => med.medData?.medID === medID &&
                      med.batchNumber === batchNumber)] *)
Definition findByMedIDAndBatch (id : option string) (batch : string)
    (stock : list StockEntry) : option (nat * StockEntry) :=
  list_find (fun med => medID_of (medData med) = id /\ batchNumber med = batch)
            stock.

(** The fields of [medicineData] that [addToStock] reads; numeric strings
    are given parsed ([None] is [NaN] or a missing field). *)
Record MedicineData : Type := {
  md_medID : option string;
  md_name : string;
  md_secName : option string;
  md_sellingType : option string;
  md_medType : option string;
  md_pricePerTab : option Q;
  md_cardPerBox : option Z;
  md_pricePerBox : option Q;
  md_expiryDate : option Z;
  md_batchNumber : option string;
  md_purchasePrice : option Q;
}.

(** Truthiness of a string-or-undefined value. *)
Definition truthy_string (s : option string) : bool :=
  match s with
  | Some EmptyString | None => false
  | Some _ => true
  end.

(** [a || b] on a parsed number: a zero or [NaN] left operand is falsy. *)
Definition orQ (a : option Q) (b : Q) : Q :=
  match a with
  | Some q => if Qeq_bool q 0 then b else q
  | None => b
  end.

Definition orZ (a : option Z) (b : Z) : Z :=
  match a with
  | Some z => if (z =? 0)%Z then b else z
  | None => b
  end.

Definition orS (a : option string) (b : string) : string :=
  if truthy_string a then default b a else b.

(** The entry [addToStock] would merge into (lines 230-240). *)
Definition addMatch (medicineData : MedicineData) (stock : list StockEntry)
  : option (nat * StockEntry) :=
  if truthy_string (md_batchNumber medicineData)
  then findByMedIDAndBatch (md_medID medicineData)
         (default EmptyString (md_batchNumber medicineData)) stock
  else findByMedID (md_medID medicineData) stock.

(** The schema validation [store.save()] runs on the ledger (store and
    medicine schemas): the medicine data of an entry needs an identifier,
    a name and one of the four medicine types ([required] rejects the
    empty string), and a quantity is at least 0. *)
Definition medTypes : list string :=
  ["tablet"; "fluid"; "capsules"; "accessories"]%string.

Definition validMedData (md : MedData) : bool :=
  negb (String.eqb (medID md) "") && negb (String.eqb (name md) "")
  && bool_decide (medType md ∈ medTypes).

Definition validEntry (e : StockEntry) : bool :=
  match medData e with
  | Some md => validMedData md
  | None => true
  end && (0 <=? quantity e)%Z.

(** [await store.save()] *)
Definition save (store : Store) : Result Store :=
  if forallb validEntry (stock store) then Ok store else Throw VALIDATION_FAILED.

Inductive StockAction := updated | added.

Record AddResult : Type := {
  ar_medID : option string;
  ar_name : string;
  ar_quantity : Z;
  ar_action : StockAction;
}.

(** [addToStock] on the loaded store document; [quantityNum] is
    [parseInt(quantity, 10)]. Returns the document that is saved. A pushed
    entry without medicine identifier fails the validation of [save]
    (the identifier is required). *)
Definition addToStock_doc (store : Store) (medicineData : MedicineData)
    (quantityNum : option Z) : Result (Store * AddResult) :=
  match quantityNum with
  | None => Throw INVALID_QUANTITY
  | Some quantityNum =>
    if (quantityNum <? 1)%Z then Throw INVALID_QUANTITY else
    match addMatch medicineData (stock store) with
    | Some (existingIndex, entry) =>
        let entry1 :=
          with_quantity entry (Double.addInt (quantity entry) quantityNum) in
        let entry2 := match md_expiryDate medicineData with
                      | Some d => with_expiry entry1 (Some d)
                      | None => entry1
                      end in
        store' ← save {| s_id := s_id store;
                         stock := <[existingIndex := entry2]> (stock store);
                         billingHistory := billingHistory store |};
        Ok (store',
            {| ar_medID := md_medID medicineData; ar_name := md_name medicineData;
               ar_quantity := quantity entry2; ar_action := updated |})
    | None =>
        match md_medID medicineData with
        | None => Throw VALIDATION_FAILED
        | Some id =>
            let price := orQ (md_pricePerTab medicineData)
                             (orQ (md_pricePerBox medicineData) 0) in
            let entry :=
              {| medData := Some
                   {| medID := id; name := md_name medicineData;
                      secName := orS (md_secName medicineData) EmptyString;
                      sellingType := orS (md_sellingType medicineData) EmptyString;
                      medType := orS (md_medType medicineData) EmptyString;
                      pricePerTab := Some price;
                      cardPerBox := orZ (md_cardPerBox medicineData) 0 |};
                 quantity := quantityNum;
                 expiryDate := md_expiryDate medicineData;
                 batchNumber := orS (md_batchNumber medicineData) EmptyString;
                 purchasePrice := orQ (md_purchasePrice medicineData) 0 |} in
            store' ← save {| s_id := s_id store;
                             stock := stock store ++ [entry];
                             billingHistory := billingHistory store |};
            Ok (store',
                {| ar_medID := md_medID medicineData;
                   ar_name := md_name medicineData;
                   ar_quantity := quantityNum; ar_action := added |})
        end
    end
  end.

Record RemoveResult : Type := {
  rr_medID : option string;
  removedQuantity : Z;
  remainingQuantity : Z;
  removed : bool;
}.

(** [removeFromStock] on the loaded store document. The entry it writes
    keeps the fields of the loaded entry with a smaller, positive
    quantity. *)
Definition removeFromStock_doc (store : Store) (id : option string)
    (quantityNum : option Z) : Result (Store * RemoveResult) :=
  match quantityNum with
  | None => Throw INVALID_QUANTITY
  | Some quantityNum =>
    if (quantityNum <? 1)%Z then Throw INVALID_QUANTITY else
    match findByMedID id (stock store) with
    | None => Throw MEDICINE_NOT_FOUND
    | Some (existingIndex, entry) =>
        let currentQuantity := quantity entry in
        if (currentQuantity <? quantityNum)%Z then Throw INSUFFICIENT_STOCK else
        let newQuantity := (currentQuantity - quantityNum)%Z in
        let stock' :=
          if (newQuantity =? 0)%Z then delete existingIndex (stock store)
          else <[existingIndex := with_quantity entry newQuantity]> (stock store) in
        Ok ({| s_id := s_id store; stock := stock';
               billingHistory := billingHistory store |},
            {| rr_medID := id; removedQuantity := quantityNum;
               remainingQuantity := newQuantity;
               removed := (newQuantity =? 0)%Z |})
    end
  end.

(** The body of the loop of [createBilling] (lines 409-429) for one line
    item, on the in-memory ledger. *)
Definition deductLine (stock : list StockEntry) (product : Product)
  : Result (list StockEntry) :=
  let medIdToFind := medID_of (p_medData product) in
  let quantityToDeduct := p_quantity product in
  match findByMedID medIdToFind stock with
  | None => Throw (MEDICINE_NOT_FOUND_for medIdToFind)
  | Some (stockIndex, entry) =>
      if (quantity entry <? quantityToDeduct)%Z
      then Throw (INSUFFICIENT_STOCK_for medIdToFind)
      else
        let entry' := with_quantity entry (quantity entry - quantityToDeduct) in
        if (quantity entry' <=? 0)%Z
        then Ok (delete stockIndex stock)
        else Ok (<[stockIndex := entry']> stock)
  end.

(** [for (const product of products) { ... }] *)
Fixpoint deductAll (products : list Product) (stock : list StockEntry)
  : Result (list StockEntry) :=
  match products with
  | [] => Ok stock
  | product :: rest => stock' ← deductLine stock product; deductAll rest stock'
  end.

End Ledger.

(** ** The store service on the database *)

Module StoreService.
Import Ledger.

(** [email?.toLowerCase()?.trim()] *)
Definition normalizedEmail (email : string) : string :=
  trim (toLowerCase email).

(** [findStoreByEmail]: [Stores.findOne({ storeEmail: normalizedEmail })]. *)
Definition findStoreByEmail (db : gmap string Store) (email : string)
  : option Store :=
  db !! normalizedEmail email.

Definition addToStock (db : gmap string Store) (email : string)
    (medicineData : MedicineData) (quantityNum : option Z)
  : Result AddResult * gmap string Store :=
  match findStoreByEmail db email with
  | None => (Throw STORE_NOT_FOUND, db)
  | Some store =>
      match addToStock_doc store medicineData quantityNum with
      | Throw e => (Throw e, db)
      | Ok (store', r) => (Ok r, <[normalizedEmail email := store']> db)
      end
  end.



Record BillingData : Type := {
  bd_customerName : string;
  bd_customerAge : Z;
  bd_phone : string;
  products : list Product;
  bd_totalAmount : Q;
}.

Record BillingReceipt : Type := {
  billingId : N;
  r_customerName : string;
  r_totalAmount : Q;
  productCount : nat;
}.

(** The [try] block of [createBilling] on the document read inside the
    transaction: the deduction loop, then the push of the billing record.
    [now] is [new Date()] and [newId] the identifier Mongoose gives the
    pushed subdocument. *)
Definition billingTransaction (now : Z) (newId : N) (store : Store)
    (billingData : BillingData) : Result (Store * BillingReceipt) :=
  stock' ← deductAll (products billingData) (stock store);
  let billing :=
    {| b_id := newId; storeId := s_id store;
       customerName := bd_customerName billingData;
       customerAge := bd_customerAge billingData;
       phone := bd_phone billingData;
       productList := products billingData;
       totalAmount := bd_totalAmount billingData;
       createdAt := now |} in
  let history' := billingHistory store ++ [billing] in
  Ok ({| s_id := s_id store; stock := stock'; billingHistory := history' |},
      {| billingId := default newId (b_id <$> last history');
         r_customerName := bd_customerName billingData;
         r_totalAmount := bd_totalAmount billingData;
         productCount := length (products billingData) |}).

(** [createBilling]: a thrown error aborts the transaction, so the database
    keeps the state it had; only [save] followed by [commitTransaction]
    replaces the store document. *)
Definition createBilling (now : Z) (newId : N) (db : gmap string Store)
    (email : string) (billingData : BillingData)
  : Result BillingReceipt * gmap string Store :=
  match db !! toLowerCase email with
  | None => (Throw STORE_NOT_FOUND, db)
  | Some store =>
      match billingTransaction now newId store billingData with
      | Throw error => (Throw error, db)
      | Ok (store', receipt) => (Ok receipt, <[toLowerCase email := store']> db)
      end
  end.

End StoreService.

(** ** Dates (ECMAScript time values)

    A [Date] is its time value: milliseconds since the epoch, as [Z]. The
    functions follow the abstract operations of the language definition
    ([Day], [TimeWithinDay], [DayFromYear], [YearFromTime], [MonthFromTime],
    [DateFromTime], [WeekDay], [MakeTime], [MakeDay], [MakeDate]). *)

Module JSDate.
Local Open Scope Z_scope.

Definition msPerSecond : Z := 1000.
Definition msPerMinute : Z := 60000.
Definition msPerHour : Z := 3600000.
Definition msPerDay : Z := 86400000.

Definition Day (t : Z) : Z := t / msPerDay.
Definition TimeWithinDay (t : Z) : Z := t mod msPerDay.

Definition DaysInYear (y : Z) : Z :=
  if negb (y mod 4 =? 0) then 365
  else if negb (y mod 100 =? 0) then 366
  else if negb (y mod 400 =? 0) then 365
  else 366.

Definition DayFromYear (y : Z) : Z :=
  365 * (y - 1970) + (y - 1969) / 4 - (y - 1901) / 100 + (y - 1601) / 400.

(** The year whose first day is the latest one not after day [d]: an
    estimate from the mean year length, corrected by one either way. *)
Definition YearFromDay (d : Z) : Z :=
  let y := 1970 + (400 * d) / 146097 in
  if DayFromYear (y + 1) <=? d then y + 1
  else if d <? DayFromYear y then y - 1
  else y.

Definition YearFromTime (t : Z) : Z := YearFromDay (Day t).
Definition InLeapYear (t : Z) : Z :=
  if DaysInYear (YearFromTime t) =? 366 then 1 else 0.
Definition DayWithinYear (t : Z) : Z := Day t - DayFromYear (YearFromTime t).

(** Number of days of the year before month [m] (0 = January). *)
Definition monthStart (m leap : Z) : Z :=
  match m with
  | 0 => 0 | 1 => 31 | 2 => 59 + leap | 3 => 90 + leap | 4 => 120 + leap
  | 5 => 151 + leap | 6 => 181 + leap | 7 => 212 + leap | 8 => 243 + leap
  | 9 => 273 + leap | 10 => 304 + leap | _ => 334 + leap
  end.

Definition monthOfYearDay (d leap : Z) : Z :=
  if d <? 31 then 0
  else if d <? 59 + leap then 1
  else if d <? 90 + leap then 2
  else if d <? 120 + leap then 3
  else if d <? 151 + leap then 4
  else if d <? 181 + leap then 5
  else if d <? 212 + leap then 6
  else if d <? 243 + leap then 7
  else if d <? 273 + leap then 8
  else if d <? 304 + leap then 9
  else if d <? 334 + leap then 10
  else 11.

Definition MonthFromTime (t : Z) : Z :=
  monthOfYearDay (DayWithinYear t) (InLeapYear t).
Definition DateFromTime (t : Z) : Z :=
  DayWithinYear t - monthStart (MonthFromTime t) (InLeapYear t) + 1.
Definition WeekDay (t : Z) : Z := (Day t + 4) mod 7.
Definition HourFromTime (t : Z) : Z := (t / msPerHour) mod 24.
Definition MinFromTime (t : Z) : Z := (t / msPerMinute) mod 60.
Definition SecFromTime (t : Z) : Z := (t / msPerSecond) mod 60.
Definition msFromTime (t : Z) : Z := t mod msPerSecond.

Definition MakeTime (hour min sec ms : Z) : Z :=
  hour * msPerHour + min * msPerMinute + sec * msPerSecond + ms.

Definition MakeDay (year month date : Z) : Z :=
  let ym := year + month / 12 in
  let mn := month mod 12 in
  DayFromYear ym + monthStart mn (if DaysInYear ym =? 366 then 1 else 0)
  + date - 1.

Definition MakeDate (day time : Z) : Z := day * msPerDay + time.

Section LocalZone.
(** The time zone: [zone t true] is the offset of local time from universal
    time, in milliseconds, at the instant [t], and [zone t false] the
    offset that goes with the local reading [t] (the one before the clock
    change for a reading that the change skips or repeats). *)
Variable zone : Z -> bool -> Z.

Definition LocalTime (t : Z) : Z := t + zone t true.
Definition UTC (t : Z) : Z := t - zone t false.

Definition getFullYear (t : Z) : Z := YearFromTime (LocalTime t).
Definition getMonth (t : Z) : Z := MonthFromTime (LocalTime t).
Definition getDate (t : Z) : Z := DateFromTime (LocalTime t).
Definition getDay (t : Z) : Z := WeekDay (LocalTime t).

(** [d.setHours(h, m, s, ms)] *)
Definition setHours (t hour min sec ms : Z) : Z :=
  UTC (MakeDate (Day (LocalTime t)) (MakeTime hour min sec ms)).

(** [d.setDate(date)] *)
Definition setDate (t date : Z) : Z :=
  let lt := LocalTime t in
  UTC (MakeDate (MakeDay (YearFromTime lt) (MonthFromTime lt) date)
                (TimeWithinDay lt)).

(** [d.setMonth(month)] *)
Definition setMonth (t month : Z) : Z :=
  let lt := LocalTime t in
  UTC (MakeDate (MakeDay (YearFromTime lt) month (DateFromTime lt))
                (TimeWithinDay lt)).

(** [new Date(year, month, date)]: a year from 0 to 99 means 1900 + year. *)
Definition newDate (year month date : Z) : Z :=
  let yr := if (0 <=? year) && (year <=? 99) then 1900 + year else year in
  UTC (MakeDate (MakeDay yr month date) 0).

(** Number of days of the (local) month of [t]. *)
Definition daysInMonthOf (t : Z) : Z :=
  let lt := LocalTime t in
  match MonthFromTime lt with
  | 1 => 28 + InLeapYear lt
  | 3 | 5 | 8 | 10 => 30
  | _ => 31
  end.

End LocalZone.

(** A zone without clock changes. *)
Definition fixedZone (offset : Z) : Z -> bool -> Z := fun _ _ => offset.

(** *** Printing *)

(** [n.toString()] for an integer. *)
Definition toString (n : Z) : string :=
  pretty n.

(** [s.padStart(width, '0')] *)
Definition padStart0 (width : nat) (s : string) : string :=
  String.concat "" (replicate (width - String.length s)%nat "0"%string) +:+ s.

(** The year of an ISO string: four digits from 0 to 9999, a sign and six
    digits otherwise. *)
Definition isoYear (y : Z) : string :=
  if (0 <=? y) && (y <=? 9999) then padStart0 4 (toString y)
  else (if y <? 0 then "-" else "+") +:+ padStart0 6 (toString (Z.abs y)).

(** [d.toISOString()] *)
Definition toISOString (t : Z) : string :=
  isoYear (YearFromTime t) +:+ "-" +:+
  padStart0 2 (toString (MonthFromTime t + 1)) +:+ "-" +:+
  padStart0 2 (toString (DateFromTime t)) +:+ "T" +:+
  padStart0 2 (toString (HourFromTime t)) +:+ ":" +:+
  padStart0 2 (toString (MinFromTime t)) +:+ ":" +:+
  padStart0 2 (toString (SecFromTime t)) +:+ "." +:+
  padStart0 3 (toString (msFromTime t)) +:+ "Z".

(** [d.toISOString().split('T')[0]] *)
Definition isoDate (t : Z) : string :=
  isoYear (YearFromTime t) +:+ "-" +:+
  padStart0 2 (toString (MonthFromTime t + 1)) +:+ "-" +:+
  padStart0 2 (toString (DateFromTime t)).

Definition shortWeekday (w : Z) : string :=
  match w with
  | 0 => "Sun" | 1 => "Mon" | 2 => "Tue" | 3 => "Wed" | 4 => "Thu"
  | 5 => "Fri" | _ => "Sat"
  end.

Definition shortMonth (m : Z) : string :=
  match m with
  | 0 => "Jan" | 1 => "Feb" | 2 => "Mar" | 3 => "Apr" | 4 => "May"
  | 5 => "Jun" | 6 => "Jul" | 7 => "Aug" | 8 => "Sep" | 9 => "Oct"
  | 10 => "Nov" | _ => "Dec"
  end.

(** [toLocaleDateString('en-US', {weekday:'short', month:'short',
    day:'numeric'})], e.g. [Fri, Mar 1]. *)
Definition weekdayMonthDay (zone : Z -> bool -> Z) (t : Z) : string :=
  shortWeekday (getDay zone t) +:+ ", " +:+ shortMonth (getMonth zone t) +:+ " "
  +:+ toString (getDate zone t).

(** [toLocaleDateString('en-US', {month:'short', year:'numeric'})],
    e.g. [Mar 2024]. *)
Definition monthYear (zone : Z -> bool -> Z) (t : Z) : string :=
  shortMonth (getMonth zone t) +:+ " " +:+ toString (getFullYear zone t).

End JSDate.

(** ** Aggregation pipeline stages *)

Module Pipeline.
Local Open Scope Z_scope.

(** [{ $match: { storeEmail: email } }] followed by
    [{ $unwind: { path: "$billingHistory", preserveNullAndEmptyArrays: true } }]:
    one document per billing record of the store; a store without records
    gives one document without the field. *)
Definition unwindBillingHistory (db : gmap string Store) (email : string)
  : list (option Billing) :=
  match db !! email with
  | None => []
  | Some store =>
      match billingHistory store with
      | [] => [None]
      | history => Some <$> history
      end
  end.

(** [{ $match: { "billingHistory.createdAt": { $gte: lo, $lte: hi } } }];
    [hi = None] when only [$gte] is given. A document without the field
    does not match. *)
Definition matchCreatedAt (lo : Z) (hi : option Z) (docs : list (option Billing))
  : list Billing :=
  omap (fun doc =>
          bill ← doc;
          if (lo <=? createdAt bill)
             && match hi with Some h => createdAt bill <=? h | None => true end
          then Some bill else None) docs.

(** [{ $unwind: { path: "$billingHistory.productList",
                  preserveNullAndEmptyArrays: true } }] *)
Definition unwindProductList (docs : list Billing) : list (Billing * option Product) :=
  docs ≫= (fun bill =>
    match productList bill with
    | [] => [(bill, None)]
    | lines => (fun line => (bill, Some line)) <$> lines
    end).

(** [$group]: the accumulators of the group of [key doc] start from [init]
    at the first document of the group and are stepped at each document,
    in scan order. *)
Section Group.
Context {D K V : Type} `{EqDecision K}.
Variable key : D -> K.
Variable init : D -> V.
Variable step : V -> D -> V.

Fixpoint group_step (doc : D) (groups : list (K * V)) : list (K * V) :=
  match groups with
  | [] => [(key doc, step (init doc) doc)]
  | (k, v) :: rest =>
      if decide (k = key doc) then (k, step v doc) :: rest
      else (k, v) :: group_step doc rest
  end.

Definition group (docs : list D) : list (K * V) :=
  foldl (fun groups doc => group_step doc groups) [] docs.
End Group.

(** [$sort]: a stable insertion sort for the order [before]. *)
Section Sort.
Context {A : Type}.
Variable before : A -> A -> bool.

Fixpoint sort_insert (x : A) (sorted : list A) : list A :=
  match sorted with
  | [] => [x]
  | y :: rest => if before y x then y :: sort_insert x rest else x :: y :: rest
  end.

Definition sort (l : list A) : list A :=
  foldl (fun sorted x => sort_insert x sorted) [] l.
End Sort.

(** [$ifNull: [v, d]] *)
Definition ifNull {A} (v : option A) (d : A) : A := default d v.

End Pipeline.

(** ** The analytics service *)

Module Analytics.
Import JSDate Pipeline.
Local Open Scope Z_scope.

(** [Math.round(x * 100) / 100] *)
Definition round2 (x : Q) : Q :=
  Double.div (inject_Z (Double.Math_round (Double.mul x 100))) 100.

(** [Math.ceil(a / b)] for a list length [a] and a page size [b > 0]: the
    quotient rounded up to a whole number. *)
Definition ceilDiv (a b : Z) : Z := - ((- a) / b).

(** [Math.ceil((endDate - startDate) / (1000 * 60 * 60 * 24))] *)
Definition daysBetween (startDate endDate : Z) : Z :=
  Double.Math_ceil
    (Double.div (Double.sub (inject_Z endDate) (inject_Z startDate))
                (inject_Z (1000 * 60 * 60 * 24))).

(** Mongo's [{ $round: [x, 2] }] on a double: the decimal value of [x] is
    rounded to two places, a half going to the even neighbour, and the
    result is given as a double. *)
Definition mongoRound2 (x : Q) : Q :=
  Double.double (inject_Z (Double.roundHalfEven (x * 100)) / 100)%Q.

Record PeriodAggregate : Type := {
  totalSales : Q;
  transactionCount : Z;
  itemsSold : Z;
  averageTransaction : Q;
}.

Inductive ChartType := hourly | daily | monthly.

(** A point of the chart. [bucketLabel] is the field [hour] of an hourly
    point, [label] of a daily one and [month] of a monthly one; [isoDay] is
    the field [date] of a daily point. *)
Record Bucket : Type := {
  bucketLabel : string;
  isoDay : option string;
  sales : Q;
  transactions : Z;
}.

Record PeriodInfo : Type := {
  p_name : string;
  p_start : string;
  p_end : string;
}.

Record Growth : Type := {
  percentage : Z;
  isPositive : bool;
}.

Record AnalyticsResult : Type := {
  period : PeriodInfo;
  current : PeriodAggregate;
  comparison : option PeriodAggregate;
  growth : Growth;
  chartType : ChartType;
  chartData : list Bucket;
}.

(** *** The cache *)

Record CacheEntry : Type := {
  data : AnalyticsResult;
  timestamp : Z;
}.

Definition CACHE_TTL : Z := 5 * 60 * 1000.

Definition getCacheKey (email : string) (startDate endDate : Z) : string :=
  email +:+ ":" +:+ toISOString startDate +:+ ":" +:+ toISOString endDate.

(** [getFromCache(key)], with [clock] the value of [Date.now()]. *)
Definition getFromCache (clock : Z) (key : string)
    (analyticsCache : gmap string CacheEntry)
  : option AnalyticsResult * gmap string CacheEntry :=
  match analyticsCache !! key with
  | Some cached =>
      if clock - timestamp cached <? CACHE_TTL
      then (Some (data cached), analyticsCache)
      else (None, delete key analyticsCache)
  | None => (None, delete key analyticsCache)
  end.

(** [setCache(key, data)], with [clock] the value of [Date.now()]. *)
Definition setCache (clock : Z) (key : string) (result : AnalyticsResult)
    (analyticsCache : gmap string CacheEntry) : gmap string CacheEntry :=
  <[key := {| data := result; timestamp := clock |}]> analyticsCache.

(** *** Aggregations *)

Record Totals : Type := {
  t_totalSales : Q;
  t_transactionCount : Z;
  t_itemsSold : Z;
}.

(** [$reduce] over the product list: [$add: ["$$value", quantity]]. The
    quantity of a line is always present in the model, so its [$ifNull]
    never takes the default. *)
Definition lineQuantities (lines : list Product) : Z :=
  foldl (fun value this =>
           Double.addInt value (ifNull (Some (p_quantity this)) 0)) 0 lines.

Definition totalsStep (acc : Totals) (bill : Billing) : Totals :=
  {| t_totalSales := Double.add (t_totalSales acc) (totalAmount bill);
     t_transactionCount := t_transactionCount acc + 1;
     t_itemsSold :=
       Double.addInt (t_itemsSold acc) (lineQuantities (productList bill)) |}.

Definition noTotals : Totals :=
  {| t_totalSales := 0%Q; t_transactionCount := 0; t_itemsSold := 0 |}.

(** [x || 0] on a number. *)
Definition orZeroQ (x : Q) : Q := if Qeq_bool x 0 then 0%Q else x.
Definition orZeroZ (x : Z) : Z := if x =? 0 then 0 else x.

(** [getSalesForPeriodAggregated] (lines 34-74). *)
Definition getSalesForPeriodAggregated (db : gmap string Store) (email : string)
    (startDate endDate : Z) : PeriodAggregate :=
  let result :=
    group (fun _ : Billing => tt) (fun _ => noTotals) totalsStep
      (matchCreatedAt startDate (Some endDate) (unwindBillingHistory db email)) in
  match result with
  | [] => {| totalSales := 0%Q; transactionCount := 0; itemsSold := 0;
             averageTransaction := 0%Q |}
  | (_, data) :: _ =>
      {| totalSales := round2 (orZeroQ (t_totalSales data));
         transactionCount := orZeroZ (t_transactionCount data);
         itemsSold := orZeroZ (t_itemsSold data);
         averageTransaction :=
           if 0 <? t_transactionCount data
           then round2 (Double.div (t_totalSales data)
                                   (inject_Z (t_transactionCount data)))
           else 0%Q |}
  end.

(** The accumulators [sales] and [transactions] of the chart pipelines. *)
Definition chartStep (acc : Q * Z) (bill : Billing) : Q * Z :=
  (Double.add acc.1 (totalAmount bill), acc.2 + 1).

Definition chartPoint (lbl : string) (day : option string)
    (found : option (Q * Z)) : Bucket :=
  {| bucketLabel := lbl; isoDay := day;
     sales := match found with Some f => round2 f.1 | None => 0%Q end;
     transactions := match found with Some f => f.2 | None => 0 end |}.

(** [result.find(r => r._id === k)] *)
Definition findGroup {K V} `{EqDecision K} (k : K) (result : list (K * V))
  : option V :=
  snd <$> (snd <$> list_find (fun r => r.1 = k) result).

Section Zone.
Variable zone : Z -> bool -> Z.

(** [getHourlyBreakdownAggregated] (lines 79-115). [$hour] reads the
    universal-time hour of the record. *)
Definition getHourlyBreakdownAggregated (db : gmap string Store)
    (email : string) (date : Z) : list Bucket :=
  let dayStart := setHours zone date 0 0 0 0 in
  let dayEnd := setHours zone date 23 59 59 999 in
  let result :=
    sort (fun a b : Z * (Q * Z) => a.1 <=? b.1)
      (group (fun bill => HourFromTime (createdAt bill)) (fun _ => (0%Q, 0)) chartStep
         (matchCreatedAt dayStart (Some dayEnd) (unwindBillingHistory db email))) in
  (fun hour =>
     chartPoint (padStart0 2 (toString hour) +:+ ":00") None
                (findGroup hour result)) <$> seqZ 0 24.

Definition lexLe3 (a b : Z * Z * Z) : bool :=
  let '(y1, m1, d1) := a in
  let '(y2, m2, d2) := b in
  (y1 <? y2) || ((y1 =? y2) && ((m1 <? m2) || ((m1 =? m2) && (d1 <=? d2)))).

(** The [while (current <= endDate)] loop of the daily chart;
    [None] when the fuel runs out before the loop ends. *)
Fixpoint dailyLoop (fuel : nat) (result : list (Z * Z * Z * (Q * Z)))
    (current endDate : Z) : option (list Bucket) :=
  if current <=? endDate then
    match fuel with
    | O => None
    | S fuel' =>
        let found :=
          findGroup (getFullYear zone current, getMonth zone current + 1,
                     getDate zone current) result in
        let point := chartPoint (weekdayMonthDay zone current)
                                (Some (isoDate current)) found in
        (point ::.) <$>
          dailyLoop fuel' result (setDate zone current (getDate zone current + 1))
                    endDate
    end
  else Some [].

(** Turns given to the daily loop: a turn moves the date on by a calendar
    day, which takes it an hour further at least. *)
Definition dailyFuel (startDate endDate : Z) : nat :=
  Z.to_nat ((endDate - startDate) / msPerHour + 1).

(** [getDailyBreakdownAggregated] (lines 120-164). [$year], [$month] and
    [$dayOfMonth] read the universal-time date of the record. *)
Definition getDailyBreakdownAggregated (db : gmap string Store)
    (email : string) (startDate endDate : Z) : list Bucket :=
  let result :=
    sort (fun a b : Z * Z * Z * (Q * Z) => lexLe3 a.1 b.1)
      (group (fun bill => (YearFromTime (createdAt bill),
                           MonthFromTime (createdAt bill) + 1,
                           DateFromTime (createdAt bill)))
             (fun _ => (0%Q, 0)) chartStep
         (matchCreatedAt startDate (Some endDate) (unwindBillingHistory db email))) in
  default [] (dailyLoop (dailyFuel startDate endDate) result startDate endDate).

Definition lexLe2 (a b : Z * Z) : bool :=
  (a.1 <? b.1) || ((a.1 =? b.1) && (a.2 <=? b.2)).

(** The [while (current <= endMonth)] loop of the monthly chart. *)
Fixpoint monthlyLoop (fuel : nat) (result : list (Z * Z * (Q * Z)))
    (current endMonth : Z) : option (list Bucket) :=
  if current <=? endMonth then
    match fuel with
    | O => None
    | S fuel' =>
        let found :=
          findGroup (getFullYear zone current, getMonth zone current + 1) result in
        let point := chartPoint (monthYear zone current) None found in
        (point ::.) <$>
          monthlyLoop fuel' result (setMonth zone current (getMonth zone current + 1))
                      endMonth
    end
  else Some [].

(** Turns given to the monthly loop: a turn moves the date on by a
    calendar month, which takes it a day further at least. *)
Definition monthlyFuel (current endMonth : Z) : nat :=
  Z.to_nat ((endMonth - current) / msPerDay + 1).

(** [getMonthlyBreakdownAggregated] (lines 169-212). *)
Definition getMonthlyBreakdownAggregated (db : gmap string Store)
    (email : string) (startDate endDate : Z) : list Bucket :=
  let result :=
    sort (fun a b : Z * Z * (Q * Z) => lexLe2 a.1 b.1)
      (group (fun bill => (YearFromTime (createdAt bill),
                           MonthFromTime (createdAt bill) + 1))
             (fun _ => (0%Q, 0)) chartStep
         (matchCreatedAt startDate (Some endDate) (unwindBillingHistory db email))) in
  let current := newDate zone (getFullYear zone startDate) (getMonth zone startDate) 1 in
  let endMonth := newDate zone (getFullYear zone endDate) (getMonth zone endDate) 1 in
  default [] (monthlyLoop (monthlyFuel current endMonth) result current endMonth).

(** *** Period windows (lines 218-306 of [getSalesAnalytics]) *)

Record Window : Type := {
  startDate : Z;
  endDate : Z;
  comparisonStart : Z;
  comparisonEnd : Z;
  w_chartType : ChartType;
}.

(** [customStart] and [customEnd] are the parsed request dates; [None] is a
    missing or empty (falsy) parameter. *)
Definition periodWindow (now : Z) (period : string)
    (customStart customEnd : option Z) : Result Window :=
  match (if String.eqb period "custom"
         then cs ← customStart; ce ← customEnd; Some (cs, ce)
         else None) with
  | Some (startDate, endDate) =>
      let daysDiff := daysBetween startDate endDate in
      let chartType :=
        if daysDiff <=? 1 then hourly
        else if daysDiff <=? 31 then daily
        else monthly in
      let comparisonStart := setDate zone startDate (getDate zone startDate - daysDiff) in
      let comparisonEnd := setDate zone endDate (getDate zone endDate - daysDiff) in
      Ok {| startDate := startDate; endDate := endDate;
            comparisonStart := comparisonStart; comparisonEnd := comparisonEnd;
            w_chartType := chartType |}
  | None =>
      if String.eqb period "today" then
        let startDate := setHours zone now 0 0 0 0 in
        let endDate := setHours zone now 23 59 59 999 in
        Ok {| startDate := startDate; endDate := endDate;
              comparisonStart := setDate zone startDate (getDate zone startDate - 1);
              comparisonEnd := setDate zone endDate (getDate zone endDate - 1);
              w_chartType := hourly |}
      else if String.eqb period "yesterday" then
        let startDate :=
          setHours zone (setDate zone now (getDate zone now - 1)) 0 0 0 0 in
        let endDate := setHours zone startDate 23 59 59 999 in
        Ok {| startDate := startDate; endDate := endDate;
              comparisonStart := setDate zone startDate (getDate zone startDate - 1);
              comparisonEnd := setDate zone endDate (getDate zone endDate - 1);
              w_chartType := hourly |}
      else if String.eqb period "thisWeek" then
        let startDate :=
          setHours zone (setDate zone now (getDate zone now - getDay zone now)) 0 0 0 0 in
        let endDate := setHours zone now 23 59 59 999 in
        Ok {| startDate := startDate; endDate := endDate;
              comparisonStart := setDate zone startDate (getDate zone startDate - 7);
              comparisonEnd := setDate zone endDate (getDate zone endDate - 7);
              w_chartType := daily |}
      else if String.eqb period "thisMonth" then
        let startDate := newDate zone (getFullYear zone now) (getMonth zone now) 1 in
        let endDate := setHours zone now 23 59 59 999 in
        Ok {| startDate := startDate; endDate := endDate;
              comparisonStart :=
                newDate zone (getFullYear zone now) (getMonth zone now - 1) 1;
              comparisonEnd :=
                setHours zone (newDate zone (getFullYear zone now) (getMonth zone now) 0)
                         23 59 59 999;
              w_chartType := daily |}
      else if String.eqb period "thisYear" then
        let startDate := newDate zone (getFullYear zone now) 0 1 in
        let endDate := setHours zone now 23 59 59 999 in
        Ok {| startDate := startDate; endDate := endDate;
              comparisonStart := newDate zone (getFullYear zone now - 1) 0 1;
              comparisonEnd :=
                setHours zone (newDate zone (getFullYear zone now - 1)
                                      (getMonth zone now) (getDate zone now))
                         23 59 59 999;
              w_chartType := monthly |}
      else Throw INVALID_PERIOD
  end.

(** *** The service state *)

(** The collection of stores, the process-wide cache, and the number of
    [Store.aggregate] calls made so far (a counter of storage accesses kept
    for the statements; the service never reads it). *)
Record World : Type := {
  db : gmap string Store;
  analyticsCache : gmap string CacheEntry;
  aggregations : nat;
}.

(** [await Store.aggregate(pipeline)] *)
Definition aggregate {A} (pipeline : gmap string Store -> A) (w : World)
  : A * World :=
  (pipeline (db w),
   {| db := db w; analyticsCache := analyticsCache w;
      aggregations := S (aggregations w) |}).

Definition withCache (w : World) (cache : gmap string CacheEntry) : World :=
  {| db := db w; analyticsCache := cache; aggregations := aggregations w |}.

(** [0 < x] on a double. *)
Definition Qpositive (x : Q) : bool := negb (Qle_bool x 0).

(** [getSalesAnalytics] (lines 217-364). [now] is [new Date()] at entry,
    [atLookup] and [atStore] are the values of [Date.now()] read by
    [getFromCache] and by [setCache]. *)
Definition getSalesAnalytics (now atLookup atStore : Z) (email period : string)
    (customStart customEnd : option Z) (w : World)
  : Result AnalyticsResult * World :=
  match periodWindow now period customStart customEnd with
  | Throw e => (Throw e, w)
  | Ok win =>
      let cacheKey := getCacheKey email (startDate win) (endDate win) in
      let '(cached, cache1) := getFromCache atLookup cacheKey (analyticsCache w) in
      let w1 := withCache w cache1 in
      match cached with
      | Some result => (Ok result, w1)
      | None =>
          let '(currentPeriod, w2) :=
            aggregate (fun db => getSalesForPeriodAggregated db email
                                   (startDate win) (endDate win)) w1 in
          let '(comparisonPeriod, w3) :=
            aggregate (fun db => getSalesForPeriodAggregated db email
                                   (comparisonStart win) (comparisonEnd win)) w2 in
          let '(chartData, w4) :=
            match w_chartType win with
            | hourly =>
                aggregate (fun db => getHourlyBreakdownAggregated db email
                                       (startDate win)) w3
            | daily =>
                aggregate (fun db => getDailyBreakdownAggregated db email
                                       (startDate win) (endDate win)) w3
            | monthly =>
                aggregate (fun db => getMonthlyBreakdownAggregated db email
                                       (startDate win) (endDate win)) w3
            end in
          let growthPercentage :=
            if Qpositive (totalSales comparisonPeriod)
            then Double.Math_round
                   (Double.mul
                      (Double.div
                         (Double.sub (totalSales currentPeriod)
                                     (totalSales comparisonPeriod))
                         (totalSales comparisonPeriod))
                      100)
            else 0 in
          let result :=
            {| period := {| p_name := period;
                            p_start := toISOString (startDate win);
                            p_end := toISOString (endDate win) |};
               current := currentPeriod;
               comparison := Some comparisonPeriod;
               growth := {| percentage := growthPercentage;
                            isPositive := 0 <=? growthPercentage |};
               chartType := w_chartType win;
               chartData := chartData |} in
          (Ok result,
           withCache w4 (setCache atStore cacheKey result (analyticsCache w4)))
      end
  end.

(** *** Top-selling medicines (lines 369-424) *)

Record TopSeller : Type := {
  ts_id : option string;
  ts_medID : option string;
  ts_name : option string;
  ts_quantity : Z;
  ts_revenue : Q;
}.

Record SellerAcc : Type := {
  a_name : option string;
  a_quantity : Z;
  a_revenue : Q;
}.

Definition sellerInit (doc : Billing * option Product) : SellerAcc :=
  let line := snd doc in
  {| a_name := name <$> (line ≫= p_medData);   (* $first *)
     a_quantity := 0; a_revenue := 0%Q |}.

(** ["$billingHistory.productList.quantity"] and
    ["$billingHistory.productList.medData.pricePerTab"] *)
Definition docQuantity (doc : Billing * option Product) : option Z :=
  p_quantity <$> snd doc.
Definition docPrice (doc : Billing * option Product) : option Q :=
  (snd doc ≫= p_medData) ≫= pricePerTab.

Definition sellerStep (acc : SellerAcc) (doc : Billing * option Product)
  : SellerAcc :=
  {| a_name := a_name acc;
     a_quantity := Double.addInt (a_quantity acc) (ifNull (docQuantity doc) 0);
     a_revenue :=
       Double.add (a_revenue acc)
         (Double.mul (inject_Z (ifNull (docQuantity doc) 0%Z))
                     (ifNull (docPrice doc) 0%Q)) |}.

(** The window start chosen by the [switch] of [getTopSellingMedicines]. *)
Definition topSellingStart (now : Z) (period : string) : Z :=
  if String.eqb period "today" then setHours zone now 0 0 0 0
  else if String.eqb period "thisWeek" then
    setHours zone (setDate zone now (getDate zone now - getDay zone now)) 0 0 0 0
  else if String.eqb period "thisYear" then newDate zone (getFullYear zone now) 0 1
  else newDate zone (getFullYear zone now) (getMonth zone now) 1.

Definition topSellingPipeline (startDate : Z) (limit : nat)
    (db : gmap string Store) (email : string) : list TopSeller :=
  let groups :=
    group (fun doc : Billing * option Product => medID_of (snd doc ≫= p_medData))
          sellerInit sellerStep
      (unwindProductList
         (matchCreatedAt startDate None (unwindBillingHistory db email))) in
  let named := filter (fun g : option string * SellerAcc => g.1 <> None) groups in
  let sorted :=
    sort (fun a b : option string * SellerAcc =>
            Qle_bool (a_revenue b.2) (a_revenue a.2)) named in
  (fun g : option string * SellerAcc =>
     {| ts_id := g.1; ts_medID := g.1; ts_name := a_name g.2;
        ts_quantity := a_quantity g.2;
        ts_revenue := mongoRound2 (a_revenue g.2) |}) <$> take limit sorted.

Definition getTopSellingMedicines (now : Z) (email period : string)
    (limit : nat) (w : World) : Result (list TopSeller) * World :=
  let startDate := topSellingStart now period in
  let '(result, w1) :=
    aggregate (fun db => topSellingPipeline startDate limit db email) w in
  (Ok result, w1).

End Zone.
End Analytics.

(** ** Vocabulary of the ledger properties *)

Module LedgerSpec.
Import Ledger.
Local Open Scope Z_scope.

Definition hasMedID (m : option string) (e : StockEntry) : Prop :=
  medID_of (medData e) = m.

#[global] Instance hasMedID_dec m e : Decision (hasMedID m e).
Proof. unfold hasMedID. apply _. Defined.

(** The entries of the ledger held for medicine [m], in ledger order. *)
Definition entriesFor (m : option string) (ledger : list StockEntry)
  : list StockEntry :=
  filter (hasMedID m) ledger.

Definition sumQuantity (entries : list StockEntry) : Z :=
  foldr (fun e acc => quantity e + acc) 0 entries.

(** Quantity of medicine [m] in the ledger. *)
Definition stockOf (m : option string) (ledger : list StockEntry) : Z :=
  sumQuantity (entriesFor m ledger).




(** What one turn of the billing loop does to a ledger that validates the
    line: the first entry for the medicine loses the requested quantity and
    stays when something is left, or leaves the ledger when nothing is. *)
Inductive lineStep (ledger : list StockEntry) (p : Product)
  : list StockEntry -> Prop :=
  | step_reduce before e after :
      ledger = before ++ e :: after ->
      Forall (fun x => ~ hasMedID (medID_of (p_medData p)) x) before ->
      hasMedID (medID_of (p_medData p)) e ->
      0 < quantity e - p_quantity p ->
      lineStep ledger p
        (before ++ with_quantity e (quantity e - p_quantity p) :: after)
  | step_remove before e after :
      ledger = before ++ e :: after ->
      Forall (fun x => ~ hasMedID (medID_of (p_medData p)) x) before ->
      hasMedID (medID_of (p_medData p)) e ->
      quantity e = p_quantity p ->
      lineStep ledger p (before ++ after).


End LedgerSpec.

(** ** Vocabulary of the analytics properties *)

Module AnalyticsSpec.
Import JSDate Analytics.
Local Open Scope Z_scope.

(** The billing records of a history created in the window [start, end]. *)
Definition recordsIn (history : list Billing) (start end_ : Z) : list Billing :=
  filter (fun bill => start <= createdAt bill <= end_) history.


(** [r] is the double [x] rounded to cents: with [n] the whole number
    nearest to the double [x * 100], a half going up, [r] is the double
    [n / 100]. *)
Definition roundedToCents (x r : Q) : Prop :=
  exists n : Z,
    (inject_Z n - (1 # 2) <= Double.mul x 100)%Q
    /\ (Double.mul x 100 < inject_Z n + (1 # 2))%Q
    /\ r = Double.div (inject_Z n) 100.




(** The billing history the pipelines of a store scan. *)
Definition historyOf (db : gmap string Store) (email : string) : list Billing :=
  default [] (billingHistory <$> db !! email).

(** The period names of the [switch] of [getSalesAnalytics]. *)
Definition namedPeriods : list string :=
  ["today"; "yesterday"; "thisWeek"; "thisMonth"; "thisYear"]%string.

(** A period request [getSalesAnalytics] resolves to a window: a named
    period, or [custom] with both dates. *)
Definition acceptedPeriod (period : string) (customStart customEnd : option Z)
  : Prop :=
  period ∈ namedPeriods
  \/ (period = "custom"%string /\ is_Some customStart /\ is_Some customEnd).

(** The instant whose local reading is the reading of [t] moved by [k]
    calendar days, at the same time of day. *)
Definition shiftDays (zone : Z -> bool -> Z) (t k : Z) : Z :=
  UTC zone (LocalTime zone t + k * msPerDay).

(** The number of calendar days by which the periods compared day by day
    move their window back. *)
Definition comparisonDays (period : string) (win : Window) : Z :=
  if String.eqb period "thisWeek" then 7
  else if String.eqb period "custom"
       then daysBetween (startDate win) (endDate win)
       else 1.

(** The number of days of month [m] of year [y], the months being counted
    on through the years (12 is the January after, -1 the December
    before). *)
Definition monthLength (y m : Z) : Z := MakeDay y (m + 1) 1 - MakeDay y m 1.

(** The year of [t] in universal time is printed with four digits. *)
Definition fourDigitYear (t : Z) : Prop := 0 <= YearFromTime t <= 9999.

(** The number a string of decimal digits stands for. *)
Fixpoint readDigits (acc : Z) (s : string) : Z :=
  match s with
  | EmptyString => acc
  | String c s' => readDigits (10 * acc + (Z.of_N (Ascii.N_of_ascii c) - 48)) s'
  end.

Definition readDecimal (s : string) : Z := readDigits 0 s.

(** [n] is printed with [width] digits, from which it can be read back. *)
Definition printsIn (width : nat) (n : Z) : bool :=
  (readDecimal (padStart0 width (toString n)) =? n)
  && Nat.eqb (String.length (padStart0 width (toString n))) width.

(** Number of local calendar days touched by the window [start, end]. *)
Definition calendarDayCount (zone : Z -> bool -> Z) (start end_ : Z) : Z :=
  Day (LocalTime zone end_) - Day (LocalTime zone start) + 1.

(** The result [getSalesAnalytics] builds on a cache miss (lines 316-356):
    the two period aggregates and the chart of the window, computed on the
    stored billing history. *)
Definition freshAnalytics (zone : Z -> bool -> Z) (db : gmap string Store)
    (email periodName : string) (win : Window) (r : AnalyticsResult) : Prop :=
  current r = getSalesForPeriodAggregated db email (startDate win) (endDate win)
  /\ comparison r = Some (getSalesForPeriodAggregated db email
                            (comparisonStart win) (comparisonEnd win))
  /\ chartType r = w_chartType win
  /\ chartData r =
     match w_chartType win with
     | hourly => getHourlyBreakdownAggregated zone db email (startDate win)
     | daily => getDailyBreakdownAggregated zone db email (startDate win) (endDate win)
     | monthly => getMonthlyBreakdownAggregated zone db email (startDate win) (endDate win)
     end
  /\ period r = {| p_name := periodName; p_start := toISOString (startDate win);
                   p_end := toISOString (endDate win) |}.

End AnalyticsSpec.

(** ** Searching the stock and the billing history *)

Module StoreQueries.
Import Ledger StoreService Pipeline Analytics.
Local Open Scope Z_scope.

(** [s.includes(sub)] *)
Fixpoint includes (sub s : string) : bool :=
  if String.prefix sub s then true
  else match s with
       | EmptyString => false
       | String _ s' => includes sub s'
       end.

(** [l.slice(start, end_)]: a negative index counts from the end, and both
    are clamped to the list. *)
Definition slice {A} (l : list A) (start end_ : Z) : list A :=
  let len := Z.of_nat (length l) in
  let k := if start <? 0 then Z.max (len + start) 0 else Z.min start len in
  let final := if end_ <? 0 then Z.max (len + end_) 0 else Z.min end_ len in
  take (Z.to_nat (final - k)) (drop (Z.to_nat k) l).

(** The result of a paginated query. [totalPages] is [None] when the
    quotient [total / limit] is not finite ([limit] is 0). *)
Record Page (A : Type) : Type := {
  items : list A;
  pg_page : Z;
  pg_limit : Z;
  total : Z;
  totalPages : option Z;
  hasMore : bool;
}.
Arguments items {A} _.
Arguments pg_page {A} _.
Arguments pg_limit {A} _.
Arguments total {A} _.
Arguments totalPages {A} _.
Arguments hasMore {A} _.

(** The pagination both queries end with (lines 189-204 and 515-530). *)
Definition paginate {A} (filtered : list A) (page limit : Z) : Page A :=
  let total := Z.of_nat (length filtered) in
  let startIndex := (page - 1) * limit in
  let endIndex := startIndex + limit in
  {| items := slice filtered startIndex endIndex;
     pg_page := page; pg_limit := limit; total := total;
     totalPages := if limit =? 0 then None else Some (ceilDiv total limit);
     hasMore := endIndex <? total |}.

(** [query && query.trim() !== ''] *)
Definition hasSearchTerm (query : string) : bool :=
  negb (String.eqb query "") && negb (String.eqb (trim query) "").

(** The filter of [queryStock] (lines 178-186). *)
Definition stockMatches (searchTerm : string) (med : StockEntry) : bool :=
  let name := default "" (toLowerCase ∘ name <$> medData med) in
  let secName := default "" (toLowerCase ∘ secName <$> medData med) in
  let medID := default "" (toLowerCase ∘ medID <$> medData med) in
  includes searchTerm name || includes searchTerm secName
  || includes searchTerm medID.

(** [queryStock] (lines 166-205). *)
Definition queryStock (db : gmap string Store) (email query : string)
    (page limit : Z) : Result (Page StockEntry) :=
  match findStoreByEmail db email with
  | None => Throw STORE_NOT_FOUND
  | Some store =>
      let filteredStock :=
        if hasSearchTerm query
        then filter (fun med => stockMatches (trim (toLowerCase query)) med)
                    (stock store)
        else stock store in
      Ok (paginate filteredStock page limit)
  end.

Inductive SearchBy := by_name | by_phone | by_medicine.

(** The filters of [searchBillingHistory] (lines 490-509). *)
Definition billMatches (searchBy : SearchBy) (searchTerm : string)
    (bill : Billing) : bool :=
  match searchBy with
  | by_phone => includes searchTerm (phone bill)
  | by_medicine =>
      existsb (fun product =>
                 default false (includes searchTerm ∘ toLowerCase ∘ medID
                                <$> p_medData product)
                 || default false (includes searchTerm ∘ toLowerCase ∘ name
                                   <$> p_medData product))
              (productList bill)
  | by_name => includes searchTerm (toLowerCase (customerName bill))
  end.

(** [searchBillingHistory] (lines 477-531). The sort is the stable one of
    [Array.prototype.sort] with the comparator [b.createdAt - a.createdAt];
    without a search term it reorders the history of the loaded document
    in place, which is never saved. *)
Definition searchBillingHistory (db : gmap string Store) (email query : string)
    (searchBy : SearchBy) (page limit : Z) : Result (Page Billing) :=
  match findStoreByEmail db email with
  | None => Throw STORE_NOT_FOUND
  | Some store =>
      let filteredBills :=
        if hasSearchTerm query
        then filter (fun bill => billMatches searchBy (trim (toLowerCase query)) bill)
                    (billingHistory store)
        else billingHistory store in
      let sorted :=
        sort (fun a b : Billing => createdAt b <=? createdAt a) filteredBills in
      Ok (paginate sorted page limit)
  end.

End StoreQueries.

(** ** Vocabulary of the stock operations *)

Module StockSpec.
Import Ledger.

(** What tells two entries of a ledger apart: the medicine identifier and
    the batch number. *)
Definition ledgerKey (e : StockEntry) : option string * string :=
  (medID_of (medData e), batchNumber e).

Definition keysUnique (ledger : list StockEntry) : Prop :=
  NoDup (ledgerKey <$> ledger).

(** Every entry of the ledger passes the schema. *)
Definition validLedger (ledger : list StockEntry) : Prop :=
  Forall (fun e => validEntry e = true) ledger.

(** The whole numbers that doubles tell apart. *)
Definition safeInteger (z : Z) : Prop := (Z.abs z <= 2 ^ 53)%Z.

(** The medicine data of a delivery pass the schema when pushed as a new
    entry. *)
Definition validMedicine (md : MedicineData) : Prop :=
  exists id, md_medID md = Some id /\ id <> ""%string /\ md_name md <> ""%string
             /\ orS (md_medType md) "" ∈ medTypes.

(** The entry [addToStock] writes over the one it found (lines 244-248):
    the quantity grows by [q], as a double, and a given expiry date
    replaces the old. *)
Definition mergedEntry (md : MedicineData) (e : StockEntry) (q : Z) : StockEntry :=
  let entry1 := with_quantity e (Double.addInt (quantity e) q) in
  match md_expiryDate md with
  | Some d => with_expiry entry1 (Some d)
  | None => entry1
  end.

End StockSpec.

(** ** Vocabulary of the chart properties *)

Module ChartSpec.
Import JSDate Analytics.
Local Open Scope Z_scope.


(** The calendar date [getFullYear], [getMonth() + 1] and [getDate] read
    off the loop variable: its date in local time. *)
Definition localDate (zone : Z -> bool -> Z) (t : Z) : Z * Z * Z :=
  (getFullYear zone t, getMonth zone t + 1, getDate zone t).

(** The instant a calendar day after [t] on the local clock, at the same
    time of day: what [d.setDate(d.getDate() + 1)] makes of [t]. *)
Definition nextDay (zone : Z -> bool -> Z) (t : Z) : Z :=
  UTC zone (LocalTime zone t + msPerDay).

(** The instants the daily chart walks through: from [t] on, a calendar day
    at a time, as long as they are not after [end_]. *)
Inductive dayWalk (zone : Z -> bool -> Z) (end_ : Z) : Z -> list Z -> Prop :=
  | walk_end t : end_ < t -> dayWalk zone end_ t []
  | walk_day t rest :
      t <= end_ -> dayWalk zone end_ (nextDay zone t) rest ->
      dayWalk zone end_ t (t :: rest).


End ChartSpec.

(** ** Vocabulary of the top-selling properties *)

Module TopSellingSpec.
Import Analytics AnalyticsSpec.
Local Open Scope Z_scope.







End TopSellingSpec.

(** ** Sample data

    Two stores, two time zones and a call time, used to instantiate the
    statements. The times are universal time: [mar1] is
    2024-03-01T00:00:00.000Z and [callTime] is 2024-03-15T10:34:56.789Z. *)

Module Scenario.
Import Ledger StoreService JSDate Analytics.
Local Open Scope Z_scope.

Definition medicine (id : string) (price : Q) : MedData :=
  {| medID := id; name := id; secName := ""; sellingType := "strip";
     medType := "tablet"; pricePerTab := Some price; cardPerBox := 10 |}.

Definition lot (id batch : string) (q : Z) : StockEntry :=
  {| medData := Some (medicine id 5); quantity := q; expiryDate := None;
     batchNumber := batch; purchasePrice := 3 |}.

Definition line (id : string) (q : Z) : Product :=
  {| p_medData := Some (medicine id 5); p_quantity := q |}.

Definition sale (t : Z) (amount : Q) (lines : list Product) : Billing :=
  {| b_id := 0%N; storeId := 1%N; customerName := "Asha"; customerAge := 30;
     phone := "5550100"; productList := lines; totalAmount := amount;
     createdAt := t |}.

(** Universal time as the local zone. *)
Definition utc : Z -> bool -> Z := fixedZone 0.

(** America/New_York in 2024: five hours behind universal time, and four
    from 2024-03-10T07:00Z to 2024-11-03T06:00Z. The local readings from
    02:00 to 03:00 on March 10 are skipped and those from 01:00 to 02:00 on
    November 3 come twice; both are taken with the offset before the
    change. *)
Definition newYork (t : Z) (isUTC : bool) : Z :=
  let forward := 1710054000000 in
  let back := 1730613600000 in
  let standard := -5 * msPerHour in
  let summer := -4 * msPerHour in
  if isUTC
  then if (forward <=? t) && (t <? back) then summer else standard
  else if (forward + standard + msPerHour <=? t) && (t <? back + summer)
       then summer else standard.

(** The double nearest to an amount of [n] cents. *)
Definition cents (n : Z) : Q := Double.double (n # 100).

Definition mar1 : Z := 1709251200000.

Definition mar2 : Z := mar1 + msPerDay.
Definition mar3 : Z := mar2 + msPerDay.
Definition callTime : Z := 1710498896789.

(** 2024-03-11T15:00:00Z, 11:00 in New York on the day after the clocks
    went forward. *)
Definition afterClockChange : Z := 1710169200000.

(** 2024-03-10T16:00:00Z, noon in New York on the day of the change. *)
Definition changeDayNoon : Z := 1710086400000.

(** From 2024-03-09T17:00:00Z, noon in New York on the day before the
    change, to 2024-03-11T16:30:00Z, 12:30 there on the day after. *)
Definition weekendStart : Z := 1710003600000.
Definition weekendEnd : Z := 1710174600000.

(** Three sales on March 1 (150 in all), two on March 2 (80 in all) and one
    in the small hours of March 3. *)
Definition history : list Billing :=
  [ sale (mar1 + 1 * msPerHour) 50 [line "A" 2];
    sale (mar1 + 2 * msPerHour) 60 [line "B" 3; line "A" 1];
    sale (mar1 + 3 * msPerHour) 40 [];
    sale (mar2 + 1 * msPerHour) 30 [line "A" 6];
    sale (mar2 + 2 * msPerHour) 50 [line "C" 2];
    sale (mar3 + 1 * msPerHour) 20 [line "B" 1] ].

(** Medicine [A] is held in two batches. *)
Definition pharmacy : Store :=
  {| s_id := 1%N;
     stock := [lot "A" "b1" 2; lot "A" "b2" 5; lot "B" "" 10];
     billingHistory := history |}.

Definition clinic : Store :=
  {| s_id := 2%N;
     stock := [lot "A" "b1" 2; lot "B" "" 10];
     billingHistory := [] |}.

Definition pharmacyEmail : string := "pharmacy@mims.test".
Definition clinicEmail : string := "clinic@mims.test".

Definition stores : gmap string Store :=
  {[ pharmacyEmail := pharmacy; clinicEmail := clinic ]}.

Definition order (lines : list Product) (amount : Q) : BillingData :=
  {| bd_customerName := "Asha"; bd_customerAge := 30; bd_phone := "5550100";
     products := lines; bd_totalAmount := amount |}.

(** A delivery of medicine [A], batch [b2]. *)
Definition delivery : MedicineData :=
  {| md_medID := Some "A"; md_name := "A"; md_secName := None;
     md_sellingType := None; md_medType := Some "tablet";
     md_pricePerTab := Some 5%Q;
     md_cardPerBox := None; md_pricePerBox := None; md_expiryDate := None;
     md_batchNumber := Some "b2"; md_purchasePrice := None |}.

(** A delivery of medicine [C], which the clinic does not hold, without
    batch number. *)
Definition restock : MedicineData :=
  {| md_medID := Some "C"; md_name := "C"; md_secName := None;
     md_sellingType := None; md_medType := Some "capsules";
     md_pricePerTab := Some 25%Q;
     md_cardPerBox := None; md_pricePerBox := None; md_expiryDate := None;
     md_batchNumber := None; md_purchasePrice := None |}.

(** The window of [thisWeek] at [callTime], a Friday: Sunday March 10 to
    the end of March 15, compared with the seven days before. *)
Definition thisWeekWindow : Window :=
  {| startDate := 1710028800000; endDate := 1710547199999;
     comparisonStart := 1709424000000; comparisonEnd := 1709942399999;
     w_chartType := daily |}.

(** The window of [today] at [callTime]. *)
Definition todayWindow : Window :=
  {| startDate := 1710460800000; endDate := 1710547199999;
     comparisonStart := 1710374400000; comparisonEnd := 1710460799999;
     w_chartType := hourly |}.

Definition emptyAggregate : PeriodAggregate :=
  {| totalSales := 0%Q; transactionCount := 0; itemsSold := 0;
     averageTransaction := 0%Q |}.

(** A report cached for [todayWindow] one minute before [callTime]. *)
Definition cachedReport : AnalyticsResult :=
  {| period := {| p_name := "today"; p_start := toISOString (startDate todayWindow);
                  p_end := toISOString (endDate todayWindow) |};
     current := emptyAggregate; comparison := Some emptyAggregate;
     growth := {| percentage := 0; isPositive := true |};
     chartType := hourly; chartData := [] |}.

Definition todayKey : string :=
  getCacheKey pharmacyEmail (startDate todayWindow) (endDate todayWindow).

Definition warm : World :=
  {| db := stores;
     analyticsCache :=
       {[ todayKey := {| data := cachedReport; timestamp := callTime - 60000 |} ]};
     aggregations := 0 |}.

Definition cold : World :=
  {| db := stores; analyticsCache := ∅; aggregations := 0 |}.

End Scenario.

(** * Properties of the numbers *)

Module DoubleFacts.
Import Double.
Local Open Scope Q_scope.

Lemma pow2_pos e : 0 < pow2 e.
Proof. apply Qpower_0_lt. reflexivity. Qed.

Lemma pow2_add a b : pow2 (a + b) == pow2 a * pow2 b.
Proof. apply Qpower_plus. discriminate. Qed.

Lemma pow2_le a b : (a <= b)%Z -> pow2 a <= pow2 b.
Proof. intros H. apply Qpower_le_compat_l; [exact H|]. discriminate. Qed.

Lemma pow2_lt a b : (a < b)%Z -> pow2 a < pow2 b.
Proof. intros H. apply Qpower_lt_compat_l; [exact H|]. reflexivity. Qed.

Lemma pow2_Z e : (0 <= e)%Z -> pow2 e == inject_Z (2 ^ e).
Proof. intros H. unfold pow2. by rewrite Zpower_Qpower. Qed.

Lemma pow2_le_inv a b : pow2 a <= pow2 b -> (a <= b)%Z.
Proof. intros H. eapply Qpower_le_compat_l_inv; [exact H|reflexivity]. Qed.

Lemma ilog2_spec x : 0 < x -> pow2 (ilog2 x) <= x /\ x < pow2 (ilog2 x + 1).
Proof.
  intros Hx. unfold ilog2.
  destruct x as [n d]. cbn [Qnum Qden].
  assert (0 < n)%Z as Hn by (unfold Qlt in Hx; simpl in Hx; lia).
  set (a := Z.log2 n). set (b := Z.log2 (Zpos d)).
  destruct (Z.log2_spec n Hn) as [Ha1 Ha2]. fold a in Ha1, Ha2.
  destruct (Z.log2_spec (Zpos d) ltac:(lia)) as [Hb1 Hb2]. fold b in Hb1, Hb2.
  assert (0 <= a)%Z as Ha0 by apply Z.log2_nonneg.
  assert (0 <= b)%Z as Hb0 by apply Z.log2_nonneg.
  assert ((n # d) * inject_Z (Zpos d) == inject_Z n) as Hnd.
  { unfold Qeq, Qmult, inject_Z. simpl. lia. }
  assert (0 < inject_Z (Zpos d)) as Hd by (unfold Qlt; simpl; lia).
  pose proof (pow2_pos (a - b)) as Hp0.
  pose proof (pow2_pos (a - b - 1)) as Hp1.
  pose proof (pow2_pos (a - b + 1)) as Hp2.
  pose proof (pow2_pos b) as Hpb.
  assert (pow2 b <= inject_Z (Zpos d)) as Hbd
    by (rewrite pow2_Z by done; by rewrite <- Zle_Qle).
  assert (inject_Z (Zpos d) < pow2 (b + 1)) as Hbd'.
  { rewrite pow2_Z by lia. rewrite <- Zlt_Qlt. by rewrite <- Z.add_1_r in Hb2. }
  assert (pow2 a <= inject_Z n) as Han
    by (rewrite pow2_Z by done; by rewrite <- Zle_Qle).
  assert (inject_Z n < pow2 (a + 1)) as Han'.
  { rewrite pow2_Z by lia. rewrite <- Zlt_Qlt. by rewrite <- Z.add_1_r in Ha2. }
  (* upper bound for e = a - b *)
  assert ((n # d) < pow2 (a - b + 1)) as HU.
  { assert (pow2 (a - b + 1) * pow2 b == pow2 (a + 1)) as E
      by (rewrite <- pow2_add; f_equiv; lia).
    set (X := n # d) in *. set (D := inject_Z (Zpos d)) in *.
    set (P := pow2 (a - b + 1)) in *. set (B := pow2 b) in *.
    set (N := inject_Z n) in *. set (A1 := pow2 (a + 1)) in *.
    nra. }
  assert (pow2 (a - b - 1) < (n # d)) as HL.
  { assert (pow2 (a - b - 1) * pow2 (b + 1) == pow2 a) as E
      by (rewrite <- pow2_add; f_equiv; lia).
    set (X := n # d) in *. set (D := inject_Z (Zpos d)) in *.
    set (P := pow2 (a - b - 1)) in *. set (B := pow2 (b + 1)) in *.
    set (N := inject_Z n) in *. set (A1 := pow2 a) in *.
    nra. }
  destruct (Qle_bool (pow2 (a - b)) (n # d)) eqn:Hle.
  - apply Qle_bool_iff in Hle. split; [done|done].
  - assert (~ pow2 (a - b) <= n # d) as Hnle
      by (rewrite <- Qle_bool_iff; congruence).
    apply Qnot_le_lt in Hnle.
    replace (a - b - 1 + 1)%Z with (a - b)%Z by lia.
    split; [by apply Qlt_le_weak|done].
Qed.

(** The exponent of the binade is determined by the value. *)
Lemma ilog2_unique x e : pow2 e <= x -> x < pow2 (e + 1) -> ilog2 x = e.
Proof.
  intros H1 H2.
  assert (0 < x) as Hx by (pose proof (pow2_pos e); lra).
  destruct (ilog2_spec x Hx) as [H3 H4].
  assert (pow2 (ilog2 x) < pow2 (e + 1)) as H5 by lra.
  assert (pow2 e < pow2 (ilog2 x + 1)) as H6 by lra.
  assert (ilog2 x <= e + 1)%Z as H5' by (apply pow2_le_inv; lra).
  assert (e <= ilog2 x + 1)%Z as H6' by (apply pow2_le_inv; lra).
  destruct (Z.eq_dec (ilog2 x) (e + 1))%Z as [E|E].
  { rewrite E in H5. apply Qlt_irrefl in H5. done. }
  destruct (Z.eq_dec e (ilog2 x + 1))%Z as [E'|E'].
  { rewrite <- E' in H6. apply Qlt_irrefl in H6. done. }
  lia.
Qed.

Lemma ilog2_comp x y : 0 < x -> x == y -> ilog2 x = ilog2 y.
Proof.
  intros Hx E. destruct (ilog2_spec x Hx) as [H1 H2].
  symmetry. apply ilog2_unique; by rewrite <- E.
Qed.

Lemma ilog2_le x y : 0 < x -> x <= y -> (ilog2 x <= ilog2 y)%Z.
Proof.
  intros Hx Hxy.
  destruct (ilog2_spec x Hx) as [H1 H2].
  destruct (ilog2_spec y ltac:(lra)) as [H3 H4].
  assert (pow2 (ilog2 x) < pow2 (ilog2 y + 1)) as H by lra.
  assert (ilog2 x <= ilog2 y + 1)%Z as H' by (apply pow2_le_inv; lra).
  destruct (Z.eq_dec (ilog2 x) (ilog2 y + 1))%Z as [E|E]; [|lia].
  rewrite E in H. apply Qlt_irrefl in H. done.
Qed.

(** *** Rounding to the nearest integer, a half to the even one *)

Lemma roundHalfEven_comp x y : x == y -> roundHalfEven x = roundHalfEven y.
Proof.
  intros H. unfold roundHalfEven.
  assert (Qfloor x = Qfloor y) as Hf by (by apply Qfloor_comp).
  rewrite Hf.
  assert (Qcompare (x - inject_Z (Qfloor y)) (1 # 2)
          = Qcompare (y - inject_Z (Qfloor y)) (1 # 2)) as ->; [|done].
  apply Qcompare_comp; [by rewrite H|reflexivity].
Qed.

Lemma roundHalfEven_spec y :
  let n := roundHalfEven y in
  inject_Z n - (1 # 2) <= y /\ y <= inject_Z n + (1 # 2)
  /\ (y == inject_Z n - (1 # 2) \/ y == inject_Z n + (1 # 2) -> Z.even n = true).
Proof.
  unfold roundHalfEven.
  pose proof (Qfloor_le y) as Hl. pose proof (Qlt_floor y) as Hu.
  set (f := Qfloor y) in *. rewrite inject_Z_plus in Hu.
  change (inject_Z 1) with 1 in Hu.
  destruct (Qcompare_spec (y - inject_Z f) (1 # 2)) as [H|H|H]; cbv zeta.
  - destruct (Z.even f) eqn:Hev.
    + split; [lra|]. split; [lra|]. done.
    + rewrite inject_Z_plus. change (inject_Z 1) with 1.
      split; [lra|]. split; [lra|]. intros _.
      rewrite Z.even_add, Hev. done.
  - split; [lra|]. split; [lra|]. intros [E|E]; lra.
  - rewrite inject_Z_plus. change (inject_Z 1) with 1.
    split; [lra|]. split; [lra|]. intros [E|E]; lra.
Qed.

Lemma roundHalfEven_le x y : x <= y -> (roundHalfEven x <= roundHalfEven y)%Z.
Proof.
  intros Hy. unfold roundHalfEven.
  pose proof (Qfloor_resp_le _ _ Hy) as Hf.
  pose proof (Qfloor_le x) as Hl1. pose proof (Qlt_floor x) as Hu1.
  pose proof (Qfloor_le y) as Hl2. pose proof (Qlt_floor y) as Hu2.
  set (f1 := Qfloor x) in *. set (f2 := Qfloor y) in *.
  rewrite inject_Z_plus in Hu1, Hu2.
  change (inject_Z 1) with 1 in Hu1, Hu2.
  destruct (Z.eq_dec f1 f2)%Z as [Heq|Hne].
  - rewrite <- Heq in *.
    destruct (Qcompare_spec (x - inject_Z f1) (1 # 2)) as [H1|H1|H1];
      destruct (Qcompare_spec (y - inject_Z f1) (1 # 2)) as [H2|H2|H2];
      try lia; try lra; destruct (Z.even f1); lia.
  - assert (f1 + 1 <= f2)%Z by lia.
    destruct (Qcompare (x - inject_Z f1) (1 # 2)), (Qcompare (y - inject_Z f2) (1 # 2));
      try destruct (Z.even f1); try destruct (Z.even f2); lia.
Qed.

Lemma roundHalfEven_Z n : roundHalfEven (inject_Z n) = n.
Proof.
  unfold roundHalfEven. rewrite Qfloor_Z.
  destruct (Qcompare_spec (inject_Z n - inject_Z n) (1 # 2)) as [H|H|H];
    [lra|done|lra].
Qed.

Lemma roundHalfEven_opp y : roundHalfEven (- y) = (- roundHalfEven y)%Z.
Proof.
  destruct (roundHalfEven_spec y) as (H1 & H2 & H3).
  destruct (roundHalfEven_spec (- y)) as (H4 & H5 & H6).
  set (n := roundHalfEven y) in *. set (m := roundHalfEven (- y)) in *.
  assert (inject_Z (n + m) <= inject_Z 1) as Hs1.
  { rewrite inject_Z_plus. change (inject_Z 1) with 1. lra. }
  assert (inject_Z (-1) <= inject_Z (n + m)) as Hs2.
  { rewrite inject_Z_plus. change (inject_Z (-1)) with (-(1)). lra. }
  rewrite <- Zle_Qle in Hs1, Hs2.
  destruct (Z.eq_dec (n + m) 0)%Z as [E|E]; [lia|]. exfalso.
  destruct (Z.eq_dec (n + m) 1)%Z as [E1|E1].
  - assert (inject_Z n + inject_Z m == 1) as Eq
      by (rewrite <- inject_Z_plus, E1; reflexivity).
    assert (y == inject_Z n - (1 # 2)) as Hy by lra.
    assert (- y == inject_Z m - (1 # 2)) as Hy' by lra.
    pose proof (H3 (or_introl Hy)) as Hn.
    pose proof (H6 (or_introl Hy')) as Hm.
    assert (Z.even (n + m) = true) as Hev by (rewrite Z.even_add, Hn, Hm; done).
    rewrite E1 in Hev. done.
  - assert (n + m = -1)%Z as E2 by lia.
    assert (inject_Z n + inject_Z m == -(1)) as Eq
      by (rewrite <- inject_Z_plus, E2; reflexivity).
    assert (y == inject_Z n + (1 # 2)) as Hy by lra.
    assert (- y == inject_Z m + (1 # 2)) as Hy' by lra.
    pose proof (H3 (or_intror Hy)) as Hn.
    pose proof (H6 (or_intror Hy')) as Hm.
    assert (Z.even (n + m) = true) as Hev by (rewrite Z.even_add, Hn, Hm; done).
    rewrite E2 in Hev. done.
Qed.



(** *** Rounding to the nearest double *)

Lemma double_0 : double 0 = 0.
Proof. reflexivity. Qed.

Lemma double_eq x :
  ~ x == 0 ->
  double x == inject_Z (roundHalfEven (x / pow2 (ulpExp x))) * pow2 (ulpExp x).
Proof.
  intros Hx. unfold double.
  destruct (Qeq_bool x 0) eqn:E; [by apply Qeq_bool_iff in E|].
  apply Qred_correct.
Qed.

Lemma Qabs_nonzero x : ~ x == 0 -> 0 < Qabs x.
Proof.
  intros Hx. pose proof (Qabs_nonneg x).
  destruct (Qeq_dec (Qabs x) 0) as [E|E]; [|lra].
  exfalso. apply Hx. revert E. apply Qabs_case; intros; lra.
Qed.

Lemma ulpExp_comp x y : ~ x == 0 -> x == y -> ulpExp x = ulpExp y.
Proof.
  intros Hx E. unfold ulpExp.
  rewrite (ilog2_comp (Qabs x) (Qabs y)); [done|by apply Qabs_nonzero|by rewrite E].
Qed.

Lemma double_comp x y : x == y -> double x = double y.
Proof.
  intros E. unfold double.
  destruct (Qeq_bool x 0) eqn:Ex.
  - apply Qeq_bool_iff in Ex.
    assert (Qeq_bool y 0 = true) as -> by (apply Qeq_bool_iff; lra).
    done.
  - assert (~ x == 0) as Hx by (rewrite <- Qeq_bool_iff; congruence).
    assert (Qeq_bool y 0 = false) as ->.
    { destruct (Qeq_bool y 0) eqn:Ey; [|done].
      apply Qeq_bool_iff in Ey. exfalso. apply Hx. lra. }
    apply Qred_complete.
    rewrite <- (ulpExp_comp x y Hx E).
    rewrite (roundHalfEven_comp (x / pow2 (ulpExp x)) (y / pow2 (ulpExp x)));
      [reflexivity|].
    unfold Qdiv. apply Qmult_comp; [exact E|reflexivity].
Qed.

Lemma ulpExp_opp x : ~ x == 0 -> ulpExp (- x) = ulpExp x.
Proof.
  intros Hx. unfold ulpExp.
  rewrite (ilog2_comp (Qabs (- x)) (Qabs x)); [done| |apply Qabs_opp].
  apply Qabs_nonzero. lra.
Qed.

Lemma double_opp x : double (- x) == - double x.
Proof.
  destruct (Qeq_dec x 0) as [E|E].
  - rewrite (double_comp (- x) 0), (double_comp x 0) by lra. reflexivity.
  - rewrite !double_eq by lra. rewrite ulpExp_opp by done.
    rewrite (roundHalfEven_comp (- x / pow2 (ulpExp x)) (- (x / pow2 (ulpExp x)))).
    + rewrite roundHalfEven_opp, inject_Z_opp. ring.
    + pose proof (pow2_pos (ulpExp x)). field. lra.
Qed.

(** The powers of two from the unit in the last place up are on the grid
    of the doubles around [x]: rounding does not cross them. *)
Lemma double_grid x k :
  ~ x == 0 -> (ulpExp x <= k)%Z ->
  (x <= pow2 k -> double x <= pow2 k) /\ (pow2 k <= x -> pow2 k <= double x).
Proof.
  intros Hx Hk.
  pose proof (pow2_pos (ulpExp x)) as Hq.
  assert (pow2 k == inject_Z (2 ^ (k - ulpExp x)) * pow2 (ulpExp x)) as Ek.
  { rewrite <- pow2_Z by lia. rewrite <- pow2_add. f_equiv. lia. }
  rewrite double_eq by done.
  set (q := pow2 (ulpExp x)) in *. set (N := (2 ^ (k - ulpExp x))%Z) in *.
  split; intros H.
  - assert (x / q <= inject_Z N) as H'.
    { apply Qle_shift_div_r; [done|]. by rewrite <- Ek. }
    apply roundHalfEven_le in H'. rewrite roundHalfEven_Z in H'.
    rewrite Ek. apply Qmult_le_compat_r; [|lra]. by rewrite <- Zle_Qle.
  - assert (inject_Z N <= x / q) as H'.
    { apply Qle_shift_div_l; [done|]. by rewrite <- Ek. }
    apply roundHalfEven_le in H'. rewrite roundHalfEven_Z in H'.
    rewrite Ek. apply Qmult_le_compat_r; [|lra]. by rewrite <- Zle_Qle.
Qed.

Lemma double_nonneg x : 0 <= x -> 0 <= double x.
Proof.
  intros Hx. destruct (Qeq_dec x 0) as [E|E].
  - rewrite (double_comp x 0) by done. rewrite double_0. lra.
  - rewrite double_eq by done.
    pose proof (pow2_pos (ulpExp x)) as Hq.
    assert (0 <= x / pow2 (ulpExp x)) as H.
    { apply Qle_shift_div_l; [done|]. lra. }
    apply (roundHalfEven_le (inject_Z 0)) in H. rewrite roundHalfEven_Z in H.
    apply Qmult_le_0_compat; [|lra].
    change 0 with (inject_Z 0). by rewrite <- Zle_Qle.
Qed.

Lemma double_le_pos x y : 0 < x -> x <= y -> double x <= double y.
Proof.
  intros Hx Hxy.
  assert (~ x == 0) as Hx0 by lra. assert (~ y == 0) as Hy0 by lra.
  assert (Qabs x == x) as Eax by (apply Qabs_pos; lra).
  assert (Qabs y == y) as Eay by (apply Qabs_pos; lra).
  assert (ilog2 (Qabs x) = ilog2 x) as Eix by (apply ilog2_comp; lra).
  assert (ilog2 (Qabs y) = ilog2 y) as Eiy by (apply ilog2_comp; lra).
  pose proof (ilog2_le x y Hx Hxy) as Hle.
  destruct (ilog2_spec x Hx) as [Hx1 Hx2].
  destruct (ilog2_spec y ltac:(lra)) as [Hy1 Hy2].
  destruct (Z.eq_dec (ulpExp x) (ulpExp y))%Z as [E|E].
  - rewrite !double_eq by done. rewrite <- E.
    pose proof (pow2_pos (ulpExp x)) as Hq.
    apply Qmult_le_compat_r; [|lra]. rewrite <- Zle_Qle.
    apply roundHalfEven_le. apply Qmult_le_compat_r; [done|].
    apply Qinv_le_0_compat. lra.
  - assert (ulpExp x < ulpExp y)%Z as Hlt by (unfold ulpExp in *; lia).
    assert (ulpExp y = ilog2 y - 52)%Z as Eqy by (unfold ulpExp in *; lia).
    assert (ilog2 x + 1 <= ilog2 y)%Z as Hexy by (unfold ulpExp in *; lia).
    apply Qle_trans with (pow2 (ilog2 y)).
    + apply (double_grid x (ilog2 y)); [done|lia|].
      apply Qle_trans with (pow2 (ilog2 x + 1)); [lra|by apply pow2_le].
    + apply (double_grid y (ilog2 y)); [done|lia|done].
Qed.

(** Rounding to a double keeps the order. *)
Lemma double_le x y : x <= y -> double x <= double y.
Proof.
  intros Hxy.
  destruct (Qlt_le_dec 0 x) as [Hx|Hx]; [by apply double_le_pos|].
  destruct (Qlt_le_dec y 0) as [Hy|Hy].
  - assert (double (- y) <= double (- x)) as H by (apply double_le_pos; lra).
    rewrite !double_opp in H. lra.
  - pose proof (double_nonneg y Hy).
    assert (0 <= double (- x)) as H' by (apply double_nonneg; lra).
    rewrite double_opp in H'. lra.
Qed.

(** The double of [x] is a multiple of the unit in the last place of [x],
    at most half a unit away from [x]; when [x] is half-way, the even
    multiple. *)
Lemma double_spec x :
  ~ x == 0 ->
  exists m : Z,
    double x == inject_Z m * pow2 (ulpExp x)
    /\ Qabs (double x - x) <= (1 # 2) * pow2 (ulpExp x)
    /\ (Qabs (double x - x) == (1 # 2) * pow2 (ulpExp x) -> Z.even m = true).
Proof.
  intros Hx. exists (roundHalfEven (x / pow2 (ulpExp x))).
  split; [by apply double_eq|].
  rewrite double_eq by done.
  pose proof (pow2_pos (ulpExp x)) as Hq.
  destruct (roundHalfEven_spec (x / pow2 (ulpExp x))) as (H1 & H2 & H3).
  set (n := roundHalfEven (x / pow2 (ulpExp x))) in *.
  set (q := pow2 (ulpExp x)) in *.
  assert (x == (x / q) * q) as Ex by (field; lra).
  set (r := x / q) in *.
  assert (inject_Z n * q - x == (inject_Z n - r) * q) as E by (rewrite Ex at 1; ring).
  assert ((inject_Z n - r) * q <= (1 # 2) * q) as Hu
    by (apply Qmult_le_compat_r; lra).
  assert ((r - inject_Z n) * q <= (1 # 2) * q) as Hl
    by (apply Qmult_le_compat_r; lra).
  assert (- ((inject_Z n - r) * q) == (r - inject_Z n) * q) as Eo by ring.
  clearbody r. clearbody n q.
  split.
  - rewrite E. apply Qabs_case; intros _; lra.
  - intros Hh. apply H3. rewrite E in Hh.
    revert Hh. apply Qabs_case; intros _ Hh.
    + left. assert ((inject_Z n - r - (1 # 2)) * q == 0) as Hz.
      { transitivity ((inject_Z n - r) * q - (1 # 2) * q); [ring|lra]. }
      apply Qmult_integral in Hz as [Hz|Hz]; lra.
    + right. assert ((r - inject_Z n - (1 # 2)) * q == 0) as Hz.
      { transitivity ((r - inject_Z n) * q - (1 # 2) * q); [ring|lra]. }
      apply Qmult_integral in Hz as [Hz|Hz]; lra.
Qed.

(** The integers up to 2^53 are doubles. *)
(** Below 2^27 a double is within 2^-27 of what it rounds. *)
Lemma double_near x :
  Qabs x < pow2 27 -> Qabs (double x - x) <= pow2 (-27).
Proof.
  intros Hx.
  destruct (Qeq_dec x 0) as [E|Hne].
  { rewrite (double_comp x 0 E), double_0.
    assert (0 - x == 0) as -> by (rewrite E; ring).
    pose proof (pow2_pos (-27)) as Hp.
    change (Qabs 0) with 0. lra. }
  destruct (double_spec x Hne) as (m & _ & Herr & _).
  assert (ulpExp x <= -26)%Z as Hu.
  { unfold ulpExp.
    pose proof (Qabs_nonzero x Hne) as Hpos.
    destruct (ilog2_spec _ Hpos) as [H1 _].
    assert (ilog2 (Qabs x) < 27)%Z.
    { destruct (Z_lt_le_dec (ilog2 (Qabs x)) 27) as [|Hge]; [done|].
      apply pow2_le in Hge. lra. }
    lia. }
  apply pow2_le in Hu.
  assert (pow2 (-27) == (1 # 2) * pow2 (-26)) as -> by reflexivity.
  lra.
Qed.

Lemma double_integer z :
  (Z.abs z <= 2 ^ 53)%Z -> double (inject_Z z) == inject_Z z.
Proof.
  assert (forall z, (0 < z <= 2 ^ 53)%Z -> double (inject_Z z) == inject_Z z) as Hpos.
  { clear z. intros z [Hz1 Hz2].
    destruct (Z.eq_dec z (2 ^ 53))%Z as [->|Hne]; [by vm_compute|].
    assert (0 < inject_Z z) as Hx by (change 0 with (inject_Z 0); by rewrite <- Zlt_Qlt).
    assert (~ inject_Z z == 0) as Hx0 by lra.
    destruct (ilog2_spec _ Hx) as [H1 H2].
    assert (Qabs (inject_Z z) == inject_Z z) as Ea by (apply Qabs_pos; lra).
    assert (ilog2 (Qabs (inject_Z z)) = ilog2 (inject_Z z)) as Ei
      by (apply ilog2_comp; lra).
    set (e := ilog2 (inject_Z z)) in *.
    assert (0 <= e)%Z as He0.
    { assert (pow2 0 < pow2 (e + 1)) as H.
      { eapply Qle_lt_trans; [|exact H2]. change (pow2 0) with (inject_Z 1).
        rewrite <- Zle_Qle. lia. }
      assert (0 <= e + 1)%Z by (apply pow2_le_inv; lra).
      destruct (Z.eq_dec (e + 1) 0)%Z as [E|E]; [|lia].
      rewrite E in H. by apply Qlt_irrefl in H. }
    assert (e <= 52)%Z as He1.
    { assert (pow2 e < pow2 53) as H.
      { eapply Qle_lt_trans; [exact H1|]. rewrite (pow2_Z 53) by lia.
        rewrite <- Zlt_Qlt. lia. }
      assert (e <= 53)%Z by (apply pow2_le_inv; lra).
      destruct (Z.eq_dec e 53)%Z as [E|E]; [|lia].
      rewrite E in H. by apply Qlt_irrefl in H. }
    assert (ulpExp (inject_Z z) = e - 52)%Z as Eq by (unfold ulpExp; lia).
    rewrite double_eq by done. rewrite Eq.
    pose proof (pow2_pos (e - 52)) as Hq.
    assert (pow2 (e - 52) * pow2 (52 - e) == 1) as Einv.
    { rewrite <- pow2_add. replace (e - 52 + (52 - e))%Z with 0%Z by lia.
      reflexivity. }
    assert (inject_Z z / pow2 (e - 52) == inject_Z (z * 2 ^ (52 - e))) as Ediv.
    { rewrite inject_Z_mult, <- pow2_Z by lia.
      apply Qmult_inj_r with (pow2 (e - 52)); [lra|].
      rewrite <- Qmult_assoc, (Qmult_comm (pow2 (52 - e))), Einv.
      field. lra. }
    rewrite (roundHalfEven_comp _ _ Ediv), roundHalfEven_Z.
    rewrite inject_Z_mult, <- pow2_Z by lia.
    rewrite <- Qmult_assoc, (Qmult_comm (pow2 (52 - e))), Einv. ring. }
  intros Hz. destruct (Z.lt_trichotomy z 0) as [Hn|[->|Hp]].
  - assert (double (inject_Z (- z)) == inject_Z (- z)) as H by (apply Hpos; lia).
    rewrite inject_Z_opp, double_opp in H. lra.
  - by vm_compute.
  - apply Hpos. lia.
Qed.

(** *** [Math.round] *)

(** [Math.round] gives the nearest integer, a half going up. *)
Lemma Math_ceil_unique (y : Q) (n : Z) :
  inject_Z (n - 1) < y -> y <= inject_Z n -> Math_ceil y = n.
Proof.
  intros H1 H2. unfold Math_ceil.
  pose proof (Qle_ceiling y) as H3. pose proof (Qceiling_lt y) as H4.
  assert (inject_Z (n - 1) < inject_Z (Qceiling y)) as H5 by lra.
  assert (inject_Z (Qceiling y - 1) < inject_Z n) as H6 by lra.
  rewrite <- Zlt_Qlt in H5, H6. lia.
Qed.

Lemma Math_ceil_le (y : Q) (n : Z) : (Math_ceil y <= n)%Z <-> y <= inject_Z n.
Proof.
  unfold Math_ceil.
  pose proof (Qle_ceiling y) as H3. pose proof (Qceiling_lt y) as H4.
  split; intros H.
  - rewrite Zle_Qle in H. lra.
  - assert (inject_Z (Qceiling y - 1) < inject_Z n) as H6 by lra.
    rewrite <- Zlt_Qlt in H6. lia.
Qed.

Lemma Math_round_spec x :
  inject_Z (Math_round x) - (1 # 2) <= x /\ x < inject_Z (Math_round x) + (1 # 2).
Proof.
  unfold Math_round.
  pose proof (Qfloor_le (x + (1 # 2))) as Hl.
  pose proof (Qlt_floor (x + (1 # 2))) as Hu.
  rewrite inject_Z_plus in Hu. change (inject_Z 1) with 1 in Hu.
  lra.
Qed.

Lemma Math_round_unique x n :
  inject_Z n - (1 # 2) <= x -> x < inject_Z n + (1 # 2) -> Math_round x = n.
Proof.
  intros H1 H2. destruct (Math_round_spec x) as [H3 H4].
  set (m := Math_round x) in *.
  assert (inject_Z m < inject_Z (n + 1)) as Ha
    by (rewrite inject_Z_plus; change (inject_Z 1) with 1; lra).
  assert (inject_Z n < inject_Z (m + 1)) as Hb
    by (rewrite inject_Z_plus; change (inject_Z 1) with 1; lra).
  rewrite <- Zlt_Qlt in Ha, Hb. lia.
Qed.

Lemma Math_round_Z n : Math_round (inject_Z n) = n.
Proof. apply Math_round_unique; lra. Qed.

(** The sum of two whole numbers is exact up to 2^53. *)
Lemma addInt_exact a b : (Z.abs (a + b) <= 2 ^ 53)%Z -> addInt a b = (a + b)%Z.
Proof.
  intros H. unfold addInt.
  rewrite (Qfloor_comp _ _ (double_integer _ H)). apply Qfloor_Z.
Qed.


Lemma addInt_beyond : addInt (2 ^ 53) 1 = (2 ^ 53)%Z.
Proof. by vm_compute. Qed.

(** The operations do not depend on the fraction that stands for a
    number. *)
Lemma add_comp x x' y y' : x == x' -> y == y' -> add x y = add x' y'.
Proof. intros Hx Hy. apply double_comp. by rewrite Hx, Hy. Qed.


Lemma div_comp x x' y y' : x == x' -> y == y' -> div x y = div x' y'.
Proof. intros Hx Hy. apply double_comp. by rewrite Hx, Hy. Qed.

(** Sums of tenths, as the language computes them:
    0.1 + 0.2 is 0.30000000000000004. *)
Lemma add_tenths :
  add (double (1 # 10)) (double (2 # 10))
  = 1351079888211149 # 4503599627370496.
Proof. by vm_compute. Qed.

Lemma div_third : div 1 3 = 6004799503160661 # 18014398509481984.
Proof. by vm_compute. Qed.

End DoubleFacts.

(** * Properties of the stock ledger and of billing *)

Module LedgerFacts.
Import Ledger LedgerSpec StoreService.
Local Open Scope Z_scope.

(** The entry found by [findByMedID] splits the ledger around itself. *)
Lemma findByMedID_Some m ledger i e :
  findByMedID m ledger = Some (i, e) ->
  exists before after,
    ledger = before ++ e :: after /\ length before = i /\
    hasMedID m e /\ Forall (fun x => ~ hasMedID m x) before.
Proof.
  unfold findByMedID. intros H.
  apply list_find_Some in H as (Hi & He & Hbefore).
  exists (take i ledger), (drop (S i) ledger).
  split; [symmetry; by apply take_drop_middle|].
  split; [apply length_take_le; apply lookup_lt_Some in Hi; lia|].
  split; [exact He|].
  apply Forall_forall. intros x Hx.
  apply list_elem_of_lookup in Hx as [j Hj].
  pose proof (lookup_lt_Some _ _ _ Hj) as Hlt. rewrite length_take in Hlt.
  rewrite lookup_take_lt in Hj by lia.
  apply (Hbefore j x Hj). lia.
Qed.

Lemma findByMedID_None m ledger :
  findByMedID m ledger = None <-> Forall (fun x => ~ hasMedID m x) ledger.
Proof. unfold findByMedID. apply list_find_None. Qed.

Lemma findByMedID_app m before e after :
  Forall (fun x => ~ hasMedID m x) before -> hasMedID m e ->
  findByMedID m (before ++ e :: after) = Some (length before, e).
Proof.
  intros Hb He. unfold findByMedID. apply list_find_Some.
  split; [by rewrite list_lookup_middle|].
  split; [exact He|].
  intros j y Hj Hlt. rewrite lookup_app_l in Hj by lia.
  rewrite Forall_forall in Hb. apply Hb. apply list_elem_of_lookup. eauto.
Qed.

Lemma delete_middle {A} (before after : list A) x :
  delete (length before) (before ++ x :: after) = before ++ after.
Proof. induction before; simpl; [done|]. by f_equal. Qed.

Lemma insert_middle {A} (before after : list A) x y :
  <[length before := y]> (before ++ x :: after) = before ++ y :: after.
Proof. induction before; simpl; [done|]. by f_equal. Qed.


Lemma entriesFor_app m l1 l2 :
  entriesFor m (l1 ++ l2) = entriesFor m l1 ++ entriesFor m l2.
Proof. apply filter_app. Qed.

Lemma sumQuantity_app l1 l2 :
  sumQuantity (l1 ++ l2) = sumQuantity l1 + sumQuantity l2.
Proof. induction l1; simpl; lia. Qed.

Lemma deductLine_Ok ledger p ledger' :
  deductLine ledger p = Ok ledger' -> lineStep ledger p ledger'.
Proof.
  unfold deductLine. intros H.
  destruct (findByMedID _ ledger) as [[i e]|] eqn:Hfind; [|done].
  apply findByMedID_Some in Hfind as (before & after & -> & <- & He & Hb).
  destruct (quantity e <? p_quantity p) eqn:Hlt; [done|].
  apply Z.ltb_ge in Hlt. simpl in H.
  destruct (quantity e - p_quantity p <=? 0) eqn:Hz; injection H as <-.
  - apply Z.leb_le in Hz. rewrite delete_middle.
    eapply step_remove; eauto. lia.
  - apply Z.leb_gt in Hz. rewrite insert_middle.
    eapply step_reduce; eauto.
Qed.



(** A failing [createBilling] leaves the database as it was. *)
Lemma createBilling_Throw_unchanged now newId db email bd e db' :
  createBilling now newId db email bd = (Throw e, db') -> db' = db.
Proof.
  unfold createBilling. destruct (db !! toLowerCase email); [|congruence].
  destruct (billingTransaction _ _ _ _) as [[? ?]|]; congruence.
Qed.


(** *** Conservation *)

Lemma sumQuantity_with_quantity e q rest :
  sumQuantity (with_quantity e q :: rest) = q + sumQuantity rest.
Proof. done. Qed.

Lemma entriesFor_cons_True m e l :
  hasMedID m e -> entriesFor m (e :: l) = e :: entriesFor m l.
Proof. intros. unfold entriesFor. by rewrite filter_cons_True. Qed.

Lemma entriesFor_cons_False m e l :
  ~ hasMedID m e -> entriesFor m (e :: l) = entriesFor m l.
Proof. intros. unfold entriesFor. by rewrite filter_cons_False. Qed.

Lemma hasMedID_with_quantity m e q :
  hasMedID m (with_quantity e q) <-> hasMedID m e.
Proof. done. Qed.












(** *** Two lines for one medicine *)







(** *** Matching policy *)

Lemma findByMedIDAndBatch_Some m b ledger i e :
  findByMedIDAndBatch m b ledger = Some (i, e) ->
  ledger !! i = Some e /\ hasMedID m e /\ batchNumber e = b.
Proof.
  unfold findByMedIDAndBatch. intros H.
  apply list_find_Some in H as (Hi & [He Hb] & _). done.
Qed.

(** C4 (amended). Without a batch number [addToStock] merges into the
    entry the deduct paths locate, the first one carrying the medicine
    identifier. With a batch number it merges into the first entry carrying
    both the identifier and the batch, while [createBilling] and
    [removeFromStock] still locate the first entry carrying the identifier:
    the two are the same entry exactly when that first entry has the given
    batch, and otherwise the deduct paths locate an earlier entry. *)
Theorem matching_policy (medicineData : MedicineData) (ledger : list StockEntry) :
  (truthy_string (md_batchNumber medicineData) = false ->
   addMatch medicineData ledger = findByMedID (md_medID medicineData) ledger)
  /\ (truthy_string (md_batchNumber medicineData) = true ->
      forall j e,
        findByMedID (md_medID medicineData) ledger = Some (j, e) ->
        (addMatch medicineData ledger = Some (j, e)
         <-> Some (batchNumber e) = md_batchNumber medicineData))
  /\ (forall i e,
        addMatch medicineData ledger = Some (i, e) ->
        exists j e', findByMedID (md_medID medicineData) ledger = Some (j, e')
                     /\ (j <= i)%nat).
Proof.
  unfold addMatch.
  destruct (truthy_string (md_batchNumber medicineData)) eqn:Hb.
  - split; [done|].
    destruct (md_batchNumber medicineData) as [b|] eqn:Hbatch; [|done]. simpl.
    split.
    + intros _ j e Hfind. split.
      * intros Hadd. apply findByMedIDAndBatch_Some in Hadd as (_ & _ & ->). done.
      * intros [= Heq]. unfold findByMedIDAndBatch, findByMedID in *.
        apply list_find_Some in Hfind as (Hj & He & Hbefore).
        apply list_find_Some. split; [done|]. split; [done|].
        intros k y Hk Hlt [Hy _]. by apply (Hbefore k y).
    + intros i e Hadd.
      apply findByMedIDAndBatch_Some in Hadd as (Hi & He & _).
      destruct (findByMedID (md_medID medicineData) ledger) as [[j e']|] eqn:Hfind.
      * exists j, e'. split; [done|].
        unfold findByMedID in Hfind.
        apply list_find_Some in Hfind as (_ & _ & Hbefore).
        destruct (decide (j <= i)%nat) as [|Hgt]; [done|].
        exfalso. apply (Hbefore i e Hi); [lia|exact He].
      * apply findByMedID_None in Hfind. rewrite Forall_forall in Hfind.
        exfalso. apply (Hfind e); [|exact He].
        apply list_elem_of_lookup. eauto.
  - split; [done|]. split; [done|]. intros i e Hadd. exists i, e. split; [done|lia].
Qed.

End LedgerFacts.

(** * Properties of the date functions *)

Module DateFacts.
Import JSDate.
Local Open Scope Z_scope.

Lemma DayFromYear_succ y : DayFromYear (y + 1) = DayFromYear y + DaysInYear y.
Proof.
  unfold DayFromYear, DaysInYear.
  destruct (Z.eqb_spec (y mod 4) 0), (Z.eqb_spec (y mod 100) 0),
    (Z.eqb_spec (y mod 400) 0); simpl; Z.div_mod_to_equations; lia.
Qed.

Lemma DaysInYear_cases y : DaysInYear y = 365 \/ DaysInYear y = 366.
Proof.
  unfold DaysInYear.
  repeat (match goal with |- context [if ?b then _ else _] => destruct b end);
    auto.
Qed.

Lemma YearFromDay_spec d :
  DayFromYear (YearFromDay d) <= d < DayFromYear (YearFromDay d + 1).
Proof.
  unfold YearFromDay.
  set (y := 1970 + 400 * d / 146097).
  destruct (Z.leb_spec (DayFromYear (y + 1)) d) as [H1|H1].
  - split; [done|]. 
    replace (y + 1 + 1) with (y + 2) by lia.
    subst y. unfold DayFromYear in *. Z.div_mod_to_equations. lia.
  - destruct (Z.ltb_spec d (DayFromYear y)) as [H2|H2].
    + replace (y - 1 + 1) with y by lia. split; [|done].
      subst y. unfold DayFromYear in *. Z.div_mod_to_equations. lia.
    + done.
Qed.

Lemma monthOfYearDay_range d leap : 0 <= monthOfYearDay d leap <= 11.
Proof.
  unfold monthOfYearDay.
  repeat (match goal with |- context [if ?b then _ else _] => destruct b end);
    lia.
Qed.

Lemma MonthFromTime_range t : 0 <= MonthFromTime t <= 11.
Proof. apply monthOfYearDay_range. Qed.

Lemma MakeDay_in_year y m date :
  0 <= m <= 11 ->
  MakeDay y m date
  = DayFromYear y + monthStart m (if DaysInYear y =? 366 then 1 else 0) + date - 1.
Proof.
  intros Hm. unfold MakeDay.
  rewrite (Z.div_small m 12), (Z.mod_small m 12) by lia.
  by rewrite Z.add_0_r.
Qed.

(** The day number of a time value, from its year, month and date. *)
Lemma MakeDay_of_time t k :
  MakeDay (YearFromTime t) (MonthFromTime t) (DateFromTime t + k) = Day t + k.
Proof.
  rewrite MakeDay_in_year by apply MonthFromTime_range.
  unfold DateFromTime, DayWithinYear, InLeapYear. lia.
Qed.

Lemma Day_TimeWithinDay t : Day t * msPerDay + TimeWithinDay t = t.
Proof.
  unfold Day, TimeWithinDay.
  pose proof (Z.div_mod t msPerDay). unfold msPerDay in *. lia.
Qed.

Lemma TimeWithinDay_range t : 0 <= TimeWithinDay t < msPerDay.
Proof. apply Z.mod_pos_bound. unfold msPerDay. lia. Qed.

Section Zone.
Variable zone : Z -> bool -> Z.

(** [d.setDate(d.getDate() + k)] moves the local reading by [k] whole
    days. *)
Lemma setDate_shift t k :
  setDate zone t (getDate zone t + k)
  = UTC zone (LocalTime zone t + k * msPerDay).
Proof.
  unfold setDate, getDate, MakeDate.
  rewrite MakeDay_of_time. f_equal.
  pose proof (Day_TimeWithinDay (LocalTime zone t)). lia.
Qed.

Lemma setDate_back t k :
  setDate zone t (getDate zone t - k)
  = UTC zone (LocalTime zone t - k * msPerDay).
Proof.
  replace (getDate zone t - k) with (getDate zone t + - k) by lia.
  rewrite setDate_shift. f_equal. lia.
Qed.

Lemma setHours_eq t h m s ms :
  setHours zone t h m s ms
  = UTC zone (Day (LocalTime zone t) * msPerDay + MakeTime h m s ms).
Proof. reflexivity. Qed.

Lemma daysInMonthOf_range t : 28 <= daysInMonthOf zone t <= 31.
Proof.
  unfold daysInMonthOf, InLeapYear.
  destruct (_ =? 366);
    repeat (match goal with |- context [match ?m with _ => _ end] =>
              destruct m end); lia.
Qed.

(** [d.setMonth(d.getMonth() + 1)] moves the local reading by the length
    of its month. *)
Lemma setMonth_next t :
  setMonth zone t (getMonth zone t + 1)
  = UTC zone (LocalTime zone t + daysInMonthOf zone t * msPerDay).
Proof.
  unfold setMonth, getMonth, daysInMonthOf, MakeDate.
  set (lt := LocalTime zone t).
  pose proof (Day_TimeWithinDay lt) as Hlt.
  assert (MakeDay (YearFromTime lt) (MonthFromTime lt + 1) (DateFromTime lt)
          = Day lt + match MonthFromTime lt with
                     | 1 => 28 + InLeapYear lt
                     | 3 | 5 | 8 | 10 => 30
                     | _ => 31
                     end) as ->.
  { pose proof (MakeDay_of_time lt 0) as H0. rewrite !Z.add_0_r in H0.
    rewrite <- H0. clear H0 Hlt.
    pose proof (MonthFromTime_range lt) as Hm.
    destruct (Z.eq_dec (MonthFromTime lt) 11) as [H11|H11].
    - rewrite H11. rewrite (MakeDay_in_year _ 11) by lia.
      unfold MakeDay. change ((11 + 1) / 12) with 1.
      change ((11 + 1) mod 12) with 0.
      rewrite DayFromYear_succ. unfold monthStart.
      pose proof (DaysInYear_cases (YearFromTime lt)) as Hy.
      destruct (Z.eqb_spec (DaysInYear (YearFromTime lt)) 366); lia.
    - rewrite !MakeDay_in_year by lia. unfold InLeapYear.
      destruct (DaysInYear (YearFromTime lt) =? 366);
        assert (MonthFromTime lt = 0 \/ MonthFromTime lt = 1 \/
                MonthFromTime lt = 2 \/ MonthFromTime lt = 3 \/
                MonthFromTime lt = 4 \/ MonthFromTime lt = 5 \/
                MonthFromTime lt = 6 \/ MonthFromTime lt = 7 \/
                MonthFromTime lt = 8 \/ MonthFromTime lt = 9 \/
                MonthFromTime lt = 10) as Hcases by lia;
        repeat (destruct Hcases as [->|Hcases]; [simpl; lia|]);
        rewrite Hcases; simpl; lia. }
  f_equal. lia.
Qed.

End Zone.

(** *** Zones without clock changes *)

Section Fixed.
Variable zone : Z -> bool -> Z.
Variable offset : Z.
Hypothesis fixed : forall t b, zone t b = offset.

Lemma LocalTime_fixed t : LocalTime zone t = t + offset.
Proof. unfold LocalTime. by rewrite fixed. Qed.

Lemma UTC_fixed t : UTC zone t = t - offset.
Proof. unfold UTC. by rewrite fixed. Qed.

(** Without clock changes a calendar day is 24 hours. *)
Lemma setDate_shift_fixed t k :
  setDate zone t (getDate zone t + k) = t + k * msPerDay.
Proof. rewrite setDate_shift, UTC_fixed, LocalTime_fixed. lia. Qed.

Lemma setDate_back_fixed t k :
  setDate zone t (getDate zone t - k) = t - k * msPerDay.
Proof. rewrite setDate_back, UTC_fixed, LocalTime_fixed. lia. Qed.

Lemma setHours_fixed t h m s ms :
  setHours zone t h m s ms
  = Day (t + offset) * msPerDay + MakeTime h m s ms - offset.
Proof. rewrite setHours_eq, UTC_fixed, LocalTime_fixed. done. Qed.

Lemma setMonth_next_fixed t :
  setMonth zone t (getMonth zone t + 1) = t + daysInMonthOf zone t * msPerDay.
Proof. rewrite setMonth_next, UTC_fixed, LocalTime_fixed. lia. Qed.

End Fixed.

End DateFacts.

(** * Properties of the printed dates and of the cache keys *)

Module IsoFacts.
Import JSDate Analytics AnalyticsSpec DateFacts.
Local Open Scope Z_scope.

(** *** Numbers printed with a fixed number of digits *)

Lemma printsIn_2 : forallb (printsIn 2) (seqZ 0 100) = true.
Proof. by vm_compute. Qed.

Lemma printsIn_3 : forallb (printsIn 3) (seqZ 0 1000) = true.
Proof. by vm_compute. Qed.

Lemma printsIn_4 : forallb (printsIn 4) (seqZ 0 10000) = true.
Proof. by vm_compute. Qed.

Lemma printsIn_table width bound n :
  forallb (printsIn width) (seqZ 0 bound) = true ->
  0 <= n < bound ->
  readDecimal (padStart0 width (toString n)) = n
  /\ String.length (padStart0 width (toString n)) = width.
Proof.
  intros Htable Hn.
  assert (printsIn width n = true) as H.
  { eapply forallb_forall in Htable; [exact Htable|].
    apply list_elem_of_In, elem_of_seqZ. lia. }
  unfold printsIn in H. apply andb_prop in H as [H1 H2].
  split; [by apply Z.eqb_eq|by apply Nat.eqb_eq].
Qed.

(** Two numbers printed with the same number of digits, followed by
    anything, are told apart by what is printed. *)
Lemma append_cons c (a b : string) : String c a +:+ b = String c (a +:+ b).
Proof. reflexivity. Qed.

Lemma append_nil (b : string) : "" +:+ b = b.
Proof. reflexivity. Qed.

Lemma append_assoc (a b c : string) : (a +:+ b) +:+ c = a +:+ (b +:+ c).
Proof.
  induction a as [|x a IH]; rewrite ?append_cons, ?append_nil; [done|].
  by rewrite IH.
Qed.

Lemma append_inj (a1 a2 b1 b2 : string) :
  String.length a1 = String.length a2 ->
  a1 +:+ b1 = a2 +:+ b2 -> a1 = a2 /\ b1 = b2.
Proof.
  revert a2. induction a1 as [|c a1 IH]; intros [|c2 a2] Hlen H;
    rewrite ?append_cons, ?append_nil in H; simpl in Hlen; try done.
  injection H as -> H. injection Hlen as Hlen.
  destruct (IH a2 Hlen H) as [-> ->]. done.
Qed.

Lemma append_length (a b : string) :
  String.length (a +:+ b) = (String.length a + String.length b)%nat.
Proof.
  induction a as [|c a IH]; rewrite ?append_cons, ?append_nil; simpl; [done|].
  by rewrite IH.
Qed.

Lemma append_empty (a : string) : a +:+ "" = a.
Proof.
  induction a as [|c a IH]; rewrite ?append_cons, ?append_nil; [done|].
  by rewrite IH.
Qed.

Lemma padded_inj width bound n m (rest1 rest2 : string) :
  forallb (printsIn width) (seqZ 0 bound) = true ->
  0 <= n < bound -> 0 <= m < bound ->
  padStart0 width (toString n) +:+ rest1
  = padStart0 width (toString m) +:+ rest2 ->
  n = m /\ rest1 = rest2.
Proof.
  intros Htable Hn Hm H.
  destruct (printsIn_table width bound n Htable Hn) as [Hn1 Hn2].
  destruct (printsIn_table width bound m Htable Hm) as [Hm1 Hm2].
  apply append_inj in H as [H ->]; [|congruence].
  split; [|done]. rewrite <- Hn1, <- Hm1. by rewrite H.
Qed.

(** *** The fields of a date *)

Lemma DayWithinYear_range t :
  0 <= DayWithinYear t < 365 + InLeapYear t.
Proof.
  unfold DayWithinYear, InLeapYear, YearFromTime.
  pose proof (YearFromDay_spec (Day t)) as H.
  rewrite DayFromYear_succ in H.
  pose proof (DaysInYear_cases (YearFromDay (Day t))) as Hy.
  destruct (Z.eqb_spec (DaysInYear (YearFromDay (Day t))) 366); lia.
Qed.

Lemma DateFromTime_range t : 1 <= DateFromTime t <= 31.
Proof.
  unfold DateFromTime, MonthFromTime, monthOfYearDay.
  pose proof (DayWithinYear_range t) as Hd.
  assert (InLeapYear t = 0 \/ InLeapYear t = 1) as [Hl|Hl]
    by (unfold InLeapYear; destruct (_ =? 366); auto);
    rewrite Hl in *;
    repeat (match goal with |- context [if ?a <? ?b then _ else _] =>
              destruct (Z.ltb_spec a b); [simpl; lia|] end); simpl; lia.
Qed.

(** A time value is made of its date and time fields. *)
Lemma time_of_fields t :
  t = MakeDay (YearFromTime t) (MonthFromTime t) (DateFromTime t) * msPerDay
      + HourFromTime t * msPerHour + MinFromTime t * msPerMinute
      + SecFromTime t * msPerSecond + msFromTime t.
Proof.
  pose proof (MakeDay_of_time t 0) as H. rewrite !Z.add_0_r in H. rewrite H.
  unfold Day, HourFromTime, MinFromTime, SecFromTime, msFromTime,
    msPerDay, msPerHour, msPerMinute, msPerSecond.
  Z.div_mod_to_equations. lia.
Qed.

(** *** ISO strings *)

(** Instants in the years 0 to 9999 are told apart by their ISO string. *)
Lemma toISOString_inj t1 t2 (rest1 rest2 : string) :
  fourDigitYear t1 -> fourDigitYear t2 ->
  toISOString t1 +:+ rest1 = toISOString t2 +:+ rest2 ->
  t1 = t2 /\ rest1 = rest2.
Proof.
  intros Hy1 Hy2 H. unfold fourDigitYear in *.
  unfold toISOString, isoYear in H.
  destruct (Z.leb_spec 0 (YearFromTime t1)); [|lia].
  destruct (Z.leb_spec (YearFromTime t1) 9999); [|lia].
  destruct (Z.leb_spec 0 (YearFromTime t2)); [|lia].
  destruct (Z.leb_spec (YearFromTime t2) 9999); [|lia].
  cbn [andb] in H.
  pose proof (MonthFromTime_range t1). pose proof (MonthFromTime_range t2).
  pose proof (DateFromTime_range t1). pose proof (DateFromTime_range t2).
  assert (forall t, 0 <= HourFromTime t < 100) as Hh.
  { intros t. unfold HourFromTime.
    pose proof (Z.mod_pos_bound (t / msPerHour) 24). lia. }
  assert (forall t, 0 <= MinFromTime t < 100) as Hmi.
  { intros t. unfold MinFromTime.
    pose proof (Z.mod_pos_bound (t / msPerMinute) 60). lia. }
  assert (forall t, 0 <= SecFromTime t < 100) as Hs.
  { intros t. unfold SecFromTime.
    pose proof (Z.mod_pos_bound (t / msPerSecond) 60). lia. }
  assert (forall t, 0 <= msFromTime t < 1000) as Hms.
  { intros t. unfold msFromTime, msPerSecond.
    pose proof (Z.mod_pos_bound t 1000). lia. }
  rewrite !append_assoc in H.
  apply (padded_inj 4 10000) in H as [E1 H]; [|apply printsIn_4|lia|lia].
  rewrite ?append_cons, ?append_nil in H. injection H as H.
  apply (padded_inj 2 100) in H as [E2 H]; [|apply printsIn_2|lia|lia].
  rewrite ?append_cons, ?append_nil in H. injection H as H.
  apply (padded_inj 2 100) in H as [E3 H]; [|apply printsIn_2|lia|lia].
  rewrite ?append_cons, ?append_nil in H. injection H as H.
  apply (padded_inj 2 100) in H as [E4 H]; [|apply printsIn_2|done|done].
  rewrite ?append_cons, ?append_nil in H. injection H as H.
  apply (padded_inj 2 100) in H as [E5 H]; [|apply printsIn_2|done|done].
  rewrite ?append_cons, ?append_nil in H. injection H as H.
  apply (padded_inj 2 100) in H as [E6 H]; [|apply printsIn_2|done|done].
  rewrite ?append_cons, ?append_nil in H. injection H as H.
  apply (padded_inj 3 1000) in H as [E7 H]; [|apply printsIn_3|done|done].
  rewrite ?append_cons, ?append_nil in H. injection H as H.
  split; [|done].
  rewrite (time_of_fields t1), (time_of_fields t2).
  assert (MonthFromTime t1 = MonthFromTime t2) as E2' by lia.
  by rewrite E1, E2', E3, E4, E5, E6, E7.
Qed.

Lemma toISOString_length t :
  fourDigitYear t -> String.length (toISOString t) = 24%nat.
Proof.
  intros Hy. unfold fourDigitYear in Hy. unfold toISOString, isoYear.
  destruct (Z.leb_spec 0 (YearFromTime t)); [|lia].
  destruct (Z.leb_spec (YearFromTime t) 9999); [|lia].
  cbn [andb].
  pose proof (MonthFromTime_range t). pose proof (DateFromTime_range t).
  pose proof (Z.mod_pos_bound (t / msPerHour) 24 ltac:(lia)).
  pose proof (Z.mod_pos_bound (t / msPerMinute) 60 ltac:(lia)).
  pose proof (Z.mod_pos_bound (t / msPerSecond) 60 ltac:(lia)).
  pose proof (Z.mod_pos_bound t 1000 ltac:(lia)).
  rewrite !append_length.
  rewrite (proj2 (printsIn_table 4 10000 (YearFromTime t) printsIn_4 ltac:(lia))).
  rewrite (proj2 (printsIn_table 2 100 (MonthFromTime t + 1) printsIn_2 ltac:(lia))).
  rewrite (proj2 (printsIn_table 2 100 (DateFromTime t) printsIn_2 ltac:(lia))).
  rewrite (proj2 (printsIn_table 2 100 (HourFromTime t) printsIn_2
                    ltac:(unfold HourFromTime; lia))).
  rewrite (proj2 (printsIn_table 2 100 (MinFromTime t) printsIn_2
                    ltac:(unfold MinFromTime; lia))).
  rewrite (proj2 (printsIn_table 2 100 (SecFromTime t) printsIn_2
                    ltac:(unfold SecFromTime; lia))).
  rewrite (proj2 (printsIn_table 3 1000 (msFromTime t) printsIn_3
                    ltac:(unfold msFromTime, msPerSecond; lia))).
  reflexivity.
Qed.

(** *** Cache keys *)

Lemma append_length_inj (a1 a2 b1 b2 : string) :
  String.length b1 = String.length b2 ->
  a1 +:+ b1 = a2 +:+ b2 -> a1 = a2 /\ b1 = b2.
Proof.
  intros Hb H. apply append_inj; [|done].
  apply (f_equal String.length) in H. rewrite !append_length in H. lia.
Qed.

(** The cache key of a store and window, in the years 0 to 9999, is the
    key of no other store or window. *)
Lemma getCacheKey_inj email1 start1 end1 email2 start2 end2 :
  fourDigitYear start1 -> fourDigitYear end1 ->
  fourDigitYear start2 -> fourDigitYear end2 ->
  getCacheKey email1 start1 end1 = getCacheKey email2 start2 end2 ->
  email1 = email2 /\ start1 = start2 /\ end1 = end2.
Proof.
  intros Hs1 He1 Hs2 He2 H. unfold getCacheKey in H.
  apply append_length_inj in H as [-> H].
  - rewrite ?append_cons, ?append_nil in H. injection H as H.
    apply toISOString_inj in H as [-> H]; [|done|done].
    rewrite ?append_cons, ?append_nil in H. injection H as H.
    rewrite <- (append_empty (toISOString end1)) in H.
    rewrite <- (append_empty (toISOString end2)) in H.
    apply toISOString_inj in H as [-> _]; done.
  - rewrite !append_length, !toISOString_length by done. reflexivity.
Qed.

End IsoFacts.

(** * Properties of the period windows *)

Module WindowFacts.
Import JSDate Analytics AnalyticsSpec DateFacts DoubleFacts.
Local Open Scope Z_scope.

Lemma ceilDiv_spec a b :
  0 < b -> a <= ceilDiv a b * b < a + b.
Proof.
  intros Hb. unfold ceilDiv. pose proof (Z.div_mod (- a) b).
  pose proof (Z.mod_pos_bound (- a) b). nia.
Qed.

Lemma ceilDiv_le a b n : 0 < b -> (ceilDiv a b <= n <-> a <= n * b).
Proof. intros Hb. pose proof (ceilDiv_spec a b Hb). nia. Qed.

(** *** Whole days of a span, in doubles *)

(** The division of a span of up to 2^53 ms by the length of a day, made
    in doubles, has the ceiling of the exact quotient: a double below
    2^27 is within 2^-27 of the quotient, which is a whole number or at
    least 1 / 86400000 away from one. *)
Lemma ceilDiv_days_exact a :
  Z.abs a <= 2 ^ 53 ->
  Double.Math_ceil (Double.div (inject_Z a) (inject_Z msPerDay))
  = ceilDiv a msPerDay.
Proof.
  intros Ha.
  assert (0 < msPerDay) as Hb by done.
  pose proof (ceilDiv_spec a msPerDay Hb) as Hn.
  set (n := ceilDiv a msPerDay) in *.
  assert (Z.abs n <= 2 ^ 53) as Hn53 by (unfold msPerDay in *; lia).
  set (x := (inject_Z a / inject_Z msPerDay)%Q).
  assert (x * inject_Z msPerDay == inject_Z a)%Q as Ex.
  { unfold x. field. by vm_compute. }
  assert (0 < inject_Z msPerDay)%Q as Hbq by done.
  unfold Double.div. fold x.
  apply Math_ceil_unique.
  - destruct (Z.eq_dec a (n * msPerDay)) as [E|Hne].
    + assert (x == inject_Z n)%Q as Exn.
      { unfold x. rewrite E, inject_Z_mult. field. by vm_compute. }
      rewrite (double_comp _ _ Exn), (double_integer n Hn53).
      rewrite <- Zlt_Qlt. lia.
    + assert ((n - 1) * msPerDay + 1 <= a) as Hlo by lia.
      assert (inject_Z (n - 1) + 1 / inject_Z msPerDay <= x)%Q as Hx.
      { apply Qle_shift_div_l; [done|].
        rewrite Zle_Qle, inject_Z_plus, inject_Z_mult in Hlo.
        assert ((inject_Z (n - 1) + 1 / inject_Z msPerDay) * inject_Z msPerDay
                == inject_Z (n - 1) * inject_Z msPerDay + 1)%Q as ->
          by (field; by vm_compute).
        exact Hlo. }
      assert (Qabs x < Double.pow2 27)%Q as Habs.
      { assert (Qabs x * inject_Z msPerDay == Qabs (inject_Z a))%Q as Eabs.
        { rewrite <- Ex, Qabs_Qmult. f_equiv. symmetry.
          by apply Qabs_pos, Qlt_le_weak. }
        assert (Qabs (inject_Z a) <= inject_Z (2 ^ 53))%Q as Hq.
        { apply Qabs_case; intros _; [|rewrite <- inject_Z_opp];
            rewrite <- Zle_Qle; lia. }
        apply (Qmult_lt_r _ _ (inject_Z msPerDay)); [done|].
        rewrite Eabs.
        eapply Qle_lt_trans; [exact Hq|]. by vm_compute. }
      pose proof (double_near x Habs) as Herr.
      assert (Double.pow2 (-27) < 1 / inject_Z msPerDay)%Q as Hsmall
        by (by vm_compute).
      set (eps := (1 / inject_Z msPerDay)%Q) in *.
      set (d := Double.pow2 (-27)) in *.
      set (y := Double.double x) in *.
      clearbody eps d y x. clear -Hx Herr Hsmall.
      revert Herr. apply Qabs_case; intros Hs Herr; lra.
  - assert (x <= inject_Z n)%Q as Hx.
    { apply Qle_shift_div_r; [done|].
      rewrite <- inject_Z_mult, <- Zle_Qle. lia. }
    apply double_le in Hx. by rewrite (double_integer n Hn53) in Hx.
Qed.

(** [daysDiff] is the span rounded up to whole days, for a span of up to
    2^53 ms. *)
Lemma daysBetween_exact start end_ :
  Z.abs (end_ - start) <= 2 ^ 53 ->
  daysBetween start end_ = ceilDiv (end_ - start) msPerDay.
Proof.
  intros Hspan. unfold daysBetween, Double.sub.
  change (1000 * 60 * 60 * 24) with msPerDay.
  assert (inject_Z end_ - inject_Z start == inject_Z (end_ - start))%Q as E.
  { unfold Z.sub. rewrite inject_Z_plus, inject_Z_opp. ring. }
  rewrite (double_comp _ _ E).
  rewrite (div_comp _ (inject_Z (end_ - start)) _ (inject_Z msPerDay)
             (double_integer _ Hspan) (Qeq_refl _)).
  by apply ceilDiv_days_exact.
Qed.

(** [daysDiff] is at most [n], for [n] days that doubles tell from a
    millisecond more, exactly when the span is at most [n] days. *)
Lemma daysBetween_le start end_ n :
  Z.abs (n * msPerDay + 1) <= 2 ^ 53 ->
  (inject_Z n
   < Double.div (inject_Z (n * msPerDay + 1)) (inject_Z msPerDay))%Q ->
  daysBetween start end_ <= n <-> end_ - start <= n * msPerDay.
Proof.
  intros Hsafe Hnext. unfold daysBetween, Double.sub.
  change (1000 * 60 * 60 * 24) with msPerDay.
  assert (inject_Z end_ - inject_Z start == inject_Z (end_ - start))%Q as E.
  { unfold Z.sub. rewrite inject_Z_plus, inject_Z_opp. ring. }
  rewrite (double_comp _ _ E).
  set (span := end_ - start).
  assert (0 < inject_Z msPerDay)%Q as Hbq by done.
  assert (Z.abs (n * msPerDay) <= 2 ^ 53) as Hsafe' by (unfold msPerDay in *; lia).
  assert (Z.abs n <= 2 ^ 53) as Hn by (unfold msPerDay in *; lia).
  rewrite Math_ceil_le. split.
  - intros Hle.
    destruct (Z_le_gt_dec span (n * msPerDay)) as [|Hgt]; [done|exfalso].
    assert (inject_Z (n * msPerDay + 1) <= inject_Z span)%Q as H1
      by (rewrite <- Zle_Qle; lia).
    apply double_le in H1. rewrite (double_integer _ Hsafe) in H1.
    assert (inject_Z (n * msPerDay + 1) / inject_Z msPerDay
            <= Double.double (inject_Z span) / inject_Z msPerDay)%Q as H2.
    { unfold Qdiv. apply Qmult_le_compat_r; [done|].
      apply Qlt_le_weak, Qinv_lt_0_compat. done. }
    apply double_le in H2. unfold Double.div in *. lra.
  - intros Hle.
    assert (inject_Z span <= inject_Z (n * msPerDay))%Q as H1
      by (rewrite <- Zle_Qle; lia).
    apply double_le in H1. rewrite (double_integer _ Hsafe') in H1.
    assert (Double.double (inject_Z span) / inject_Z msPerDay <= inject_Z n)%Q
      as H2.
    { apply Qle_shift_div_r; [done|]. by rewrite <- inject_Z_mult. }
    apply double_le in H2. rewrite (double_integer _ Hn) in H2.
    exact H2.
Qed.

(** [daysDiff] against one day and against 31 days. *)
Lemma daysBetween_chart start end_ :
  (daysBetween start end_ <=? 1) = (end_ - start <=? msPerDay)
  /\ (daysBetween start end_ <=? 31) = (end_ - start <=? 31 * msPerDay).
Proof.
  pose proof (daysBetween_le start end_ 1 ltac:(by vm_compute)
                ltac:(by vm_compute)) as H1.
  pose proof (daysBetween_le start end_ 31 ltac:(by vm_compute)
                ltac:(by vm_compute)) as H31.
  rewrite Z.mul_1_l in H1.
  split.
  - destruct (Z.leb_spec (daysBetween start end_) 1),
      (Z.leb_spec (end_ - start) msPerDay); try done; lia.
  - destruct (Z.leb_spec (daysBetween start end_) 31),
      (Z.leb_spec (end_ - start) (31 * msPerDay)); try done; lia.
Qed.

Lemma Day_of_midnight d : Day (d * msPerDay) = d.
Proof. unfold Day. apply Z.div_mul. unfold msPerDay. lia. Qed.

(** A month has 28 to 31 days. *)
Lemma monthLength_range y m : 28 <= monthLength y m <= 31.
Proof.
  unfold monthLength, MakeDay.
  pose proof (Z.mod_pos_bound m 12 ltac:(lia)) as Hm.
  pose proof (Z.div_mod m 12 ltac:(lia)) as Hdm.
  destruct (Z.eq_dec (m mod 12) 11) as [H11|H11].
  - assert ((m + 1) / 12 = m / 12 + 1) as ->.
    { symmetry. apply (Z.div_unique _ _ _ 0); lia. }
    assert ((m + 1) mod 12 = 0) as ->.
    { symmetry. apply (Z.mod_unique _ _ (m / 12 + 1)); lia. }
    rewrite H11. replace (y + (m / 12 + 1)) with (y + m / 12 + 1) by lia.
    rewrite DayFromYear_succ. unfold monthStart.
    pose proof (DaysInYear_cases (y + m / 12)) as Hy.
    destruct (Z.eqb_spec (DaysInYear (y + m / 12)) 366); lia.
  - assert ((m + 1) / 12 = m / 12) as ->.
    { symmetry. apply (Z.div_unique _ _ _ (m mod 12 + 1)); lia. }
    assert ((m + 1) mod 12 = m mod 12 + 1) as ->.
    { symmetry. apply (Z.mod_unique _ _ (m / 12)); lia. }
    destruct (DaysInYear (y + m / 12) =? 366);
      assert (m mod 12 = 0 \/ m mod 12 = 1 \/ m mod 12 = 2 \/ m mod 12 = 3 \/
              m mod 12 = 4 \/ m mod 12 = 5 \/ m mod 12 = 6 \/ m mod 12 = 7 \/
              m mod 12 = 8 \/ m mod 12 = 9 \/ m mod 12 = 10) as Hcases by lia;
      repeat (destruct Hcases as [->|Hcases]; [simpl; lia|]);
      rewrite Hcases; simpl; lia.
Qed.

Lemma MakeDay_date y m date : MakeDay y m date = MakeDay y m 1 + date - 1.
Proof. unfold MakeDay. lia. Qed.

(** The powers of the leap day in the days before a month. *)
Lemma monthStart_leap m leap :
  0 <= m <= 11 ->
  monthStart m leap = monthStart m 0 + (if 2 <=? m then leap else 0).
Proof.
  intros Hm.
  assert (m = 0 \/ m = 1 \/ m = 2 \/ m = 3 \/ m = 4 \/ m = 5 \/ m = 6 \/ m = 7
          \/ m = 8 \/ m = 9 \/ m = 10 \/ m = 11) as Hcases by lia.
  repeat (destruct Hcases as [->|Hcases]; [simpl; lia|]). subst. simpl. lia.
Qed.

Section Fixed.
Variable zone : Z -> bool -> Z.
Variable offset : Z.
Hypothesis fixed : forall t b, zone t b = offset.

Lemma newDate_fixed y m date :
  100 <= y -> newDate zone y m date = MakeDay y m date * msPerDay - offset.
Proof.
  intros Hy. unfold newDate.
  destruct (Z.leb_spec 0 y); destruct (Z.leb_spec y 99); simpl; try lia.
  rewrite (UTC_fixed zone offset fixed). unfold MakeDate. lia.
Qed.

Lemma setHours_end_fixed t :
  setHours zone t 23 59 59 999
  = Day (t + offset) * msPerDay + (msPerDay - 1) - offset.
Proof. by rewrite (setHours_fixed zone offset fixed). Qed.

Lemma Day_local now :
  Day (now + offset)
  = MakeDay (getFullYear zone now) (getMonth zone now) 1 + getDate zone now - 1.
Proof.
  unfold getFullYear, getMonth, getDate.
  rewrite (LocalTime_fixed zone offset fixed).
  rewrite <- MakeDay_date.
  pose proof (MakeDay_of_time (now + offset) 0) as H.
  rewrite !Z.add_0_r in H. done.
Qed.

(** Without clock changes, the window of [thisMonth] is as long as the
    days of the month gone by, and its comparison window as long as the
    month before. *)
Lemma thisMonth_lengths now cs ce win :
  100 <= getFullYear zone now ->
  periodWindow zone now "thisMonth" cs ce = Ok win ->
  endDate win - startDate win = getDate zone now * msPerDay - 1
  /\ comparisonEnd win - comparisonStart win
     = monthLength (getFullYear zone now) (getMonth zone now - 1) * msPerDay - 1.
Proof.
  intros Hy Hwin. unfold periodWindow in Hwin.
  cbn [String.eqb Ascii.eqb Bool.eqb] in Hwin. injection Hwin as <-.
  cbn [startDate endDate comparisonStart comparisonEnd].
  rewrite !setHours_end_fixed, !newDate_fixed by done.
  replace (MakeDay (getFullYear zone now) (getMonth zone now) 0 * msPerDay
           - offset + offset)
    with (MakeDay (getFullYear zone now) (getMonth zone now) 0 * msPerDay) by lia.
  rewrite Day_of_midnight, Day_local. unfold monthLength.
  replace (getMonth zone now - 1 + 1) with (getMonth zone now) by lia.
  rewrite (MakeDay_date _ _ 0). lia.
Qed.

(** Without clock changes, the comparison window of [thisYear] is as long
    as the current window in January and February, and from March on a
    day longer or shorter when one of the two years is a leap year. *)
Lemma thisYear_lengths now cs ce win :
  101 <= getFullYear zone now ->
  periodWindow zone now "thisYear" cs ce = Ok win ->
  comparisonEnd win - comparisonStart win
  = endDate win - startDate win
    + (if 2 <=? getMonth zone now
       then (DaysInYear (getFullYear zone now - 1)
             - DaysInYear (getFullYear zone now)) * msPerDay
       else 0).
Proof.
  intros Hy Hwin. unfold periodWindow in Hwin.
  cbn [String.eqb Ascii.eqb Bool.eqb] in Hwin. injection Hwin as <-.
  cbn [startDate endDate comparisonStart comparisonEnd].
  rewrite !setHours_end_fixed, !newDate_fixed by lia.
  replace (MakeDay (getFullYear zone now - 1) (getMonth zone now)
             (getDate zone now) * msPerDay - offset + offset)
    with (MakeDay (getFullYear zone now - 1) (getMonth zone now)
            (getDate zone now) * msPerDay) by lia.
  rewrite Day_of_midnight, Day_local.
  pose proof (MonthFromTime_range (LocalTime zone now)) as Hm.
  fold (getMonth zone now) in Hm.
  rewrite !MakeDay_in_year by lia.
  rewrite (monthStart_leap (getMonth zone now)
             (if DaysInYear (getFullYear zone now - 1) =? 366 then 1 else 0))
    by done.
  rewrite (monthStart_leap (getMonth zone now)
             (if DaysInYear (getFullYear zone now) =? 366 then 1 else 0))
    by done.
  pose proof (DaysInYear_cases (getFullYear zone now)) as H1.
  pose proof (DaysInYear_cases (getFullYear zone now - 1)) as H2.
  unfold msPerDay.
  repeat match goal with
         | |- context [monthStart 0 ?l] => change (monthStart 0 l) with 0
         end.
  destruct (2 <=? getMonth zone now);
    destruct (Z.eqb_spec (DaysInYear (getFullYear zone now - 1)) 366);
    destruct (Z.eqb_spec (DaysInYear (getFullYear zone now)) 366); lia.
Qed.

End Fixed.

(** The periods compared day by day move both ends of their window back
    by the same number of calendar days. *)
Lemma comparison_by_days zone now period customStart customEnd win :
  period ∈ ["today"; "yesterday"; "thisWeek"; "custom"]%string ->
  periodWindow zone now period customStart customEnd = Ok win ->
  comparisonStart win
  = shiftDays zone (startDate win) (- comparisonDays period win)
  /\ comparisonEnd win
     = shiftDays zone (endDate win) (- comparisonDays period win).
Proof.
  intros Hperiod Hwin. unfold periodWindow in Hwin. unfold shiftDays.
  repeat (apply elem_of_cons in Hperiod as [->|Hperiod]);
    [| | | |by apply elem_of_nil in Hperiod].
  - cbn [String.eqb Ascii.eqb Bool.eqb] in Hwin. injection Hwin as <-.
    cbn [startDate endDate comparisonStart comparisonEnd].
    rewrite !setDate_back. split; f_equal; lia.
  - cbn [String.eqb Ascii.eqb Bool.eqb] in Hwin. injection Hwin as <-.
    cbn [startDate endDate comparisonStart comparisonEnd].
    rewrite !setDate_back. split; f_equal; lia.
  - cbn [String.eqb Ascii.eqb Bool.eqb] in Hwin. injection Hwin as <-.
    cbn [startDate endDate comparisonStart comparisonEnd].
    rewrite !setDate_back. split; f_equal; lia.
  - destruct customStart as [cs|], customEnd as [ce|];
      cbn [String.eqb Ascii.eqb Bool.eqb mbind option_bind] in Hwin;
      try discriminate; injection Hwin as <-.
    cbn [startDate endDate comparisonStart comparisonEnd].
    rewrite !setDate_back. unfold comparisonDays.
    cbn [String.eqb Ascii.eqb Bool.eqb startDate endDate].
    split; f_equal; lia.
Qed.

(** C3 (amended). For [today], [yesterday], [thisWeek] and [custom] with
    both dates the comparison window is the current window with both ends
    moved back on the local clock by the same number of calendar days (1,
    1, 7, and the [daysDiff] of the custom period, its span rounded up
    to whole days). Its length is the
    length of the current window, plus the change of the offset from
    universal time across the current window, minus that change across
    the comparison window: the same length when the offset never changes,
    an hour more or less around a clock change. Without clock changes,
    [thisMonth] (in a year from 100 on) compares the days of the month gone
    by with the whole month before, and [thisYear] (in a year from 101 on)
    compares windows of the same length in January and February, and from
    March on of lengths one day apart when one of the two years is a leap
    year. *)
Theorem comparison_window_length zone now period customStart customEnd win :
  periodWindow zone now period customStart customEnd = Ok win ->
  (period ∈ ["today"; "yesterday"; "thisWeek"; "custom"]%string ->
   let k := comparisonDays period win in
   comparisonStart win = shiftDays zone (startDate win) (- k)
   /\ comparisonEnd win = shiftDays zone (endDate win) (- k)
   /\ comparisonEnd win - comparisonStart win
      = endDate win - startDate win
        + (zone (endDate win) true - zone (startDate win) true)
        - (zone (LocalTime zone (endDate win) - k * msPerDay) false
           - zone (LocalTime zone (startDate win) - k * msPerDay) false))
  /\ (forall offset, (forall t b, zone t b = offset) ->
      (period ∈ ["today"; "yesterday"; "thisWeek"; "custom"]%string ->
       comparisonEnd win - comparisonStart win = endDate win - startDate win)
      /\ (period = "thisMonth"%string -> 100 <= getFullYear zone now ->
          endDate win - startDate win = getDate zone now * msPerDay - 1
          /\ comparisonEnd win - comparisonStart win
             = monthLength (getFullYear zone now) (getMonth zone now - 1)
               * msPerDay - 1
          /\ 28 <= monthLength (getFullYear zone now) (getMonth zone now - 1) <= 31)
      /\ (period = "thisYear"%string -> 101 <= getFullYear zone now ->
          comparisonEnd win - comparisonStart win
          = endDate win - startDate win
            + (if 2 <=? getMonth zone now
               then (DaysInYear (getFullYear zone now - 1)
                     - DaysInYear (getFullYear zone now)) * msPerDay
               else 0))).
Proof.
  intros Hwin.
  assert (period ∈ ["today"; "yesterday"; "thisWeek"; "custom"]%string ->
          let k := comparisonDays period win in
          comparisonStart win = shiftDays zone (startDate win) (- k)
          /\ comparisonEnd win = shiftDays zone (endDate win) (- k)
          /\ comparisonEnd win - comparisonStart win
             = endDate win - startDate win
               + (zone (endDate win) true - zone (startDate win) true)
               - (zone (LocalTime zone (endDate win) - k * msPerDay) false
                  - zone (LocalTime zone (startDate win) - k * msPerDay) false))
    as Hdays.
  { intros Hperiod k.
    destruct (comparison_by_days zone now period customStart customEnd win
                Hperiod Hwin) as [Hs He].
    fold k in Hs, He. split; [done|]. split; [done|].
    rewrite Hs, He. unfold shiftDays, UTC, LocalTime.
    replace (endDate win + zone (endDate win) true + - k * msPerDay)
      with (endDate win + zone (endDate win) true - k * msPerDay) by lia.
    replace (startDate win + zone (startDate win) true + - k * msPerDay)
      with (startDate win + zone (startDate win) true - k * msPerDay) by lia.
    lia. }
  split; [exact Hdays|].
  intros offset Hfix. split; [|split].
  - intros Hperiod. destruct (Hdays Hperiod) as (_ & _ & ->).
    rewrite !Hfix. lia.
  - intros -> Hy.
    destruct (thisMonth_lengths zone offset Hfix now customStart customEnd win
                Hy Hwin) as [H1 H2].
    split; [done|]. split; [done|]. apply monthLength_range.
  - intros -> Hy.
    by apply (thisYear_lengths zone offset Hfix now customStart customEnd win).
Qed.

(** C5 (amended). A custom period with both dates is hourly when the span
    is at most one day, daily when at most 31 days and monthly otherwise.
    Its comparison window is the current window with both ends moved back
    on the local clock by [daysDiff] calendar days, which is the span
    rounded up to whole days when the span is at most 2^53 ms, where the
    division the code makes in doubles is exact enough. Where the offset
    from universal time is the same at an end and at the end moved back,
    the move is by that many times 24 hours; the comparison window is then
    [start - span, end - span] exactly when the span is a whole number of
    days. *)
Theorem custom_window zone now (start end_ : Z) :
  let span := end_ - start in
  let daysDiff := daysBetween start end_ in
  exists win,
    periodWindow zone now "custom" (Some start) (Some end_) = Ok win /\
    startDate win = start /\ endDate win = end_ /\
    w_chartType win =
      (if span <=? msPerDay then hourly
       else if span <=? 31 * msPerDay then daily else monthly) /\
    comparisonStart win = shiftDays zone start (- daysDiff) /\
    comparisonEnd win = shiftDays zone end_ (- daysDiff) /\
    (Z.abs span <= 2 ^ 53 ->
     daysDiff = ceilDiv span msPerDay
     /\ span <= daysDiff * msPerDay < span + msPerDay) /\
    (zone start true = zone (LocalTime zone start - daysDiff * msPerDay) false ->
     zone end_ true = zone (LocalTime zone end_ - daysDiff * msPerDay) false ->
     comparisonStart win = start - daysDiff * msPerDay
     /\ comparisonEnd win = end_ - daysDiff * msPerDay
     /\ (Z.abs span <= 2 ^ 53 ->
         (comparisonStart win = start - span /\ comparisonEnd win = end_ - span
          <-> span mod msPerDay = 0))).
Proof.
  intros span daysDiff. eexists. split; [reflexivity|].
  cbn [startDate endDate comparisonStart comparisonEnd w_chartType].
  fold daysDiff.
  rewrite !setDate_back.
  assert (0 < msPerDay) as Hpos by done.
  destruct (daysBetween_chart start end_) as [H1 H31].
  fold daysDiff span in H1, H31.
  assert (Z.abs span <= 2 ^ 53 ->
          daysDiff = ceilDiv span msPerDay
          /\ span <= daysDiff * msPerDay < span + msPerDay) as Hexact.
  { intros Hsafe. unfold daysDiff. rewrite (daysBetween_exact _ _ Hsafe).
    split; [done|]. by apply ceilDiv_spec. }
  clearbody daysDiff.
  split; [done|]. split; [done|]. split; [by rewrite H1, H31|].
  unfold shiftDays.
  split; [f_equal; lia|]. split; [f_equal; lia|]. split; [done|].
  intros Hs He.
  assert (UTC zone (LocalTime zone start - daysDiff * msPerDay)
          = start - daysDiff * msPerDay) as ->.
  { unfold UTC. rewrite <- Hs. unfold LocalTime. lia. }
  assert (UTC zone (LocalTime zone end_ - daysDiff * msPerDay)
          = end_ - daysDiff * msPerDay) as ->.
  { unfold UTC. rewrite <- He. unfold LocalTime. lia. }
  split; [done|]. split; [done|].
  intros Hsafe. destruct (Hexact Hsafe) as [_ Hceil]. split.
  - intros [H _]. assert (span = daysDiff * msPerDay) as -> by lia.
    by apply Z.mod_mul.
  - intros Hmod. apply Z.mod_divide in Hmod as [k Hk]; [|done].
    assert (daysDiff = k) by nia. subst k. lia.
Qed.

End WindowFacts.

(** * Properties of the aggregations *)

Module AggregateFacts.
Import JSDate Pipeline Analytics AnalyticsSpec DoubleFacts.
Local Open Scope Z_scope.

Lemma matchCreatedAt_cons lo hi doc docs :
  matchCreatedAt lo hi (doc :: docs)
  = match doc with
    | Some bill =>
        if (lo <=? createdAt bill)
           && match hi with Some h => createdAt bill <=? h | None => true end
        then bill :: matchCreatedAt lo hi docs
        else matchCreatedAt lo hi docs
    | None => matchCreatedAt lo hi docs
    end.
Proof.
  destruct doc as [bill|]; [|done]. unfold matchCreatedAt. simpl.
  by destruct (_ && _).
Qed.

Lemma matchCreatedAt_records start end_ (history : list Billing) :
  matchCreatedAt start (Some end_) (Some <$> history)
  = recordsIn history start end_.
Proof.
  unfold recordsIn. induction history as [|b l IH]; [done|].
  rewrite fmap_cons, matchCreatedAt_cons, IH.
  destruct (Z.leb_spec start (createdAt b)), (Z.leb_spec (createdAt b) end_);
    simpl; (rewrite filter_cons_True by lia) || (rewrite filter_cons_False by lia);
    done.
Qed.

(** The first two pipeline stages select the records of the window. *)
Lemma matchCreatedAt_window db email start end_ :
  matchCreatedAt start (Some end_) (unwindBillingHistory db email)
  = recordsIn (historyOf db email) start end_.
Proof.
  unfold unwindBillingHistory, historyOf.
  destruct (db !! email) as [store|]; simpl; [|done].
  destruct (billingHistory store) as [|b l] eqn:Hh; [done|].
  apply (matchCreatedAt_records start end_ (b :: l)).
Qed.




(** *** Rounding to cents *)



(** What is rounded to cents is a whole number of cents, as a double. *)
Lemma roundedToCents_unique x r r' :
  roundedToCents x r -> roundedToCents x r' -> r = r'.
Proof.
  intros (n & H1 & H2 & ->) (m & H3 & H4 & ->).
  assert (n = m) as ->; [|done].
  rewrite <- (Math_round_unique _ n H1 H2).
  by apply Math_round_unique.
Qed.




End AggregateFacts.

(** * Properties of the cache and of the service entry points *)

Module ServiceFacts.
Import JSDate Pipeline Analytics AnalyticsSpec IsoFacts.
Local Open Scope Z_scope.

Lemma setCache_lookup clock key result (cache : gmap string CacheEntry) :
  setCache clock key result cache !! key
  = Some {| data := result; timestamp := clock |}.
Proof. unfold setCache. apply lookup_insert_eq. Qed.

Lemma setCache_lookup_ne clock key key' result (cache : gmap string CacheEntry) :
  key <> key' ->
  setCache clock key result cache !! key' = cache !! key'.
Proof. intros. unfold setCache. by apply lookup_insert_ne. Qed.

(** A lookup of another key leaves the entry of [key] alone. *)
Lemma getFromCache_lookup_ne clock key key' (cache : gmap string CacheEntry) :
  key <> key' ->
  (getFromCache clock key cache).2 !! key' = cache !! key'.
Proof.
  intros Hne. unfold getFromCache.
  destruct (cache !! key) as [cached|]; simpl;
    [destruct (_ <? _); simpl|]; try done; by apply lookup_delete_ne.
Qed.

Lemma getFromCache_entry clock key (cache : gmap string CacheEntry) result t0 :
  cache !! key = Some {| data := result; timestamp := t0 |} ->
  getFromCache clock key cache
  = if clock - t0 <? CACHE_TTL then (Some result, cache)
    else (None, delete key cache).
Proof. intros H. unfold getFromCache. by rewrite H. Qed.

(** C8. The cache key of a store and window (in the years 0 to 9999) is
    the key of no other store or window. Let the cache hold, for the key
    of a store and window, the value [cached] set at time [t0]. A lookup
    of that key less than five minutes after [t0] returns [cached] and
    leaves the cache as it is, and [getSalesAnalytics] then returns
    [cached] without running any aggregation. A lookup at [t0] plus five
    minutes or later misses and deletes the entry, and
    [getSalesAnalytics] then runs its three aggregations afresh and stores
    their result under the key. *)
Theorem cache_ttl zone now atLookup atStore email period customStart customEnd
    (w : World) win cached t0 :
  periodWindow zone now period customStart customEnd = Ok win ->
  let key := getCacheKey email (startDate win) (endDate win) in
  analyticsCache w !! key = Some {| data := cached; timestamp := t0 |} ->
  (fourDigitYear (startDate win) -> fourDigitYear (endDate win) ->
   forall email2 start2 end2,
     fourDigitYear start2 -> fourDigitYear end2 ->
     getCacheKey email2 start2 end2 = key ->
     email2 = email /\ start2 = startDate win /\ end2 = endDate win)
  /\ (atLookup - t0 < CACHE_TTL ->
      getFromCache atLookup key (analyticsCache w) = (Some cached, analyticsCache w)
      /\ getSalesAnalytics zone now atLookup atStore email period
                           customStart customEnd w
         = (Ok cached, w))
  /\ (CACHE_TTL <= atLookup - t0 ->
      getFromCache atLookup key (analyticsCache w)
      = (None, delete key (analyticsCache w))
      /\ exists r w',
          getSalesAnalytics zone now atLookup atStore email period
                            customStart customEnd w = (Ok r, w')
          /\ freshAnalytics zone (db w) email period win r
          /\ aggregations w' = (3 + aggregations w)%nat
          /\ db w' = db w
          /\ analyticsCache w' !! key = Some {| data := r; timestamp := atStore |}).
Proof.
  intros Hwin key Hentry. split; [|split].
  - intros Hs He email2 start2 end2 Hs2 He2 Hkey.
    by apply getCacheKey_inj in Hkey.
  - intros Hfresh.
    assert (getFromCache atLookup key (analyticsCache w)
            = (Some cached, analyticsCache w)) as Hget.
    { rewrite (getFromCache_entry _ _ _ _ _ Hentry).
      apply Z.ltb_lt in Hfresh. by rewrite Hfresh. }
    split; [exact Hget|].
    unfold getSalesAnalytics. rewrite Hwin. fold key. rewrite Hget.
    by destruct w.
  - intros Hstale.
    assert (getFromCache atLookup key (analyticsCache w)
            = (None, delete key (analyticsCache w))) as Hget.
    { rewrite (getFromCache_entry _ _ _ _ _ Hentry).
      apply Z.ltb_ge in Hstale. by rewrite Hstale. }
    split; [exact Hget|].
    unfold getSalesAnalytics. rewrite Hwin. fold key. rewrite Hget.
    unfold aggregate, withCache, freshAnalytics.
    cbn [db analyticsCache aggregations].
    destruct (w_chartType win) eqn:Hchart;
      (eexists _, _; split; [reflexivity|];
       cbn [db analyticsCache aggregations current comparison chartType
            chartData Analytics.period];
       rewrite ?Hchart;
       split; [done|]; split; [done|]; split; [done|]; apply setCache_lookup).
Qed.

(** Any period name outside the three cases of the [switch] of
    [getTopSellingMedicines] starts the window at the first of the month. *)
Lemma topSellingStart_default zone now period :
  period <> "today"%string -> period <> "thisWeek"%string ->
  period <> "thisYear"%string ->
  topSellingStart zone now period
  = newDate zone (getFullYear zone now) (getMonth zone now) 1.
Proof.
  intros H1 H3 H5. apply String.eqb_neq in H1, H3, H5.
  unfold topSellingStart. rewrite H1, H3, H5. reflexivity.
Qed.

(** C9 (amended). A period that is none of the five named ones, and is
    not [custom] with both dates, makes [getSalesAnalytics] fail with
    INVALID_PERIOD before it touches the cache or the store. The
    top-selling operation never fails for its period: it runs one
    aggregation on the store whatever the name, and any name other than
    [today], [thisWeek] and [thisYear] is served as [thisMonth]. *)
Theorem invalid_period zone now atLookup atStore email period customStart customEnd
    limit (w : World) :
  (~ acceptedPeriod period customStart customEnd ->
   getSalesAnalytics zone now atLookup atStore email period customStart customEnd w
   = (Throw INVALID_PERIOD, w))
  /\ (period <> "today"%string -> period <> "thisWeek"%string ->
      period <> "thisYear"%string ->
      getTopSellingMedicines zone now email period limit w
      = getTopSellingMedicines zone now email "thisMonth" limit w)
  /\ exists result w',
      getTopSellingMedicines zone now email period limit w = (Ok result, w')
      /\ aggregations w' = S (aggregations w)
      /\ db w' = db w /\ analyticsCache w' = analyticsCache w.
Proof.
  split; [|split].
  - intros Hnot. unfold acceptedPeriod, namedPeriods in Hnot.
    assert (period <> "today" /\ period <> "yesterday" /\ period <> "thisWeek"
            /\ period <> "thisMonth" /\ period <> "thisYear")%string
      as (H1 & H2 & H3 & H4 & H5).
    { repeat split; intros ->; apply Hnot; left; set_solver. }
    apply String.eqb_neq in H1, H2, H3, H4, H5.
    unfold getSalesAnalytics, periodWindow.
    assert ((if String.eqb period "custom"
             then cs ← customStart; ce ← customEnd; Some (cs, ce)
             else None) = None) as ->.
    { destruct (String.eqb_spec period "custom") as [->|]; [|reflexivity].
      destruct customStart as [cs|], customEnd as [ce|]; try reflexivity.
      exfalso. apply Hnot. right. eauto. }
    rewrite H1, H2, H3, H4, H5. reflexivity.
  - intros H1 H3 H5. unfold getTopSellingMedicines.
    rewrite (topSellingStart_default zone now period H1 H3 H5).
    rewrite (topSellingStart_default zone now "thisMonth") by discriminate.
    reflexivity.
  - unfold getTopSellingMedicines, aggregate.
    eexists _, _. split; [reflexivity|]. by repeat split.
Qed.

End ServiceFacts.

(** * The statements on the sample data *)

Module ScenarioFacts.
Import Ledger LedgerSpec StoreService JSDate Pipeline Analytics AnalyticsSpec.
Import Scenario.
Import LedgerFacts WindowFacts AggregateFacts ServiceFacts.
Local Open Scope Z_scope.






(** A delivery for batch [b2] of [A] is merged into the second entry of
    the pharmacy's ledger, while [removeFromStock] and [createBilling]
    deduct [A] from the first one, batch [b1]. *)
Lemma add_and_deduct_find_different_entries :
  addMatch delivery (stock pharmacy) = Some (1%nat, lot "A" "b2" 5)
  /\ findByMedID (md_medID delivery) (stock pharmacy)
     = Some (0%nat, lot "A" "b1" 2)
  /\ (stock ∘ fst <$> addToStock_doc pharmacy delivery (Some 1))
     = Ok [lot "A" "b1" 2; lot "A" "b2" 6; lot "B" "" 10]
  /\ (stock ∘ fst <$> removeFromStock_doc pharmacy (Some "A") (Some 1))
     = Ok [lot "A" "b1" 1; lot "A" "b2" 5; lot "B" "" 10]
  /\ deductLine (stock pharmacy) (line "A" 1)
     = Ok [lot "A" "b1" 1; lot "A" "b2" 5; lot "B" "" 10].
Proof. vm_compute. repeat split; reflexivity. Qed.

(** [today] in New York at 11:00 on March 11, 2024, the day after the
    clocks went forward: the current window is that day, 24 hours less a
    millisecond; the comparison window is March 10, both ends one
    calendar day back, and it lasts 23 hours less a millisecond, the hour
    by which the offset changed across it. *)
Lemma comparison_window_length_after_clock_change :
  exists win,
    periodWindow newYork afterClockChange "today" None None = Ok win
    /\ comparisonStart win = shiftDays newYork (startDate win) (- 1)
    /\ comparisonEnd win = shiftDays newYork (endDate win) (- 1)
    /\ endDate win - startDate win = 24 * msPerHour - 1
    /\ comparisonEnd win - comparisonStart win = 23 * msPerHour - 1.
Proof.
  assert (exists win,
            periodWindow newYork afterClockChange "today" None None = Ok win)
    as [win Hwin] by (eexists; reflexivity).
  exists win. split; [exact Hwin|].
  destruct (proj1 (comparison_window_length newYork afterClockChange "today"
                     None None win Hwin))
    as (Hs & He & Hlen).
  { rewrite !elem_of_cons. left. reflexivity. }
  split; [exact Hs|]. split; [exact He|].
  rewrite Hlen. clear Hs He Hlen.
  injection Hwin as <-. vm_compute. split; reflexivity.
Defined.

(** [thisWeek] at [callTime] without clock changes: both windows last
    seven days less one millisecond. *)
Lemma comparison_window_length_thisWeek :
  comparisonEnd thisWeekWindow - comparisonStart thisWeekWindow
  = endDate thisWeekWindow - startDate thisWeekWindow.
Proof.
  refine (proj1 (proj2 (comparison_window_length utc callTime "thisWeek"
                          None None thisWeekWindow _) 0 _) _).
  - vm_compute. reflexivity.
  - reflexivity.
  - rewrite !elem_of_cons. right. right. left. reflexivity.
Qed.

(** [thisMonth] at [callTime] (March 15) in universal time: the current
    window runs from March 1 to the end of March 15, fifteen days, and is
    compared with the whole of February, twenty-nine days. [today] in New
    York on the day after the clocks went forward: a current window of 24
    hours is compared with one of 23 hours. *)
Lemma thisMonth_windows_differ :
  (exists win,
     periodWindow utc callTime "thisMonth" None None = Ok win
     /\ endDate win - startDate win = 15 * msPerDay - 1
     /\ comparisonEnd win - comparisonStart win = 29 * msPerDay - 1)
  /\ (exists win,
        periodWindow newYork afterClockChange "today" None None = Ok win
        /\ toISOString (startDate win) = "2024-03-11T04:00:00.000Z"%string
        /\ toISOString (endDate win) = "2024-03-12T03:59:59.999Z"%string
        /\ toISOString (comparisonStart win) = "2024-03-10T05:00:00.000Z"%string
        /\ toISOString (comparisonEnd win) = "2024-03-11T03:59:59.999Z"%string
        /\ comparisonEnd win - comparisonStart win
           <> endDate win - startDate win).
Proof.
  split; (eexists; split; [reflexivity|]); vm_compute;
    repeat split; try reflexivity.
  discriminate.
Qed.

(** A custom window of twelve hours in universal time, from [mar1] to
    noon: the comparison window starts a whole day before [mar1], not
    twelve hours before. A custom window of 24 hours in New York, from
    noon on the day the clocks went forward: the comparison window starts
    23 hours before the start and ends 24 hours before the end. *)
Lemma custom_comparison_is_whole_days_back :
  (exists win,
     periodWindow utc callTime "custom" (Some mar1) (Some (mar1 + 12 * msPerHour))
     = Ok win
     /\ w_chartType win = hourly
     /\ comparisonStart win = mar1 - 24 * msPerHour
     /\ comparisonEnd win = mar1 - 12 * msPerHour
     /\ comparisonStart win <> mar1 - 12 * msPerHour)
  /\ (exists win,
        periodWindow newYork callTime "custom" (Some changeDayNoon)
                     (Some (changeDayNoon + msPerDay)) = Ok win
        /\ comparisonStart win = changeDayNoon - 23 * msPerHour
        /\ comparisonEnd win = changeDayNoon
        /\ comparisonStart win <> changeDayNoon - msPerDay).
Proof.
  split; (eexists; split; [reflexivity|]); vm_compute;
    repeat split; try reflexivity; discriminate.
Qed.

(** C6. A custom window from 18:00 on March 1 to 06:00 on March 3 (universal
    time, also as the local zone) is charted by day. It touches three
    calendar days, and the daily chart has two points, for March 1 and
    March 2: the loop steps a day from the start and its third step,
    18:00 on March 3, is past the end. The sale of 01:00 on March 3 is in
    the window (the period aggregate counts three transactions) and in no
    point of the chart (the points count two). *)
Theorem daily_chart_drops_last_day :
  let start := mar1 + 18 * msPerHour in
  let end_ := mar3 + 6 * msPerHour in
  let chart := getDailyBreakdownAggregated utc stores pharmacyEmail start end_ in
  (w_chartType <$> periodWindow utc callTime "custom" (Some start) (Some end_))
  = Ok daily
  /\ calendarDayCount utc start end_ = 3
  /\ isoDay <$> chart = [Some "2024-03-01"; Some "2024-03-02"]%string
  /\ bucketLabel <$> chart = ["Fri, Mar 1"; "Sat, Mar 2"]%string
  /\ transactionCount
       (getSalesForPeriodAggregated stores pharmacyEmail start end_) = 3
  /\ foldr Z.add 0 (transactions <$> chart) = 2.
Proof. vm_compute. repeat split; reflexivity. Qed.

(** The scenario of the specification: three records on March 1
    totalling 150 and two on March 2 totalling 80 give total sales 230,
    5 transactions, 14 items and an average of 46. *)
Lemma period_aggregate_two_days :
  getSalesForPeriodAggregated stores pharmacyEmail mar1 (mar3 - 1)
  = {| totalSales := 230; transactionCount := 5; itemsSold := 14;
       averageTransaction := 46 |}.
Proof. vm_compute. reflexivity. Qed.

(** Two records of 10 and 22.41: the doubles add up to 32.41 and the
    double nearest to half of it, times 100, is a little under 1620.5, so
    the average shown is 16.2. *)
Lemma period_aggregate_average_of_doubles :
  let db : gmap string Store :=
    {[ clinicEmail :=
         {| s_id := 2%N; stock := [];
            billingHistory := [sale mar1 (cents 1000) [];
                               sale mar2 (cents 2241) []] |} ]} in
  let r := getSalesForPeriodAggregated db clinicEmail mar1 mar3 in
  totalSales r = cents 3241
  /\ averageTransaction r = cents 1620
  /\ (Double.mul (Double.div (Double.add (cents 1000) (cents 2241)) 2) 100
      < 1620 + (1 # 2))%Q.
Proof. vm_compute. repeat split; reflexivity. Qed.

(** [round2] of the double nearest to 1.005 is 1: the double is under
    1.005 and its product with 100 is the double under 100.5. *)
Lemma round2_of_double_under_half :
  round2 (Double.double (1005 # 1000)) = 1%Q
  /\ round2 (cents 1234) = cents 1234
  /\ round2 (Double.double (12345 # 1000)) = cents 1235.
Proof. vm_compute. repeat split; reflexivity. Qed.

(** Sales of 63 today after 40 yesterday: the growth computed in doubles,
    23 / 40 * 100, is a little under 57.5, and the report shows 57. *)
Lemma growth_of_doubles :
  let db : gmap string Store :=
    {[ clinicEmail :=
         {| s_id := 2%N; stock := [];
            billingHistory :=
              [sale (startDate todayWindow - msPerHour) 40 [];
               sale (startDate todayWindow + msPerHour) 63 []] |} ]} in
  let w := {| db := db; analyticsCache := ∅; aggregations := 0 |} in
  growth <$> (getSalesAnalytics utc callTime callTime callTime clinicEmail
                                "today" None None w).1
  = Ok {| percentage := 57; isPositive := true |}.
Proof. vm_compute. reflexivity. Qed.

(** The report cached one minute before [callTime] is served at
    [callTime] as it is, with no aggregation; four minutes later it has
    expired and the report is computed with three aggregations. The key
    is that of the pharmacy and today's window alone: the key of the
    clinic for the same window, and of the pharmacy for the week's window,
    are other keys. *)
Lemma cache_ttl_today :
  getSalesAnalytics utc callTime callTime callTime pharmacyEmail "today"
                    None None warm
  = (Ok cachedReport, warm)
  /\ (exists r w',
      getSalesAnalytics utc callTime (callTime + 240000) (callTime + 240000)
                        pharmacyEmail "today" None None warm = (Ok r, w')
      /\ aggregations w' = 3%nat
      /\ analyticsCache w' !! todayKey
         = Some {| data := r; timestamp := callTime + 240000 |})
  /\ getCacheKey clinicEmail (startDate todayWindow) (endDate todayWindow)
     <> todayKey
  /\ getCacheKey pharmacyEmail (startDate thisWeekWindow) (endDate thisWeekWindow)
     <> todayKey.
Proof.
  assert (periodWindow utc callTime "today" None None = Ok todayWindow) as Hwin
    by (vm_compute; reflexivity).
  assert (analyticsCache warm
            !! getCacheKey pharmacyEmail (startDate todayWindow) (endDate todayWindow)
          = Some {| data := cachedReport; timestamp := callTime - 60000 |})
    as Hentry by apply lookup_singleton_eq.
  assert (forall t, (0 <=? YearFromTime t) && (YearFromTime t <=? 9999) = true ->
                    fourDigitYear t) as Hyear.
  { intros t H. apply andb_true_iff in H as [H1 H2].
    apply Z.leb_le in H1, H2. by split. }
  assert (fourDigitYear (startDate todayWindow)) as Hs
    by (apply Hyear; vm_compute; reflexivity).
  assert (fourDigitYear (endDate todayWindow)) as He
    by (apply Hyear; vm_compute; reflexivity).
  assert (fourDigitYear (startDate thisWeekWindow)) as Hs'
    by (apply Hyear; vm_compute; reflexivity).
  assert (fourDigitYear (endDate thisWeekWindow)) as He'
    by (apply Hyear; vm_compute; reflexivity).
  pose proof (proj1 (cache_ttl utc callTime callTime callTime pharmacyEmail
                       "today" None None warm todayWindow cachedReport
                       (callTime - 60000) Hwin Hentry) Hs He) as Hkey.
  split; [|split; [|split]].
  - refine (proj2 (proj1 (proj2 (cache_ttl utc callTime callTime callTime
                            pharmacyEmail "today" None None warm todayWindow
                            cachedReport (callTime - 60000) Hwin Hentry)) _)).
    vm_compute. reflexivity.
  - destruct (proj2 (proj2 (cache_ttl utc callTime (callTime + 240000)
                       (callTime + 240000) pharmacyEmail "today" None None warm
                       todayWindow cachedReport (callTime - 60000) Hwin Hentry)))
      as (_ & r & w' & Hrun & _ & Hcount & _ & Hstored).
    { vm_compute. discriminate. }
    exists r, w'. split; [exact Hrun|]. split; [exact Hcount|]. exact Hstored.
  - intros H.
    destruct (Hkey clinicEmail (startDate todayWindow) (endDate todayWindow)
                Hs He H) as (Hemail & _).
    discriminate Hemail.
  - intros H.
    destruct (Hkey pharmacyEmail (startDate thisWeekWindow)
                (endDate thisWeekWindow) Hs' He' H) as (_ & Hstart & _).
    discriminate Hstart.
Defined.

(** [lastMonth] is not a period of [getSalesAnalytics], which rejects it
    and leaves the state alone; [getTopSellingMedicines] serves it as
    [thisMonth], with one aggregation. *)
Lemma invalid_period_lastMonth :
  getSalesAnalytics utc callTime callTime callTime pharmacyEmail "lastMonth"
                    None None cold
  = (Throw INVALID_PERIOD, cold)
  /\ getTopSellingMedicines utc callTime pharmacyEmail "lastMonth" 10 cold
     = getTopSellingMedicines utc callTime pharmacyEmail "thisMonth" 10 cold
  /\ exists result w',
      getTopSellingMedicines utc callTime pharmacyEmail "lastMonth" 10 cold
      = (Ok result, w')
      /\ aggregations w' = 1%nat.
Proof.
  assert (~ acceptedPeriod "lastMonth" None None) as Hnot.
  { intros [Hnamed|(Hcustom & _)]; [|discriminate Hcustom].
    unfold namedPeriods in Hnamed.
    repeat (apply elem_of_cons in Hnamed as [Hnamed|Hnamed];
            [discriminate Hnamed|]).
    by apply elem_of_nil in Hnamed. }
  pose proof (invalid_period utc callTime callTime callTime pharmacyEmail
                "lastMonth" None None 10 cold)
    as (Hsales & Htop & result & w' & Hrun & Hcount & _).
  split; [exact (Hsales Hnot)|]. split.
  - apply Htop; discriminate.
  - exists result, w'. split; [exact Hrun|exact Hcount].
Defined.

(** The top-selling operation, asked for the unknown period [bogus],
    throws nothing: it runs its aggregation over the month of [callTime]
    and returns the three medicines sold in it. *)
Lemma top_selling_serves_unknown_period :
  let result := getTopSellingMedicines utc callTime pharmacyEmail "bogus" 10 cold in
  fmap (M := Result) (fmap (M := list) ts_medID) result.1
  = Ok [Some "A"; Some "B"; Some "C"]%string
  /\ aggregations result.2 = 1%nat.
Proof. vm_compute. split; reflexivity. Qed.

End ScenarioFacts.

(** * Properties of the stock operations *)

Module StockFacts.
Import Ledger LedgerSpec StockSpec StoreService LedgerFacts.
Local Open Scope Z_scope.

(** What a successful [removeFromStock] did to the document. *)
Lemma removeFromStock_doc_Ok store id quantityNum store' r :
  removeFromStock_doc store id quantityNum = Ok (store', r) ->
  exists q i e,
    quantityNum = Some q /\ 1 <= q /\
    findByMedID id (stock store) = Some (i, e) /\ q <= quantity e /\
    stock store' =
      (if quantity e - q =? 0 then delete i (stock store)
       else <[i := with_quantity e (quantity e - q)]> (stock store)) /\
    s_id store' = s_id store /\
    billingHistory store' = billingHistory store /\
    r = {| rr_medID := id; removedQuantity := q;
           remainingQuantity := quantity e - q;
           removed := quantity e - q =? 0 |}.
Proof.
  unfold removeFromStock_doc. intros H.
  destruct quantityNum as [q|]; [|done].
  destruct (q <? 1) eqn:Hq; [done|]. apply Z.ltb_ge in Hq.
  destruct (findByMedID id (stock store)) as [[i e]|] eqn:Hfind; [|done].
  destruct (quantity e <? q) eqn:Hlt; [done|]. apply Z.ltb_ge in Hlt.
  injection H as <- <-. exists q, i, e. by repeat split.
Qed.


(** [removeFromStock] does to the ledger what the billing loop does for a
    line with the same medicine and quantity: the same ledger on success,
    and failure for the same reason. *)
Theorem removeFromStock_as_billing_line store id q p :
  1 <= q -> medID_of (p_medData p) = id -> p_quantity p = q ->
  match removeFromStock_doc store id (Some q) with
  | Ok (store', r) =>
      deductLine (stock store) p = Ok (stock store')
      /\ billingHistory store' = billingHistory store
  | Throw e =>
      (e = MEDICINE_NOT_FOUND
       /\ deductLine (stock store) p = Throw (MEDICINE_NOT_FOUND_for id))
      \/ (e = INSUFFICIENT_STOCK
          /\ deductLine (stock store) p = Throw (INSUFFICIENT_STOCK_for id))
  end.
Proof.
  intros Hq Hid Hp. unfold removeFromStock_doc, deductLine.
  apply Z.ltb_ge in Hq. rewrite Hq, Hid, Hp.
  destruct (findByMedID id (stock store)) as [[i e]|]; [|by left].
  destruct (Z.ltb_spec (quantity e) q) as [Hlt|Hge]; [by right|].
  cbn [quantity with_quantity stock billingHistory].
  destruct (Z.eqb_spec (quantity e - q) 0) as [Hz|Hz].
  - rewrite Hz. done.
  - destruct (Z.leb_spec (quantity e - q) 0); [lia|done].
Qed.


(** *** Adding stock *)

(** The entry [addToStock] merges into carries the identifier. *)
Lemma addMatch_Some md ledger i e :
  addMatch md ledger = Some (i, e) ->
  ledger !! i = Some e /\ hasMedID (md_medID md) e.
Proof.
  unfold addMatch. destruct (truthy_string _).
  - intros H. by apply findByMedIDAndBatch_Some in H as (? & ? & _).
  - unfold findByMedID. intros H.
    by apply list_find_Some in H as (? & ? & _).
Qed.

(** Without a match no entry carries the key of the entry to be added. *)
Lemma addMatch_None md ledger :
  addMatch md ledger = None ->
  Forall (fun x => ledgerKey x
                   <> (md_medID md, orS (md_batchNumber md) EmptyString))
         ledger.
Proof.
  unfold addMatch, orS, ledgerKey.
  destruct (truthy_string (md_batchNumber md)) eqn:Hb.
  - destruct (md_batchNumber md) as [b|]; [|done]. simpl.
    unfold findByMedIDAndBatch. intros H.
    apply list_find_None in H.
    eapply Forall_impl; [exact H|].
    intros x Hx [= H1 H2]. by apply Hx.
  - intros H. apply findByMedID_None in H.
    eapply Forall_impl; [exact H|].
    intros x Hx [= H1 H2]. by apply Hx.
Qed.

Lemma lookup_middle_split {A} (l : list A) i x :
  l !! i = Some x ->
  exists before after, l = before ++ x :: after /\ length before = i.
Proof.
  intros H. exists (take i l), (drop (S i) l).
  split; [symmetry; by apply take_drop_middle|].
  apply length_take_le. apply lookup_lt_Some in H. lia.
Qed.

Lemma mergedEntry_quantity md e q :
  quantity (mergedEntry md e q) = Double.addInt (quantity e) q.
Proof. unfold mergedEntry. by destruct (md_expiryDate md). Qed.

Lemma mergedEntry_key md e q : ledgerKey (mergedEntry md e q) = ledgerKey e.
Proof. unfold mergedEntry. by destruct (md_expiryDate md). Qed.

Lemma mergedEntry_hasMedID md e q m :
  hasMedID m (mergedEntry md e q) <-> hasMedID m e.
Proof. unfold mergedEntry. by destruct (md_expiryDate md). Qed.

(** [save] stores the document as it is, when its ledger passes the
    schema. *)
Lemma save_Ok store store' :
  save store = Ok store' -> store' = store /\ validLedger (stock store).
Proof.
  unfold save, validLedger. destruct (forallb validEntry (stock store)) eqn:H;
    [|done].
  intros [= <-]. split; [done|].
  apply Forall_forall. intros e He.
  eapply forallb_forall in H; [exact H|]. by apply list_elem_of_In.
Qed.

Lemma save_valid store : validLedger (stock store) -> save store = Ok store.
Proof.
  unfold save, validLedger. intros H.
  assert (forallb validEntry (stock store) = true) as ->; [|done].
  apply forallb_forall. intros e He.
  rewrite Forall_forall in H. apply H. by apply list_elem_of_In.
Qed.

(** What a successful [addToStock] did to the document. *)
Lemma addToStock_doc_Ok store md quantityNum store' r :
  addToStock_doc store md quantityNum = Ok (store', r) ->
  exists q,
    quantityNum = Some q /\ 1 <= q /\
    s_id store' = s_id store /\
    billingHistory store' = billingHistory store /\
    ar_medID r = md_medID md /\
    validLedger (stock store') /\
    match addMatch md (stock store) with
    | Some (i, e) =>
        stock store' = <[i := mergedEntry md e q]> (stock store)
        /\ ar_action r = updated
        /\ ar_quantity r = Double.addInt (quantity e) q
    | None =>
        exists entry,
          stock store' = stock store ++ [entry]
          /\ medID_of (medData entry) = md_medID md
          /\ batchNumber entry = orS (md_batchNumber md) EmptyString
          /\ quantity entry = q
          /\ ar_action r = added /\ ar_quantity r = q
    end.
Proof.
  unfold addToStock_doc. intros H.
  destruct quantityNum as [q|]; [|done].
  destruct (q <? 1) eqn:Hq; [done|]. apply Z.ltb_ge in Hq.
  exists q. destruct (addMatch md (stock store)) as [[i e]|].
  - match type of H with
    | context [save ?s] => destruct (save s) as [saved|] eqn:Hsave
    end; [|done].
    apply save_Ok in Hsave as [-> Hvalid].
    cbn [mbind Result_bind] in H. injection H as <- <-.
    repeat split; try done.
    cbn [ar_quantity]. fold (mergedEntry md e q). apply mergedEntry_quantity.
  - destruct (md_medID md) as [id|] eqn:Hid; [|done].
    match type of H with
    | context [save ?s] => destruct (save s) as [saved|] eqn:Hsave
    end; [|done].
    apply save_Ok in Hsave as [-> Hvalid].
    cbn [mbind Result_bind] in H. injection H as <- <-.
    repeat split; try done.
    eexists. repeat split; try done.
Qed.

Lemma stockOf_app m l1 l2 : stockOf m (l1 ++ l2) = stockOf m l1 + stockOf m l2.
Proof. unfold stockOf. by rewrite entriesFor_app, sumQuantity_app. Qed.

Lemma stockOf_cons m e l :
  stockOf m (e :: l) = (if decide (hasMedID m e) then quantity e else 0) + stockOf m l.
Proof.
  unfold stockOf. case_decide.
  - by rewrite entriesFor_cons_True.
  - rewrite entriesFor_cons_False by done. lia.
Qed.

(** A successful [addToStock] of a quantity that the quantities of the
    ledger can take exactly (the sums are at most 2^53) adds exactly that
    quantity to the stock of its medicine and to the whole ledger, touches
    no other medicine and not the billing history, saves a ledger that
    passes the schema, and lengthens the ledger by one entry exactly when
    it reports [added]. *)
Theorem addToStock_conservation db email md q r db' store :
  findStoreByEmail db email = Some store ->
  Forall (fun e => safeInteger (quantity e + q)) (stock store) ->
  addToStock db email md (Some q) = (Ok r, db') ->
  exists store',
    db' = <[normalizedEmail email := store']> db /\
    billingHistory store' = billingHistory store /\
    1 <= q /\
    validLedger (stock store') /\
    (forall m, stockOf m (stock store') =
               stockOf m (stock store)
               + (if decide (md_medID md = m) then q else 0)) /\
    sumQuantity (stock store') = sumQuantity (stock store) + q /\
    length (stock store') =
      match ar_action r with
      | added => S (length (stock store))
      | updated => length (stock store)
      end.
Proof.
  unfold addToStock. intros Hstore Hsafe H. rewrite Hstore in H.
  destruct (addToStock_doc store md (Some q)) as [[store' r']|] eqn:Hdoc;
    [|done].
  injection H as -> <-. exists store'.
  apply addToStock_doc_Ok in Hdoc
    as (q' & [= <-] & Hpos & _ & Hhist & _ & Hvalid & Hcase).
  do 4 (split; [done|]).
  destruct (addMatch md (stock store)) as [[i e]|] eqn:Hmatch.
  - destruct Hcase as (-> & -> & _).
    apply addMatch_Some in Hmatch as [Hi He].
    assert (Double.addInt (quantity e) q = quantity e + q) as Hexact.
    { apply DoubleFacts.addInt_exact.
      rewrite Forall_forall in Hsafe. apply Hsafe.
      by eapply list_elem_of_lookup_2. }
    apply lookup_middle_split in Hi as (before & after & -> & <-).
    rewrite insert_middle. split; [|split].
    + intros m. rewrite !stockOf_app, !stockOf_cons, mergedEntry_quantity, Hexact.
      unfold hasMedID in He.
      destruct (decide (hasMedID m (mergedEntry md e q))) as [H1|H1];
        destruct (decide (hasMedID m e)) as [H2|H2];
        try (apply mergedEntry_hasMedID in H1; done);
        try (exfalso; apply H1, mergedEntry_hasMedID; done).
      * unfold hasMedID in H2. rewrite decide_True by congruence. lia.
      * unfold hasMedID in H2. rewrite decide_False by congruence. lia.
    + rewrite !sumQuantity_app. simpl. rewrite mergedEntry_quantity, Hexact. lia.
    + by rewrite !length_app.
  - destruct Hcase as (entry & -> & Hid & _ & Hq & -> & _). split; [|split].
    + intros m. rewrite stockOf_app, stockOf_cons, Hq.
      change (stockOf m []) with 0.
      destruct (decide (hasMedID m entry)) as [H1|H1]; unfold hasMedID in H1;
        rewrite Hid in H1.
      * rewrite decide_True by done. lia.
      * rewrite decide_False by done. lia.
    + rewrite sumQuantity_app. simpl. lia.
    + rewrite length_app. simpl. lia.
Qed.

(** The entry pushed for valid medicine data passes the schema. *)
Lemma pushed_entry_valid md id q :
  md_medID md = Some id -> id <> ""%string -> md_name md <> ""%string ->
  orS (md_medType md) "" ∈ medTypes -> 1 <= q ->
  validEntry
    {| medData := Some
         {| medID := id; name := md_name md;
            secName := orS (md_secName md) EmptyString;
            sellingType := orS (md_sellingType md) EmptyString;
            medType := orS (md_medType md) EmptyString;
            pricePerTab := Some (orQ (md_pricePerTab md)
                                     (orQ (md_pricePerBox md) 0));
            cardPerBox := orZ (md_cardPerBox md) 0 |};
       quantity := q; expiryDate := md_expiryDate md;
       batchNumber := orS (md_batchNumber md) EmptyString;
       purchasePrice := orQ (md_purchasePrice md) 0 |} = true.
Proof.
  intros _ Hid Hname Htype Hq. unfold validEntry, validMedData.
  cbn [medData medID name medType quantity].
  apply String.eqb_neq in Hid, Hname. rewrite Hid, Hname.
  rewrite bool_decide_eq_true_2 by done.
  apply Z.leb_le. lia.
Qed.

(** On a ledger that passes the schema, without empty entries, adding a
    quantity of a medicine with valid data, given without batch and expiry
    date, succeeds, and removing the same quantity of it then succeeds and
    gives back the store document; the quantity is one that the entries
    of the ledger can take exactly. *)
Theorem add_then_remove store md q :
  1 <= q ->
  truthy_string (md_batchNumber md) = false ->
  md_expiryDate md = None ->
  validMedicine md ->
  validLedger (stock store) ->
  Forall (fun e => 0 < quantity e /\ safeInteger (quantity e + q)) (stock store) ->
  exists store1 r1 r2,
    addToStock_doc store md (Some q) = Ok (store1, r1)
    /\ removeFromStock_doc store1 (md_medID md) (Some q) = Ok (store, r2).
Proof.
  intros Hq Hbatch Hexp (id & Hid & Hne & Hname & Htype) Hvalid Hall.
  assert (addMatch md (stock store) = findByMedID (md_medID md) (stock store))
    as Hlegacy by (unfold addMatch; by rewrite Hbatch).
  destruct store as [sid ledger hist]. cbn [stock s_id billingHistory] in *.
  destruct (findByMedID (md_medID md) ledger) as [[i e]|] eqn:Hfind.
  - apply findByMedID_Some in Hfind as (before & after & -> & <- & He & Hb).
    apply Forall_app in Hall as [_ Hall].
    apply Forall_cons in Hall as [[He0 Hsafe] _].
    set (e' := with_quantity e (quantity e + q)).
    assert (addToStock_doc
              {| s_id := sid; stock := before ++ e :: after;
                 billingHistory := hist |} md (Some q)
            = Ok ({| s_id := sid; stock := before ++ e' :: after;
                     billingHistory := hist |},
                  {| ar_medID := md_medID md; ar_name := md_name md;
                     ar_quantity := quantity e + q; ar_action := updated |}))
      as Hadd.
    { unfold addToStock_doc. cbn [stock s_id billingHistory].
      destruct (Z.ltb_spec q 1) as [|_]; [lia|].
      rewrite Hlegacy, Hexp.
      rewrite (DoubleFacts.addInt_exact _ _ Hsafe).
      rewrite insert_middle. fold e'.
      rewrite save_valid; [done|].
      cbn [stock]. unfold validLedger in *.
      apply Forall_app in Hvalid as [Hv1 Hv2].
      apply Forall_cons in Hv2 as [Hve Hv2].
      apply Forall_app. split; [done|]. apply Forall_cons. split; [|done].
      unfold validEntry in *. cbn [medData quantity with_quantity e'].
      apply andb_prop in Hve as [Hmd _]. rewrite Hmd. apply Z.leb_le. lia. }
    eexists _, _, _. split; [exact Hadd|].
    unfold removeFromStock_doc. cbn [stock s_id billingHistory].
    destruct (Z.ltb_spec q 1) as [|_]; [lia|].
    rewrite (findByMedID_app _ before e' after Hb) by done.
    cbn [quantity with_quantity e'].
    destruct (Z.ltb_spec (quantity e + q) q) as [Hlt|_]; [lia|].
    replace (quantity e + q - q) with (quantity e) by lia.
    destruct (Z.eqb_spec (quantity e) 0) as [|_]; [lia|].
    rewrite insert_middle. do 3 f_equal. by destruct e.
  - set (entry :=
      {| medData := Some
           {| medID := id; name := md_name md;
              secName := orS (md_secName md) EmptyString;
              sellingType := orS (md_sellingType md) EmptyString;
              medType := orS (md_medType md) EmptyString;
              pricePerTab := Some (orQ (md_pricePerTab md)
                                       (orQ (md_pricePerBox md) 0));
              cardPerBox := orZ (md_cardPerBox md) 0 |};
         quantity := q; expiryDate := md_expiryDate md;
         batchNumber := orS (md_batchNumber md) EmptyString;
         purchasePrice := orQ (md_purchasePrice md) 0 |}).
    assert (addToStock_doc
              {| s_id := sid; stock := ledger; billingHistory := hist |}
              md (Some q)
            = Ok ({| s_id := sid; stock := ledger ++ [entry];
                     billingHistory := hist |},
                  {| ar_medID := md_medID md; ar_name := md_name md;
                     ar_quantity := q; ar_action := added |}))
      as Hadd.
    { unfold addToStock_doc. cbn [stock s_id billingHistory].
      destruct (Z.ltb_spec q 1) as [|_]; [lia|].
      rewrite Hlegacy, Hid. fold entry.
      rewrite save_valid; [done|].
      cbn [stock]. unfold validLedger in *. apply Forall_app. split; [done|].
      apply Forall_singleton. by apply pushed_entry_valid. }
    eexists _, _, _. split; [exact Hadd|].
    unfold removeFromStock_doc. cbn [stock s_id billingHistory].
    destruct (Z.ltb_spec q 1) as [|_]; [lia|].
    apply findByMedID_None in Hfind.
    rewrite (findByMedID_app _ ledger entry [] Hfind)
      by (unfold hasMedID; by rewrite Hid).
    cbn [quantity entry].
    destruct (Z.ltb_spec q q) as [|_]; [lia|].
    rewrite Z.sub_diag. cbn [Z.eqb].
    rewrite delete_middle, app_nil_r. done.
Qed.

(** *** Keys of the ledger *)

Lemma keysUnique_replace before e e' after :
  ledgerKey e' = ledgerKey e ->
  keysUnique (before ++ e :: after) -> keysUnique (before ++ e' :: after).
Proof. unfold keysUnique. rewrite !fmap_app, !fmap_cons. by intros ->. Qed.

Lemma keysUnique_remove before e after :
  keysUnique (before ++ e :: after) -> keysUnique (before ++ after).
Proof.
  unfold keysUnique. rewrite !fmap_app, fmap_cons.
  rewrite !NoDup_app, NoDup_cons. intros (H1 & H2 & _ & H3).
  split; [done|]. split; [|done].
  intros x Hx Hx'. apply (H2 x Hx). by right.
Qed.

Lemma lineStep_keysUnique ledger p ledger' :
  lineStep ledger p ledger' -> keysUnique ledger -> keysUnique ledger'.
Proof.
  intros [before e after -> _ _ _ | before e after -> _ _ _].
  - by apply keysUnique_replace.
  - apply keysUnique_remove.
Qed.

Lemma deductAll_keysUnique lines : forall ledger ledger',
  deductAll lines ledger = Ok ledger' -> keysUnique ledger -> keysUnique ledger'.
Proof.
  induction lines as [|p lines IH]; intros ledger ledger' H; simpl in H.
  - by injection H as <-.
  - destruct (deductLine ledger p) as [mid|] eqn:Hline; [|done]. simpl in H.
    intros Hu. apply (IH _ _ H).
    eapply lineStep_keysUnique; eauto using deductLine_Ok.
Qed.

(** A ledger in which no two entries share medicine identifier and batch
    number stays so under [addToStock], [removeFromStock] and the
    deductions of [createBilling]. *)
Theorem ledger_keys_stay_unique store :
  keysUnique (stock store) ->
  (forall md quantityNum store' r,
      addToStock_doc store md quantityNum = Ok (store', r) ->
      keysUnique (stock store'))
  /\ (forall id quantityNum store' r,
         removeFromStock_doc store id quantityNum = Ok (store', r) ->
         keysUnique (stock store'))
  /\ (forall now newId billingData store' receipt,
         billingTransaction now newId store billingData = Ok (store', receipt) ->
         keysUnique (stock store')).
Proof.
  intros Hu. split; [|split].
  - intros md qn store' r H.
    apply addToStock_doc_Ok in H as (q & _ & _ & _ & _ & _ & _ & Hcase).
    destruct (addMatch md (stock store)) as [[i e]|] eqn:Hmatch.
    + destruct Hcase as (-> & _).
      apply addMatch_Some in Hmatch as [Hi _].
      apply lookup_middle_split in Hi as (before & after & Hl & <-).
      rewrite Hl in Hu |- *. rewrite insert_middle.
      eapply keysUnique_replace; [apply mergedEntry_key|done].
    + destruct Hcase as (entry & -> & Hid & Hb & _).
      apply addMatch_None in Hmatch.
      unfold keysUnique. rewrite fmap_app. apply NoDup_app.
      split; [done|]. split; [|apply NoDup_singleton].
      intros k Hk Hk'. apply list_elem_of_singleton in Hk'. subst k.
      apply list_elem_of_fmap in Hk as (x & Hx & Hin).
      rewrite Forall_forall in Hmatch. apply (Hmatch x Hin).
      rewrite <- Hx. unfold ledgerKey. by rewrite Hid, Hb.
  - intros id qn store' r H.
    pose proof H as Hok.
    apply removeFromStock_doc_Ok in Hok
      as (q & i & e & -> & _ & Hfind & _ & Hstock & _).
    rewrite Hstock.
    apply findByMedID_Some in Hfind as (before & after & Hl & <- & _).
    rewrite Hl in Hu |- *.
    destruct (_ =? 0).
    + rewrite delete_middle. by eapply keysUnique_remove.
    + rewrite insert_middle. eapply keysUnique_replace; [|exact Hu]. done.
  - intros now newId bd store' receipt H.
    unfold billingTransaction in H.
    destruct (deductAll (products bd) (stock store)) as [ledger'|] eqn:Hloop;
      [|done].
    simpl in H. injection H as <- _. simpl.
    eapply deductAll_keysUnique; eauto.
Qed.

(** *** The record of a sale *)

(** A successful [createBilling] appends one record to the billing history
    of its store, holding the customer, the lines and the amount of the
    request, the store's identifier and the time of the call; it reports
    that record's identifier and the number of lines, and leaves every
    other store as it was. *)
Theorem createBilling_record now newId db email bd receipt db' :
  createBilling now newId db email bd = (Ok receipt, db') ->
  exists store store',
    db !! toLowerCase email = Some store /\
    db' !! toLowerCase email = Some store' /\
    (forall other, other <> toLowerCase email -> db' !! other = db !! other) /\
    s_id store' = s_id store /\
    billingHistory store' =
      billingHistory store ++
      [{| b_id := newId; storeId := s_id store;
          customerName := bd_customerName bd; customerAge := bd_customerAge bd;
          phone := bd_phone bd; productList := products bd;
          totalAmount := bd_totalAmount bd; createdAt := now |}] /\
    receipt = {| billingId := newId; r_customerName := bd_customerName bd;
                 r_totalAmount := bd_totalAmount bd;
                 productCount := length (products bd) |}.
Proof.
  unfold createBilling, billingTransaction. intros H.
  destruct (db !! toLowerCase email) as [store|] eqn:Hstore; [|done].
  destruct (deductAll (products bd) (stock store)) as [ledger'|]; [|done].
  simpl in H. injection H as <- <-.
  eexists store, _. split; [done|].
  split; [apply lookup_insert_eq|].
  split; [intros other Hne; by apply lookup_insert_ne|].
  split; [done|]. split; [done|].
  by rewrite last_snoc.
Qed.

End StockFacts.

(** * Properties of the grouping stage and of the charts *)

Module GroupFacts.
Import Pipeline Analytics.

Section Lookup.
Context {K V : Type} `{EqDecision K}.
Implicit Types (k : K) (v : V) (g : list (K * V)).

Lemma findGroup_cons k k' (v : V) g :
  findGroup k ((k', v) :: g) = if decide (k' = k) then Some v else findGroup k g.
Proof.
  unfold findGroup. simpl. case_decide; [done|].
  by destruct (list_find _ g) as [[i [k'' v'']]|].
Qed.

Lemma findGroup_Some_elem k (v : V) g :
  findGroup k g = Some v -> (k, v) ∈ g.
Proof.
  induction g as [|[k' v'] g IH]; [done|].
  rewrite findGroup_cons. case_decide as Hk.
  - intros [= ->]. subst. by left.
  - intros H. right. auto.
Qed.

Lemma findGroup_None k (g : list (K * V)) :
  findGroup k g = None <-> k ∉ g.*1.
Proof.
  induction g as [|[k' v'] g IH]; [split; [intros _; apply not_elem_of_nil|done]|].
  rewrite findGroup_cons, fmap_cons, not_elem_of_cons. simpl.
  case_decide as Hk; [split; [done|intros [? _]; congruence]|].
  rewrite IH. split; [intros; split; congruence|tauto].
Qed.



End Lookup.

Section Group.
Context {D K V : Type} `{EqDecision K}.
Variable key : D -> K.
Variable init : D -> V.
Variable step : V -> D -> V.
Implicit Types (k : K) (v : V) (g : list (K * V)) (d : D) (docs : list D).

Lemma findGroup_group_step k d g :
  findGroup k (group_step key init step d g)
  = if decide (k = key d)
    then Some (step (default (init d) (findGroup k g)) d)
    else findGroup k g.
Proof.
  induction g as [|[k' v'] g IH]; simpl.
  - rewrite findGroup_cons. by repeat case_decide.
  - destruct (decide (k' = key d)) as [->|Hk'].
    + rewrite !findGroup_cons. by repeat case_decide; subst.
    + rewrite !findGroup_cons, IH.
      destruct (decide (k' = k)) as [->|]; [by rewrite decide_False|done].
Qed.

Lemma group_step_keys d g k :
  k ∈ (group_step key init step d g).*1 <-> k ∈ g.*1 \/ k = key d.
Proof.
  induction g as [|[k' v'] g IH]; simpl.
  - rewrite list_elem_of_singleton. split; [by right|].
    intros [H|H]; [by apply elem_of_nil in H|done].
  - case_decide as Hk'; simpl; rewrite !elem_of_cons.
    + subst. tauto.
    + rewrite IH. tauto.
Qed.

Lemma group_step_NoDup d g :
  NoDup g.*1 -> NoDup (group_step key init step d g).*1.
Proof.
  induction g as [|[k' v'] g IH]; simpl; intros Hnd.
  - apply NoDup_singleton.
  - apply NoDup_cons in Hnd as [Hk' Hnd].
    case_decide as Hk; simpl; apply NoDup_cons.
    + done.
    + split; [|auto]. rewrite group_step_keys. intros [?|?]; done.
Qed.

(** The groups have distinct keys. *)
Lemma group_NoDup docs : NoDup (group key init step docs).*1.
Proof.
  unfold group.
  assert (forall g, NoDup g.*1 ->
            NoDup (foldl (fun groups doc => group_step key init step doc groups)
                         g docs).*1) as H.
  { induction docs as [|d docs IH]; intros g Hg; simpl; [done|].
    apply IH. by apply group_step_NoDup. }
  apply H. constructor.
Qed.

Lemma findGroup_foldl k docs : forall g,
  findGroup k (foldl (fun groups doc => group_step key init step doc groups) g docs)
  = match findGroup k g with
    | Some v => Some (foldl step v (filter (fun d => key d = k) docs))
    | None =>
        match filter (fun d => key d = k) docs with
        | [] => None
        | d0 :: rest => Some (foldl step (init d0) (d0 :: rest))
        end
    end.
Proof.
  induction docs as [|d docs IH]; intros g; simpl.
  - by destruct (findGroup k g).
  - rewrite IH, findGroup_group_step.
    destruct (decide (k = key d)) as [->|Hk].
    + rewrite filter_cons_True by done.
      by destruct (findGroup (key d) g).
    + rewrite filter_cons_False by done. done.
Qed.

(** The group of key [k]: none when no document has the key, and
    otherwise the accumulators folded over the documents with the key, in
    scan order, from the initial value at the first of them. *)
Lemma findGroup_group k docs :
  findGroup k (group key init step docs)
  = match filter (fun d => key d = k) docs with
    | [] => None
    | d0 :: rest => Some (foldl step (init d0) (d0 :: rest))
    end.
Proof. unfold group. by rewrite findGroup_foldl. Qed.

(** Every group holds a document: its key is the key of one. *)
Lemma group_keys k docs :
  k ∈ (group key init step docs).*1 <-> exists d, d ∈ docs /\ key d = k.
Proof.
  destruct (findGroup k (group key init step docs)) as [v|] eqn:Hf.
  - split.
    + intros _. rewrite findGroup_group in Hf.
      destruct (filter _ docs) as [|d0 rest] eqn:Hfil; [done|].
      assert (d0 ∈ filter (fun d => key d = k) docs) as Hin
        by (rewrite Hfil; by left).
      apply list_elem_of_filter in Hin as [? ?]. eauto.
    + intros _. apply findGroup_Some_elem in Hf.
      apply list_elem_of_fmap. by exists (k, v).
  - pose proof Hf as Hnone. apply findGroup_None in Hnone.
    split; [done|]. intros (d & Hd & Hk).
    rewrite findGroup_group in Hf.
    assert (d ∈ filter (fun d => key d = k) docs) as Hin
      by (by apply list_elem_of_filter).
    destruct (filter _ docs); [by apply elem_of_nil in Hin|done].
Qed.

End Group.

Section Sort.
Context {A : Type}.
Variable before : A -> A -> bool.

Lemma sort_insert_Permutation x l : sort_insert before x l ≡ₚ x :: l.
Proof.
  induction l as [|y l IH]; simpl; [done|].
  destruct (before y x); [|done].
  rewrite IH. apply Permutation_swap.
Qed.

Lemma sort_foldl_Permutation l : forall acc,
  foldl (fun sorted x => sort_insert before x sorted) acc l ≡ₚ acc ++ l.
Proof.
  induction l as [|x l IH]; intros acc; simpl; [by rewrite app_nil_r|].
  rewrite IH, sort_insert_Permutation. simpl. apply Permutation_middle.
Qed.

(** [$sort] rearranges the documents. *)
Lemma sort_Permutation l : sort before l ≡ₚ l.
Proof. unfold sort. by rewrite sort_foldl_Permutation. Qed.

End Sort.


End GroupFacts.

(** * Properties of the charts *)

Module ChartFacts.
Import JSDate Pipeline Analytics AnalyticsSpec ChartSpec.
Import DateFacts AggregateFacts GroupFacts.
Local Open Scope Z_scope.




(** *** Counting by a key *)



(** *** The hourly chart *)


(** *** The daily chart *)

Section Zone.
Variable zone : Z -> bool -> Z.

Lemma dailyLoop_O result current end_ :
  dailyLoop zone 0 result current end_
  = if current <=? end_ then None else Some [].
Proof. reflexivity. Qed.

Lemma dailyLoop_S fuel result current end_ :
  dailyLoop zone (S fuel) result current end_
  = if current <=? end_
    then (chartPoint (weekdayMonthDay zone current) (Some (isoDate current))
            (findGroup (localDate zone current) result) ::.)
         <$> dailyLoop zone fuel result
               (setDate zone current (getDate zone current + 1)) end_
    else Some [].
Proof. reflexivity. Qed.

Lemma monthlyLoop_O result current endMonth :
  monthlyLoop zone 0 result current endMonth
  = if current <=? endMonth then None else Some [].
Proof. reflexivity. Qed.

Lemma monthlyLoop_S fuel result current endMonth :
  monthlyLoop zone (S fuel) result current endMonth
  = if current <=? endMonth
    then (chartPoint (monthYear zone current) None
            (findGroup (getFullYear zone current, getMonth zone current + 1) result)
          ::.)
         <$> monthlyLoop zone fuel result
               (setMonth zone current (getMonth zone current + 1)) endMonth
    else Some [].
Proof. reflexivity. Qed.

Lemma setDate_nextDay t : setDate zone t (getDate zone t + 1) = nextDay zone t.
Proof. rewrite setDate_shift, Z.mul_1_l. reflexivity. Qed.

(** Where a calendar day takes the clock an hour further at least, the
    loop of the daily chart ends within its fuel, after one turn for each
    instant of its walk. *)
Lemma dailyLoop_walk result lo end_ :
  (forall t, lo <= t <= end_ -> t + msPerHour <= nextDay zone t) ->
  forall fuel current,
    lo <= current ->
    (end_ - current) / msPerHour + 1 <= Z.of_nat fuel ->
    exists instants,
      dayWalk zone end_ current instants
      /\ dailyLoop zone fuel result current end_
         = Some ((fun t => chartPoint (weekdayMonthDay zone t) (Some (isoDate t))
                             (findGroup (localDate zone t) result))
                 <$> instants).
Proof.
  intros Hprog.
  induction fuel as [|fuel IH]; intros current Hlo Hfuel.
  - assert (end_ < current) as Hlt.
    { destruct (Z.lt_ge_cases end_ current) as [|Hge]; [done|].
      pose proof (Z.div_pos (end_ - current) msPerHour).
      unfold msPerHour in *. lia. }
    exists []. split; [by constructor|].
    rewrite dailyLoop_O. destruct (Z.leb_spec current end_); [lia|done].
  - rewrite dailyLoop_S. destruct (Z.leb_spec current end_) as [Hle|Hgt].
    + rewrite setDate_nextDay.
      pose proof (Hprog current ltac:(lia)) as Hnext.
      assert ((end_ - nextDay zone current) / msPerHour
              <= (end_ - current) / msPerHour - 1) as Hdiv.
      { replace ((end_ - current) / msPerHour - 1)
          with ((end_ - current + (-1) * msPerHour) / msPerHour)
          by (rewrite Z.div_add by (unfold msPerHour; lia); lia).
        apply Z.div_le_mono; unfold msPerHour in *; lia. }
      destruct (IH (nextDay zone current)) as (rest & Hwalk & ->);
        [unfold msPerHour in *; lia|lia|].
      exists (current :: rest). split; [by constructor|done].
    + exists []. split; [by constructor|done].
Qed.




(** The length of the walk, where the readings it visits are no readings
    that a clock change skips, and come before or after the end of the
    window on the clock as they do in time. *)
Lemma dayWalk_length start end_ :
  LocalTime zone start <= LocalTime zone end_ ->
  (forall i, 1 <= i <= (LocalTime zone end_ - LocalTime zone start) / msPerDay + 1 ->
     let reading := LocalTime zone start + i * msPerDay in
     LocalTime zone (UTC zone reading) = reading
     /\ (UTC zone reading <= end_ <-> reading <= LocalTime zone end_)) ->
  forall (n : nat) i instants,
    1 <= i ->
    i + Z.of_nat n = (LocalTime zone end_ - LocalTime zone start) / msPerDay + 1 ->
    dayWalk zone end_ (UTC zone (LocalTime zone start + i * msPerDay)) instants ->
    length instants = n.
Proof.
  intros Hlocal Hreg.
  set (K := (LocalTime zone end_ - LocalTime zone start) / msPerDay) in *.
  assert (0 <= K) as HK by (apply Z.div_pos; unfold msPerDay; lia).
  assert (forall i, LocalTime zone start + i * msPerDay <= LocalTime zone end_
                    <-> i <= K) as Hcount.
  { intros i. subst K. split; intros H.
    - apply Z.div_le_lower_bound; unfold msPerDay in *; lia.
    - pose proof (Z.mul_div_le (LocalTime zone end_ - LocalTime zone start)
                    msPerDay ltac:(unfold msPerDay; lia)).
      unfold msPerDay in *. nia. }
  induction n as [|n IH]; intros i instants Hi Hn Hwalk.
  - destruct (Hreg i ltac:(lia)) as [_ Hord]. cbv zeta in Hord.
    inversion Hwalk as [t Hlt|t rest Hle _]; subst; [done|].
    apply Hord, Hcount in Hle. lia.
  - destruct (Hreg i ltac:(lia)) as [Hround Hord]. cbv zeta in Hround, Hord.
    inversion Hwalk as [t Hlt|t rest Hle Hrest]; subst.
    + exfalso. assert (i <= K) as Hik by lia.
      apply Hcount, Hord in Hik. lia.
    + simpl. f_equal. apply (IH (i + 1)); [lia|lia|].
      unfold nextDay in Hrest. rewrite Hround in Hrest.
      by replace (LocalTime zone start + (i + 1) * msPerDay)
        with (LocalTime zone start + i * msPerDay + msPerDay) by lia.
Qed.

(** The daily chart of a window has one point for each local calendar day
    the window touches when the window ends at a time of day, on the
    local clock, not before the one it starts at, and one point less, the
    last day missing, when it ends at an earlier time of day. This holds
    where a calendar day takes the clock an hour further at least, the
    readings of the walk are none that a clock change skips, and they come
    before or after the end of the window on the clock as they do in
    time. *)
Theorem daily_chart_day_count db email start end_ :
  start <= end_ ->
  LocalTime zone start <= LocalTime zone end_ ->
  (forall t, start <= t <= end_ -> t + msPerHour <= nextDay zone t) ->
  (forall i, 1 <= i <= (LocalTime zone end_ - LocalTime zone start) / msPerDay + 1 ->
     let reading := LocalTime zone start + i * msPerDay in
     LocalTime zone (UTC zone reading) = reading
     /\ (UTC zone reading <= end_ <-> reading <= LocalTime zone end_)) ->
  Z.of_nat (length (getDailyBreakdownAggregated zone db email start end_))
  = calendarDayCount zone start end_
    - (if TimeWithinDay (LocalTime zone end_) <? TimeWithinDay (LocalTime zone start)
       then 1 else 0).
Proof.
  intros Hle Hlocal Hprog Hreg. unfold getDailyBreakdownAggregated.
  set (result := sort _ _).
  destruct (dailyLoop_walk result start end_ Hprog (dailyFuel start end_) start)
    as (instants & Hwalk & ->); [lia| |].
  { unfold dailyFuel.
    destruct (Z.le_gt_cases 0 ((end_ - start) / msPerHour + 1)); lia. }
  cbn [default from_option id]. rewrite length_fmap.
  set (K := (LocalTime zone end_ - LocalTime zone start) / msPerDay) in *.
  assert (0 <= K) as HK by (apply Z.div_pos; unfold msPerDay; lia).
  assert (length instants = S (Z.to_nat K)) as ->.
  { inversion Hwalk as [t Hlt|t rest _ Hrest]; subst; [lia|].
    simpl. f_equal.
    apply (dayWalk_length start end_ Hlocal Hreg (Z.to_nat K) 1); [lia|lia|].
    unfold nextDay in Hrest.
    by replace (LocalTime zone start + 1 * msPerDay)
      with (LocalTime zone start + msPerDay) by lia. }
  unfold calendarDayCount. subst K.
  pose proof (Day_TimeWithinDay (LocalTime zone start)) as Hs.
  pose proof (Day_TimeWithinDay (LocalTime zone end_)) as He.
  pose proof (TimeWithinDay_range (LocalTime zone start)) as Hts.
  pose proof (TimeWithinDay_range (LocalTime zone end_)) as Hte.
  set (ls := LocalTime zone start) in *. set (le := LocalTime zone end_) in *.
  set (ds := Day ls) in *. set (de := Day le) in *.
  set (ts := TimeWithinDay ls) in *. set (te := TimeWithinDay le) in *.
  assert (le - ls = (de - ds) * msPerDay + (te - ts)) as Hdiff by lia.
  rewrite Hdiff in *.
  destruct (Z.ltb_spec te ts) as [Hlt|Hge].
  - assert (((de - ds) * msPerDay + (te - ts)) / msPerDay = de - ds - 1) as Hq.
    { symmetry. apply (Z.div_unique _ _ _ (te - ts + msPerDay));
        unfold msPerDay in *; lia. }
    rewrite Hq in *. lia.
  - assert (((de - ds) * msPerDay + (te - ts)) / msPerDay = de - ds) as Hq.
    { symmetry. apply (Z.div_unique _ _ _ (te - ts)); unfold msPerDay in *; lia. }
    rewrite Hq in *. lia.
Qed.

End Zone.

(** *** The monthly chart *)

Section Fixed.
Variable tza : Z.

(** The loop of the monthly chart ends within its fuel: each turn moves
    the date on by a month, which is at least 28 days. *)
Lemma monthlyLoop_run result endMonth : forall fuel current,
  (endMonth - current) / (28 * msPerDay) + 1 <= Z.of_nat fuel ->
  exists points,
    monthlyLoop (fixedZone tza) fuel result current endMonth = Some points
    /\ Z.of_nat (length points)
       <= Z.max 0 ((endMonth - current) / (28 * msPerDay) + 1)
    /\ (current <= endMonth -> points <> []).
Proof.
  induction fuel as [|fuel IH]; intros current Hfuel.
  - assert (endMonth < current) as Hlt.
    { destruct (Z.lt_ge_cases endMonth current) as [|Hge]; [done|].
      pose proof (Z.div_pos (endMonth - current) (28 * msPerDay)).
      unfold msPerDay in *. lia. }
    exists []. rewrite monthlyLoop_O. destruct (Z.leb_spec current endMonth); [lia|].
    repeat split; [simpl; lia|lia].
  - rewrite monthlyLoop_S. destruct (Z.leb_spec current endMonth) as [Hle|Hgt].
    + rewrite (setMonth_next_fixed (fixedZone tza) tza (fun _ _ => eq_refl)).
      pose proof (daysInMonthOf_range (fixedZone tza) current) as Hdim.
      assert (0 <= (endMonth - current) / (28 * msPerDay)) as Hq.
      { apply Z.div_pos; unfold msPerDay; lia. }
      assert ((endMonth - (current + daysInMonthOf (fixedZone tza) current * msPerDay))
                / (28 * msPerDay)
              <= (endMonth - current) / (28 * msPerDay) - 1) as Hstep.
      { replace ((endMonth - current) / (28 * msPerDay) - 1)
          with ((endMonth - current + (-1) * (28 * msPerDay)) / (28 * msPerDay)).
        - apply Z.div_le_mono; unfold msPerDay in *; lia.
        - rewrite Z.div_add by (unfold msPerDay; lia). lia. }
      destruct (IH (current + daysInMonthOf (fixedZone tza) current * msPerDay))
        as (points & -> & Hlen & _); [lia|].
      eexists. split; [reflexivity|]. split; [|done].
      simpl length. lia.
    + exists []. repeat split; [simpl; lia|lia].
Qed.

Lemma monthlyLoop_isoDay result endMonth : forall fuel current points,
  monthlyLoop (fixedZone tza) fuel result current endMonth = Some points ->
  Forall (fun point => isoDay point = None) points.
Proof.
  induction fuel as [|fuel IH]; intros current points;
    [rewrite monthlyLoop_O|rewrite monthlyLoop_S];
    destruct (current <=? endMonth); try done; try (by intros [= <-]).
  destruct (monthlyLoop (fixedZone tza) fuel result _ endMonth)
    as [rest|] eqn:Hrest; [|done].
  intros [= <-]. constructor; [done|]. eapply IH; eauto.
Qed.

(** Without clock changes, the monthly chart is what its loop computes:
    the loop ends, with at least one point when the month of the start is
    not after the month of the end, and with no more points than there are
    spans of 28 days from the first of the one month to the first of the
    other. *)
Theorem monthly_chart_terminates db email start end_ :
  let current :=
    newDate (fixedZone tza) (getFullYear (fixedZone tza) start)
            (getMonth (fixedZone tza) start) 1 in
  let endMonth :=
    newDate (fixedZone tza) (getFullYear (fixedZone tza) end_)
            (getMonth (fixedZone tza) end_) 1 in
  let chart :=
    getMonthlyBreakdownAggregated (fixedZone tza) db email start end_ in
  (exists fuel result,
      monthlyLoop (fixedZone tza) fuel result current endMonth = Some chart)
  /\ Z.of_nat (length chart)
     <= Z.max 0 ((endMonth - current) / (28 * msPerDay) + 1)
  /\ (current <= endMonth -> chart <> [])
  /\ Forall (fun point => isoDay point = None) chart.
Proof.
  intros current endMonth chart. subst chart.
  unfold getMonthlyBreakdownAggregated. fold current endMonth.
  set (result := sort _ _).
  destruct (monthlyLoop_run result endMonth (monthlyFuel current endMonth) current)
    as (points & Hrun & Hlen & Hne).
  { unfold monthlyFuel.
    destruct (Z.le_gt_cases current endMonth) as [Hle|Hgt].
    - assert ((endMonth - current) / (28 * msPerDay)
              <= (endMonth - current) / msPerDay) as Hdiv
        by (apply Z.div_le_compat_l; unfold msPerDay; lia).
      assert (0 <= (endMonth - current) / msPerDay)
        by (apply Z.div_pos; unfold msPerDay; lia).
      lia.
    - assert ((endMonth - current) / (28 * msPerDay) < 0); [|lia].
      apply Z.div_lt_upper_bound; unfold msPerDay; lia. }
  rewrite Hrun. cbn [default from_option id].
  split; [eauto|]. split; [done|]. split; [done|].
  eapply monthlyLoop_isoDay; eauto.
Qed.

End Fixed.

End ChartFacts.

(** * Properties of the named periods *)

Module PeriodFacts.
Import JSDate Analytics AnalyticsSpec DateFacts WindowFacts.
Local Open Scope Z_scope.

Lemma DayWithinYear_nonneg t : 0 <= DayWithinYear t.
Proof.
  unfold DayWithinYear, YearFromTime.
  pose proof (YearFromDay_spec (Day t)). lia.
Qed.

Lemma InLeapYear_cases t : InLeapYear t = 0 \/ InLeapYear t = 1.
Proof. unfold InLeapYear. destruct (_ =? 366); auto. Qed.

(** The day of the month is at least 1. *)
Lemma DateFromTime_pos t : 1 <= DateFromTime t.
Proof.
  unfold DateFromTime, MonthFromTime, monthOfYearDay.
  pose proof (DayWithinYear_nonneg t).
  destruct (InLeapYear_cases t) as [-> | ->];
    repeat (match goal with |- context [if ?a <? ?b then _ else _] =>
              destruct (Z.ltb_spec a b); [simpl; lia|] end); simpl; lia.
Qed.

Lemma WeekDay_range t : 0 <= WeekDay t <= 6.
Proof. unfold WeekDay. pose proof (Z.mod_pos_bound (Day t + 4) 7). lia. Qed.

Lemma Day_bounds t : Day t * msPerDay <= t < Day t * msPerDay + msPerDay.
Proof.
  pose proof (Day_TimeWithinDay t). unfold TimeWithinDay, msPerDay in *.
  pose proof (Z.mod_pos_bound t 86400000). lia.
Qed.

Section Fixed.
Variable tza : Z.

Lemma setDate_back_offset t k :
  setDate (fixedZone tza) t (getDate (fixedZone tza) t - k) = t - k * msPerDay.
Proof. by apply (setDate_back_fixed (fixedZone tza) tza). Qed.

(** [setHours(0, 0, 0, 0)] and [setHours(23, 59, 59, 999)] are the first
    and the last millisecond of the local day. *)
Lemma setHours_start t :
  setHours (fixedZone tza) t 0 0 0 0 = Day (t + tza) * msPerDay - tza.
Proof.
  rewrite (setHours_fixed (fixedZone tza) tza) by done. unfold MakeTime. lia.
Qed.

Lemma setHours_end t :
  setHours (fixedZone tza) t 23 59 59 999
  = Day (t + tza) * msPerDay + (msPerDay - 1) - tza.
Proof. by rewrite (setHours_fixed (fixedZone tza) tza). Qed.

Lemma newDate_first_of_month t :
  100 <= getFullYear (fixedZone tza) t ->
  newDate (fixedZone tza) (getFullYear (fixedZone tza) t) (getMonth (fixedZone tza) t) 1
  = (Day (t + tza) - (getDate (fixedZone tza) t - 1)) * msPerDay - tza.
Proof.
  intros Hy. unfold newDate, getFullYear, getMonth, getDate, LocalTime, fixedZone in *.
  destruct (Z.leb_spec 0 (YearFromTime (t + tza)));
    destruct (Z.leb_spec (YearFromTime (t + tza)) 99); simpl; try lia.
  unfold UTC, MakeDate, fixedZone.
  pose proof (MakeDay_of_time (t + tza) (1 - DateFromTime (t + tza))) as H1.
  replace (DateFromTime (t + tza) + (1 - DateFromTime (t + tza))) with 1 in H1
    by lia.
  rewrite H1. lia.
Qed.

Lemma newDate_first_of_year t :
  100 <= getFullYear (fixedZone tza) t ->
  newDate (fixedZone tza) (getFullYear (fixedZone tza) t) 0 1
  = DayFromYear (getFullYear (fixedZone tza) t) * msPerDay - tza.
Proof.
  intros Hy. unfold newDate.
  destruct (Z.leb_spec 0 (getFullYear (fixedZone tza) t));
    destruct (Z.leb_spec (getFullYear (fixedZone tza) t) 99); simpl; try lia.
  unfold UTC, MakeDate, fixedZone. rewrite MakeDay_in_year by lia. simpl. lia.
Qed.

(** Without clock changes, the window of [today], [thisWeek], [thisMonth]
    and [thisYear] holds the time of the call, for a call in the year 100
    or later (the [Date] constructor reads a year from 0 to 99 as
    1900 + year). *)
Theorem window_holds_call_time now period customStart customEnd win :
  period ∈ ["today"; "thisWeek"; "thisMonth"; "thisYear"]%string ->
  100 <= getFullYear (fixedZone tza) now ->
  periodWindow (fixedZone tza) now period customStart customEnd = Ok win ->
  startDate win <= now <= endDate win.
Proof.
  intros Hperiod Hyear Hwin.
  pose proof (Day_bounds (now + tza)) as Hday.
  unfold periodWindow in Hwin.
  repeat (apply elem_of_cons in Hperiod as [->|Hperiod]);
    [| | | |by apply elem_of_nil in Hperiod];
    cbn [String.eqb Ascii.eqb Bool.eqb] in Hwin; injection Hwin as <-;
    cbn [startDate endDate]; rewrite ?setHours_start, ?setHours_end.
  - lia.
  - rewrite setDate_back_offset.
    pose proof (WeekDay_range (now + tza)) as Hw.
    unfold getDay, LocalTime, fixedZone.
    pose proof (Day_bounds (now - WeekDay (now + tza) * msPerDay + tza)).
    unfold msPerDay in *. lia.
  - rewrite newDate_first_of_month by done.
    pose proof (DateFromTime_pos (now + tza)) as Hd.
    unfold getDate, LocalTime, fixedZone. unfold msPerDay in *. nia.
  - rewrite newDate_first_of_year by done.
    pose proof (YearFromDay_spec (Day (now + tza))) as Hy.
    unfold getFullYear, YearFromTime, LocalTime, fixedZone. unfold msPerDay in *. nia.
Qed.

(** Without clock changes, for [today], [yesterday] and [thisMonth] the
    comparison window ends on the millisecond before the current window
    starts. *)
Theorem comparison_window_adjacent now period customStart customEnd win :
  period ∈ ["today"; "yesterday"; "thisMonth"]%string ->
  periodWindow (fixedZone tza) now period customStart customEnd = Ok win ->
  comparisonEnd win + 1 = startDate win.
Proof.
  intros Hperiod Hwin. unfold periodWindow in Hwin.
  repeat (apply elem_of_cons in Hperiod as [->|Hperiod]);
    [| | |by apply elem_of_nil in Hperiod];
    cbn [String.eqb Ascii.eqb Bool.eqb] in Hwin; injection Hwin as <-;
    cbn [startDate comparisonEnd].
  - rewrite setDate_back_offset, setHours_start, setHours_end. lia.
  - rewrite setDate_back_offset, !setHours_start, setHours_end.
    unfold Day at 1.
    replace (Day (setDate (fixedZone tza) now (getDate (fixedZone tza) now - 1)
                  + tza) * msPerDay - tza + tza)
      with (Day (setDate (fixedZone tza) now (getDate (fixedZone tza) now - 1)
                 + tza) * msPerDay) by lia.
    rewrite Z.div_mul by (unfold msPerDay; lia). lia.
  - rewrite setHours_end. unfold newDate, UTC, MakeDate, fixedZone.
    set (yr := if _ && _ then _ else _).
    rewrite !Z.add_0_r, Z.sub_add, Day_of_midnight. unfold MakeDay. lia.
Qed.

End Fixed.
End PeriodFacts.

(** * Properties of a report *)

Module ReportFacts.
Import JSDate Pipeline Analytics AnalyticsSpec.
Import AggregateFacts ServiceFacts.
Local Open Scope Z_scope.

Section Zone.
Variable zone : Z -> bool -> Z.

(** The growth figures [getSalesAnalytics] derives from the two period
    aggregates (lines 334-340, 350-353). *)
Lemma getSalesAnalytics_miss now atLookup atStore email period customStart
    customEnd (w : World) win :
  periodWindow zone now period customStart customEnd = Ok win ->
  let key := getCacheKey email (startDate win) (endDate win) in
  (getFromCache atLookup key (analyticsCache w)).1 = None ->
  exists r,
    getSalesAnalytics zone now atLookup atStore email period customStart customEnd w
    = (Ok r,
       {| db := db w;
          analyticsCache :=
            setCache atStore key r (getFromCache atLookup key (analyticsCache w)).2;
          aggregations := 3 + aggregations w |})
    /\ freshAnalytics zone (db w) email period win r
    /\ percentage (growth r) =
       (let currentPeriod :=
          getSalesForPeriodAggregated (db w) email (startDate win) (endDate win) in
        let comparisonPeriod :=
          getSalesForPeriodAggregated (db w) email
                                      (comparisonStart win) (comparisonEnd win) in
        if Qpositive (totalSales comparisonPeriod)
        then Double.Math_round
               (Double.mul
                  (Double.div
                     (Double.sub (totalSales currentPeriod)
                                 (totalSales comparisonPeriod))
                     (totalSales comparisonPeriod))
                  100)
        else 0)
    /\ isPositive (growth r) = (0 <=? percentage (growth r)).
Proof.
  intros Hwin key Hmiss.
  unfold getSalesAnalytics. rewrite Hwin. fold key.
  destruct (getFromCache atLookup key (analyticsCache w)) as [cached cache1].
  cbn [fst snd] in *. subst cached.
  unfold aggregate, withCache, freshAnalytics.
  cbn [db analyticsCache aggregations].
  destruct (w_chartType win) eqn:Hchart;
    (eexists; split; [reflexivity|];
     cbn [db analyticsCache aggregations current comparison chartType
          chartData Analytics.period growth percentage isPositive];
     rewrite ?Hchart; done).
Qed.

(** A store without sales in the comparison window gets a growth of 0,
    shown as positive, when its report is computed. *)
Theorem growth_without_comparison_sales now atLookup atStore email period
    customStart customEnd (w : World) win :
  periodWindow zone now period customStart customEnd = Ok win ->
  analyticsCache w !! getCacheKey email (startDate win) (endDate win) = None ->
  recordsIn (historyOf (db w) email) (comparisonStart win) (comparisonEnd win) = [] ->
  exists r w',
    getSalesAnalytics zone now atLookup atStore email period customStart customEnd w
    = (Ok r, w')
    /\ growth r = {| percentage := 0; isPositive := true |}.
Proof.
  intros Hwin Hcold Hnone.
  destruct (getSalesAnalytics_miss now atLookup atStore email period customStart
              customEnd w win Hwin) as (r & Hrun & _ & Hpct & Hpos).
  { unfold getFromCache. by rewrite Hcold. }
  exists r. eexists. split; [exact Hrun|].
  assert (percentage (growth r) = 0) as Hzero.
  { rewrite Hpct. cbv zeta.
    assert (Qpositive (totalSales (getSalesForPeriodAggregated (db w) email
                         (comparisonStart win) (comparisonEnd win))) = false)
      as ->; [|done].
    unfold getSalesForPeriodAggregated.
    rewrite matchCreatedAt_window, Hnone. reflexivity. }
  destruct (growth r) as [pct pos]. cbn [percentage isPositive] in Hzero, Hpos.
  rewrite Hpos, Hzero. reflexivity.
Qed.

(** A report computed for a window is served again, as it is and without
    any aggregation, to every call for the same store and window made
    less than five minutes after the report was stored. *)
Theorem repeated_call_is_served_from_cache now1 now2 atLookup1 atStore1
    atLookup2 atStore2 email period customStart customEnd (w : World) win r w1 :
  periodWindow zone now1 period customStart customEnd = Ok win ->
  periodWindow zone now2 period customStart customEnd = Ok win ->
  analyticsCache w !! getCacheKey email (startDate win) (endDate win) = None ->
  getSalesAnalytics zone now1 atLookup1 atStore1 email period customStart customEnd w
  = (Ok r, w1) ->
  atLookup2 - atStore1 < CACHE_TTL ->
  getSalesAnalytics zone now2 atLookup2 atStore2 email period customStart customEnd w1
  = (Ok r, w1)
  /\ aggregations w1 = (3 + aggregations w)%nat.
Proof.
  intros Hwin1 Hwin2 Hcold Hfirst Hsoon.
  destruct (getSalesAnalytics_miss now1 atLookup1 atStore1 email period customStart
              customEnd w win Hwin1) as (r' & Hrun & _).
  { unfold getFromCache. by rewrite Hcold. }
  rewrite Hrun in Hfirst. injection Hfirst as -> <-.
  split; [|done].
  unfold getSalesAnalytics. rewrite Hwin2.
  cbn [analyticsCache].
  rewrite (getFromCache_entry atLookup2 _ _ r atStore1)
    by apply setCache_lookup.
  apply Z.ltb_lt in Hsoon. rewrite Hsoon. reflexivity.
Qed.

(** [getSalesAnalytics] never writes to the stores, and of the cache it
    touches only the entry of its own store and window; when it rejects
    the period it changes nothing. [getTopSellingMedicines] leaves stores
    and cache as they are. *)
Theorem analytics_frame now atLookup atStore email period customStart customEnd
    limit (w : World) :
  let w' := (getSalesAnalytics zone now atLookup atStore email period
                               customStart customEnd w).2 in
  let w'' := (getTopSellingMedicines zone now email period limit w).2 in
  db w' = db w
  /\ match periodWindow zone now period customStart customEnd with
     | Ok win =>
         forall key, key <> getCacheKey email (startDate win) (endDate win) ->
                     analyticsCache w' !! key = analyticsCache w !! key
     | Throw _ => w' = w
     end
  /\ db w'' = db w /\ analyticsCache w'' = analyticsCache w.
Proof.
  cbv zeta. unfold getSalesAnalytics.
  destruct (periodWindow zone now period customStart customEnd) as [win|e];
    [|by repeat split].
  set (key := getCacheKey email (startDate win) (endDate win)).
  assert (forall key', key' <> key ->
            (getFromCache atLookup key (analyticsCache w)).2 !! key'
            = analyticsCache w !! key') as Hget.
  { intros key' Hne. by apply getFromCache_lookup_ne. }
  destruct (getFromCache atLookup key (analyticsCache w)) as [[cached|] cache1];
    cbn [snd] in Hget.
  - repeat split; try done.
  - unfold aggregate, withCache. cbn [db analyticsCache aggregations].
    destruct (w_chartType win); cbn [snd db analyticsCache];
      (split; [done|]; split; [|by split]);
      intros key' Hne; rewrite setCache_lookup_ne by done; by apply Hget.
Qed.

End Zone.
End ReportFacts.

(** * Properties of the top-selling list *)

Module TopSellingFacts.
Import Pipeline Analytics AnalyticsSpec TopSellingSpec.
Import AggregateFacts GroupFacts DoubleFacts.
Local Open Scope Z_scope.

(** *** Sorting *)

Section Sorted.
Context {A : Type}.
Variable before : A -> A -> bool.
Hypothesis before_total : forall a b, before a b = false -> before b a = true.
Hypothesis before_trans :
  forall a b c, before a b = true -> before b c = true -> before a c = true.

Lemma sort_insert_sorted x l :
  StronglySorted (fun a b => before a b = true) l ->
  StronglySorted (fun a b => before a b = true) (sort_insert before x l).
Proof.
  induction 1 as [|y l Hl IH Hy]; simpl.
  - repeat constructor.
  - destruct (before y x) eqn:Hyx.
    + constructor; [done|].
      rewrite sort_insert_Permutation. by constructor.
    + apply before_total in Hyx. constructor; [by constructor|].
      constructor; [done|].
      eapply Forall_impl; [exact Hy|]. intros z Hz. by eapply before_trans.
Qed.

(** [$sort] puts the documents in order. *)
Lemma sort_sorted l :
  StronglySorted (fun a b => before a b = true) (sort before l).
Proof.
  unfold sort.
  assert (forall acc,
            StronglySorted (fun a b => before a b = true) acc ->
            StronglySorted (fun a b => before a b = true)
              (foldl (fun sorted x => sort_insert before x sorted) acc l)) as H.
  { induction l as [|x l IH]; intros acc Hacc; simpl; [done|].
    apply IH. by apply sort_insert_sorted. }
  apply H. constructor.
Qed.

End Sorted.

Lemma StronglySorted_take {A} (R : A -> A -> Prop) n l :
  StronglySorted R l -> StronglySorted R (take n l).
Proof.
  intros H. rewrite <- (take_drop n l) in H.
  by apply StronglySorted_app_1_l in H.
Qed.

(** *** Rounding to cents *)

Lemma mongoRound2_comp x y : (x == y)%Q -> mongoRound2 x = mongoRound2 y.
Proof.
  intros H. unfold mongoRound2.
  rewrite (roundHalfEven_comp (x * 100) (y * 100)); [done|by rewrite H].
Qed.

(** Rounding keeps the order. *)
Lemma mongoRound2_le x y : (x <= y)%Q -> (mongoRound2 x <= mongoRound2 y)%Q.
Proof.
  intros Hle. unfold mongoRound2. apply double_le.
  assert (x * 100 <= y * 100)%Q as Hy by lra.
  apply roundHalfEven_le in Hy.
  apply Qmult_le_compat_r; [|done].
  by rewrite <- Zle_Qle.
Qed.


(** *** The pipeline *)




Section Zone.
Variable zone : Z -> bool -> Z.

(** The top-selling list has at most [limit] entries, each for a medicine
    identifier, different from entry to entry, and in the order of their
    revenue, the largest first. *)
Theorem top_selling_shape now email period limit (w : World) :
  exists result,
    (getTopSellingMedicines zone now email period limit w).1 = Ok result
    /\ (length result <= limit)%nat
    /\ Forall (fun t => is_Some (ts_id t) /\ ts_medID t = ts_id t) result
    /\ NoDup (ts_id <$> result)
    /\ StronglySorted (fun a b => (ts_revenue b <= ts_revenue a)%Q) result.
Proof.
  unfold getTopSellingMedicines, aggregate. cbn [fst].
  eexists. split; [reflexivity|]. unfold topSellingPipeline.
  set (groups := group _ _ _ _).
  set (before := fun a b : option string * SellerAcc =>
                   Qle_bool (a_revenue b.2) (a_revenue a.2)).
  set (named := filter _ groups).
  assert (sort before named ≡ₚ named) as Hperm by apply sort_Permutation.
  assert (NoDup groups.*1) as Hnd by apply group_NoDup.
  split; [|split; [|split]].
  - rewrite length_fmap, length_take. lia.
  - apply Forall_fmap, Forall_forall. intros g Hg. simpl.
    split; [|done].
    apply subseteq_take in Hg. rewrite Hperm in Hg.
    apply list_elem_of_filter in Hg as [Hg _].
    by destruct (g.1).
  - rewrite <- list_fmap_compose.
    change (ts_id ∘ _) with (fst : option string * SellerAcc -> option string).
    eapply sublist_NoDup; [|apply fmap_sublist, sublist_take].
    rewrite Hperm. eapply sublist_NoDup; [exact Hnd|].
    apply fmap_sublist, sublist_filter.
  - eapply StronglySorted_fmap;
      [|apply StronglySorted_take, (sort_sorted before)].
    + intros a b Hab. simpl. apply mongoRound2_le. by apply Qle_bool_iff.
    + intros a b Hab. unfold before in *.
      destruct (Qle_bool (a_revenue a.2) (a_revenue b.2)) eqn:Hba; [done|].
      exfalso.
      assert (~ (a_revenue b.2 <= a_revenue a.2)%Q) as H1
        by (rewrite <- Qle_bool_iff; congruence).
      assert (~ (a_revenue a.2 <= a_revenue b.2)%Q) as H2
        by (rewrite <- Qle_bool_iff; congruence).
      lra.
    + intros a b c. unfold before. rewrite !Qle_bool_iff. lra.
Qed.


End Zone.
End TopSellingFacts.

(** * Properties of the paginated queries *)

Module QueryFacts.
Import Ledger StoreService Pipeline Analytics StoreQueries.
Import WindowFacts GroupFacts TopSellingFacts.
Local Open Scope Z_scope.

(** A page from the first on, of a positive size, is a run of [limit]
    elements of the list. *)
Lemma slice_page {A} (l : list A) page limit :
  1 <= page -> 1 <= limit ->
  slice l ((page - 1) * limit) ((page - 1) * limit + limit)
  = take (Z.to_nat limit) (drop (Z.to_nat ((page - 1) * limit)) l).
Proof.
  intros Hp Hl. unfold slice.
  set (start := (page - 1) * limit).
  assert (0 <= start) as Hs by (subst start; nia).
  destruct (Z.ltb_spec start 0) as [|_]; [lia|].
  destruct (Z.ltb_spec (start + limit) 0) as [|_]; [lia|].
  destruct (Z.le_gt_cases (Z.of_nat (length l)) start) as [Hbig|Hsmall].
  - rewrite Z.min_r by lia. rewrite !drop_ge by lia. by rewrite !take_nil.
  - rewrite (Z.min_l start) by lia.
    destruct (Z.le_gt_cases (start + limit) (Z.of_nat (length l))).
    + rewrite Z.min_l by lia. f_equal. lia.
    + rewrite Z.min_r by lia.
      rewrite !take_ge; [done| |]; rewrite length_drop; lia.
Qed.

Lemma chunks_concat {A} (n : nat) : forall (pages : nat) (l : list A),
  (0 < n)%nat -> (length l <= pages * n)%nat ->
  concat ((fun p => take n (drop (p * n) l)) <$> seq 0 pages) = l.
Proof.
  induction pages as [|pages IH]; intros l Hn Hlen.
  - destruct l; [done|simpl in Hlen; lia].
  - change (seq 0 (S pages)) with (0%nat :: seq 1 pages).
    rewrite fmap_cons, <- fmap_S_seq, <- list_fmap_compose. simpl concat.
    rewrite drop_0.
    rewrite (list_fmap_ext _ (fun p => take n (drop (p * n) (drop n l)))
                           (seq 0 pages)).
    + rewrite IH by (try done; rewrite length_drop; lia). apply take_drop.
    + intros _ p _. simpl. rewrite drop_drop. do 2 f_equal; lia.
Qed.

(** The pages of a list, from the first to the last, put one after the
    other give back the list; a page has more after it exactly when it is
    not the last. *)
Lemma paginate_pages {A} (l : list A) limit :
  1 <= limit ->
  let n := ceilDiv (Z.of_nat (length l)) limit in
  (forall page, 1 <= page ->
      total (paginate l page limit) = Z.of_nat (length l)
      /\ totalPages (paginate l page limit) = Some n
      /\ items (paginate l page limit)
         = take (Z.to_nat limit) (drop (Z.to_nat ((page - 1) * limit)) l)
      /\ (hasMore (paginate l page limit) = true <-> page < n))
  /\ concat ((fun page => items (paginate l page limit)) <$> seqZ 1 n) = l.
Proof.
  intros Hl n. split.
  - intros page Hp. unfold paginate.
    cbn [total totalPages items hasMore].
    destruct (Z.eqb_spec limit 0) as [|_]; [lia|].
    rewrite slice_page by done. repeat split; try done.
    + intros H. apply Z.ltb_lt in H.
      destruct (Z.lt_ge_cases page n) as [|Hge]; [done|].
      apply (ceilDiv_le _ limit) in Hge; lia.
    + intros H. apply Z.ltb_lt.
      destruct (Z.lt_ge_cases ((page - 1) * limit + limit) (Z.of_nat (length l)))
        as [|Hge]; [done|].
      assert (n <= page); [|lia]. apply (ceilDiv_le _ limit); lia.
  - assert (0 <= n) as Hn.
    { pose proof (ceilDiv_spec (Z.of_nat (length l)) limit). subst n.
      destruct (Z.lt_ge_cases (ceilDiv (Z.of_nat (length l)) limit) 0); nia. }
    unfold seqZ. rewrite <- !list_fmap_compose.
    rewrite (list_fmap_ext _
               (fun p => take (Z.to_nat limit) (drop (p * Z.to_nat limit) l))
               (seq 0 (Z.to_nat n))).
    + apply chunks_concat; [lia|].
      pose proof (ceilDiv_spec (Z.of_nat (length l)) limit). fold n in H. nia.
    + intros _ p _. cbn [compose]. unfold paginate. cbn [items].
      rewrite slice_page by lia. do 2 f_equal. nia.
Qed.

(** [queryStock] pages through the entries of the ledger that match the
    search term (all entries without a term), in ledger order: its pages
    of a positive size, from the first to the last, hold them all, once. *)
Theorem queryStock_pages db email query limit store :
  findStoreByEmail db email = Some store ->
  1 <= limit ->
  let matching :=
    if hasSearchTerm query
    then filter (fun med => stockMatches (trim (toLowerCase query)) med)
                (stock store)
    else stock store in
  let n := ceilDiv (Z.of_nat (length matching)) limit in
  matching `sublist_of` stock store
  /\ (forall page, 1 <= page ->
        exists r,
          queryStock db email query page limit = Ok r
          /\ total r = Z.of_nat (length matching)
          /\ totalPages r = Some n
          /\ items r = take (Z.to_nat limit)
                            (drop (Z.to_nat ((page - 1) * limit)) matching)
          /\ (hasMore r = true <-> page < n))
  /\ concat ((fun page =>
                match queryStock db email query page limit with
                | Ok r => items r
                | Throw _ => []
                end) <$> seqZ 1 n) = matching.
Proof.
  intros Hstore Hl matching n.
  destruct (paginate_pages matching limit Hl) as [Hpage Hall]. fold n in Hpage, Hall.
  split; [|split].
  - subst matching. destruct (hasSearchTerm query); [apply sublist_filter|done].
  - intros page Hp. exists (paginate matching page limit).
    split; [|by apply Hpage].
    unfold queryStock. by rewrite Hstore.
  - etransitivity; [|exact Hall]. f_equal. apply list_fmap_ext.
    intros _ page _. unfold queryStock. by rewrite Hstore.
Qed.

Lemma StronglySorted_weaken {A} (R1 R2 : A -> A -> Prop) l :
  (forall x y, R1 x y -> R2 x y) -> StronglySorted R1 l -> StronglySorted R2 l.
Proof.
  intros H Hs. rewrite <- (list_fmap_id l).
  by apply (StronglySorted_fmap id R1 R2).
Qed.

Lemma StronglySorted_drop {A} (R : A -> A -> Prop) n l :
  StronglySorted R l -> StronglySorted R (drop n l).
Proof.
  intros H. rewrite <- (take_drop n l) in H.
  by apply StronglySorted_app_1_r in H.
Qed.

(** A page of [searchBillingHistory], whatever the page number and size,
    lists bills of the store with the newest first; with a search term
    every bill listed matches it; and [total] counts the bills that match
    (all bills without a term). *)
Theorem searchBillingHistory_newest_first db email query searchBy page limit r :
  searchBillingHistory db email query searchBy page limit = Ok r ->
  exists store,
    findStoreByEmail db email = Some store
    /\ StronglySorted (fun a b => createdAt b <= createdAt a) (items r)
    /\ (forall bill, bill ∈ items r ->
          bill ∈ billingHistory store
          /\ (hasSearchTerm query = true ->
              billMatches searchBy (trim (toLowerCase query)) bill = true))
    /\ total r =
       Z.of_nat (length (if hasSearchTerm query
                         then filter (fun bill => billMatches searchBy
                                        (trim (toLowerCase query)) bill)
                                     (billingHistory store)
                         else billingHistory store)).
Proof.
  unfold searchBillingHistory.
  destruct (findStoreByEmail db email) as [store|]; [|done].
  intros [= <-]. exists store. split; [done|].
  set (filtered := if hasSearchTerm query then _ else _).
  set (before := fun a b : Billing => createdAt b <=? createdAt a).
  assert (sort before filtered ≡ₚ filtered) as Hperm by apply sort_Permutation.
  unfold paginate, slice. cbn [items total].
  split; [|split].
  - apply StronglySorted_take, StronglySorted_drop.
    eapply StronglySorted_weaken; [|apply (sort_sorted before)].
    + intros a b Hab. by apply Z.leb_le.
    + intros a b Hab. unfold before in *.
      apply Z.leb_gt in Hab. apply Z.leb_le. lia.
    + intros a b c. unfold before. rewrite !Z.leb_le. lia.
  - intros bill Hin.
    apply subseteq_take, subseteq_drop in Hin. rewrite Hperm in Hin.
    subst filtered. destruct (hasSearchTerm query).
    + apply list_elem_of_filter in Hin as [Hm Hin]. split; [done|].
      intros _. by apply Is_true_true.
    + by split.
  - by rewrite Hperm.
Qed.

End QueryFacts.

(** * The further properties on the sample data *)

Module ScenarioChecks.
Import Ledger LedgerSpec StockSpec ChartSpec StoreService JSDate Pipeline Analytics.
Import AnalyticsSpec TopSellingSpec StoreQueries Scenario.
Import StockFacts ChartFacts PeriodFacts ReportFacts TopSellingFacts QueryFacts.
Local Open Scope Z_scope.

(** New York is five or four hours behind universal time. *)
Lemma newYork_range t b :
  newYork t b = -5 * msPerHour \/ newYork t b = -4 * msPerHour.
Proof.
  unfold newYork. destruct b.
  - destruct ((1710054000000 <=? t) && (t <? 1730613600000)); auto.
  - destruct ((1710054000000 + -5 * msPerHour + msPerHour <=? t)
              && (t <? 1730613600000 + -4 * msPerHour)); auto.
Qed.

(** A calendar day takes the clock of New York 23 hours further at
    least. *)
Lemma newYork_progress t : t + msPerHour <= nextDay newYork t.
Proof.
  unfold nextDay, UTC, LocalTime.
  destruct (newYork_range t true) as [-> | ->];
    match goal with |- context [newYork ?u false] =>
      destruct (newYork_range u false) as [-> | ->] end;
    unfold msPerDay, msPerHour; lia.
Qed.

(** Removing 2 of [A] from the pharmacy and billing a line of 2 of [A]
    leave the same ledger: batch [b1] is gone. *)
Lemma removeFromStock_as_billing_line_pharmacy :
  deductLine (stock pharmacy) (line "A" 2)
  = Ok [lot "A" "b2" 5; lot "B" "" 10].
Proof.
  refine (proj1 (removeFromStock_as_billing_line pharmacy (Some "A") 2
                   (line "A" 2) _ _ _)); [lia|reflexivity|reflexivity].
Defined.


(** A delivery of 4 of [A], batch [b2], to the pharmacy. *)
Lemma addToStock_conservation_pharmacy :
  let result := addToStock stores pharmacyEmail delivery (Some 4) in
  exists store',
    result.2 = <[normalizedEmail pharmacyEmail := store']> stores /\
    validLedger (stock store') /\
    (forall m, stockOf m (stock store') =
               stockOf m (stock pharmacy) + (if decide (Some "A" = m) then 4 else 0)) /\
    sumQuantity (stock store') = sumQuantity (stock pharmacy) + 4 /\
    length (stock store') = length (stock pharmacy).
Proof.
  destruct (addToStock_conservation stores pharmacyEmail delivery 4
              {| ar_medID := Some "A"; ar_name := "A"; ar_quantity := 9;
                 ar_action := updated |}
              (addToStock stores pharmacyEmail delivery (Some 4)).2 pharmacy)
    as (store' & H1 & _ & _ & Hvalid & H3 & H4 & H5).
  { vm_compute. reflexivity. }
  { repeat constructor; vm_compute; discriminate. }
  { vm_compute. reflexivity. }
  exists store'. repeat split; assumption.
Defined.

(** A delivery of 3 of [C], which the clinic does not hold, taken back. *)
Lemma add_then_remove_clinic :
  exists store1 r1 r2,
    addToStock_doc clinic restock (Some 3) = Ok (store1, r1)
    /\ removeFromStock_doc store1 (Some "C") (Some 3) = Ok (clinic, r2).
Proof.
  refine (add_then_remove clinic restock 3 _ _ _ _ _ _).
  - lia.
  - reflexivity.
  - reflexivity.
  - exists "C"%string. split; [reflexivity|]. split; [discriminate|].
    split; [discriminate|]. vm_compute. set_solver.
  - repeat constructor.
  - repeat constructor; vm_compute; discriminate.
Defined.

(** An entry holding 2^53 units takes one more and holds 2^53 still: the
    sum is no double. *)
Lemma addToStock_beyond_exact_integers :
  let store := {| s_id := 2%N; stock := [lot "A" "b2" (2 ^ 53)];
                  billingHistory := [] |} in
  (stock ∘ fst <$> addToStock_doc store delivery (Some 1))
  = Ok [lot "A" "b2" (2 ^ 53)].
Proof. vm_compute. reflexivity. Qed.

(** A delivery of a new medicine without medicine type is pushed with the
    empty type, which the schema refuses: the call throws. *)
Lemma addToStock_without_medType :
  let md := {| md_medID := Some "C"; md_name := "C"; md_secName := None;
               md_sellingType := None; md_medType := None;
               md_pricePerTab := Some 25%Q; md_cardPerBox := None;
               md_pricePerBox := None; md_expiryDate := None;
               md_batchNumber := None; md_purchasePrice := None |} in
  addToStock_doc clinic md (Some 3) = Throw VALIDATION_FAILED
  /\ (addToStock stores clinicEmail md (Some 3)).1 = Throw VALIDATION_FAILED.
Proof. vm_compute. split; reflexivity. Qed.

Lemma ledger_keys_stay_unique_pharmacy :
  keysUnique (stock pharmacy)
  /\ keysUnique [lot "A" "b1" 2; lot "A" "b2" 6; lot "B" "" 10].
Proof.
  assert (keysUnique (stock pharmacy)) as Hu.
  { unfold keysUnique. apply (bool_decide_unpack _). vm_compute. exact I. }
  split; [exact Hu|].
  refine (proj1 (ledger_keys_stay_unique pharmacy Hu) delivery (Some 1)
            {| s_id := 1%N; stock := [lot "A" "b1" 2; lot "A" "b2" 6; lot "B" "" 10];
               billingHistory := history |}
            {| ar_medID := Some "A"; ar_name := "A"; ar_quantity := 6;
               ar_action := updated |} _).
  vm_compute. reflexivity.
Defined.

Lemma createBilling_record_pharmacy :
  let bd := order [line "B" 3; line "A" 2] 25 in
  exists store store',
    stores !! toLowerCase pharmacyEmail = Some store /\
    (createBilling callTime 7 stores pharmacyEmail bd).2
      !! toLowerCase pharmacyEmail = Some store' /\
    billingHistory store' =
      billingHistory store ++
      [{| b_id := 7%N; storeId := s_id store;
          customerName := bd_customerName bd; customerAge := bd_customerAge bd;
          phone := bd_phone bd; productList := products bd;
          totalAmount := bd_totalAmount bd; createdAt := callTime |}].
Proof.
  intros bd.
  destruct (createBilling_record callTime 7 stores pharmacyEmail bd
              {| billingId := 7; r_customerName := "Asha"; r_totalAmount := 25;
                 productCount := 2 |}
              (createBilling callTime 7 stores pharmacyEmail bd).2)
    as (store & store' & H1 & H2 & _ & _ & H3 & _).
  { vm_compute. reflexivity. }
  exists store, store'. repeat split; assumption.
Defined.


(** The points of that chart. *)
Lemma daily_chart_over_clock_change_points :
  let chart :=
    getDailyBreakdownAggregated newYork stores pharmacyEmail
                                weekendStart weekendEnd in
  isoDay <$> chart
  = [Some "2024-03-09"; Some "2024-03-10"; Some "2024-03-11"]%string
  /\ bucketLabel <$> chart = ["Sat, Mar 9"; "Sun, Mar 10"; "Mon, Mar 11"]%string.
Proof. vm_compute. split; reflexivity. Qed.

(** The window from noon of March 9 to 12:30 of March 11 in New York
    touches three days and ends at a later time of day than it starts:
    three points, though the window is less than 48 hours long. *)
Lemma daily_chart_day_count_over_clock_change :
  Z.of_nat (length (getDailyBreakdownAggregated newYork stores pharmacyEmail
                      weekendStart weekendEnd))
  = 3.
Proof.
  refine (daily_chart_day_count newYork stores pharmacyEmail
            weekendStart weekendEnd _ _ _ _).
  - vm_compute. discriminate.
  - vm_compute. discriminate.
  - intros t _. apply newYork_progress.
  - intros i Hi.
    change ((LocalTime newYork weekendEnd - LocalTime newYork weekendStart)
            / msPerDay + 1) with 3 in Hi.
    assert (i = 1 \/ i = 2 \/ i = 3) as [-> | [-> | ->]] by lia;
      vm_compute; (split; [reflexivity|split; intros H; exact H]).
Defined.

Lemma window_holds_call_time_thisWeek :
  startDate thisWeekWindow <= callTime <= endDate thisWeekWindow.
Proof.
  refine (window_holds_call_time 0 callTime "thisWeek" None None
            thisWeekWindow _ _ _).
  - rewrite !elem_of_cons. right. left. reflexivity.
  - vm_compute. discriminate.
  - vm_compute. reflexivity.
Defined.

Lemma comparison_window_adjacent_today :
  comparisonEnd todayWindow + 1 = startDate todayWindow.
Proof.
  refine (comparison_window_adjacent 0 callTime "today" None None todayWindow _ _).
  - rewrite !elem_of_cons. left. reflexivity.
  - vm_compute. reflexivity.
Defined.

(** The pharmacy sold nothing on March 14, so its report for [today] at
    [callTime] shows no growth. *)
Lemma growth_without_comparison_sales_today :
  exists r w',
    getSalesAnalytics utc callTime callTime callTime pharmacyEmail "today"
                      None None cold = (Ok r, w')
    /\ growth r = {| percentage := 0; isPositive := true |}.
Proof.
  refine (growth_without_comparison_sales utc callTime callTime callTime
            pharmacyEmail "today" None None cold todayWindow _ _ _).
  - vm_compute. reflexivity.
  - apply lookup_empty.
  - vm_compute. reflexivity.
Defined.

(** Two calls for [today], at [callTime] and a minute later. *)
Lemma repeated_call_is_served_from_cache_today :
  let first := getSalesAnalytics utc callTime callTime callTime pharmacyEmail
                                 "today" None None cold in
  getSalesAnalytics utc (callTime + 60000) (callTime + 60000) (callTime + 60000)
                    pharmacyEmail "today" None None first.2
  = first
  /\ aggregations first.2 = 3%nat.
Proof.
  intros first.
  destruct first as [[r|e] w1] eqn:Hfirst; [|vm_compute in Hfirst; discriminate].
  refine (repeated_call_is_served_from_cache utc callTime (callTime + 60000)
            callTime callTime (callTime + 60000) (callTime + 60000)
            pharmacyEmail "today" None None cold todayWindow r w1 _ _ _ _ _).
  - vm_compute. reflexivity.
  - vm_compute. reflexivity.
  - apply lookup_empty.
  - exact Hfirst.
  - vm_compute. reflexivity.
Defined.


(** [$round] takes a half to the even neighbour: 0.125 gives 0.12 and
    0.375 gives 0.38. *)
Lemma mongoRound2_half_to_even :
  mongoRound2 (1 # 8) = cents 12 /\ mongoRound2 (3 # 8) = cents 38.
Proof. vm_compute. split; reflexivity. Qed.

(** The pharmacy's ledger in pages of two entries. *)
Lemma queryStock_pages_pharmacy :
  concat ((fun page =>
             match queryStock stores pharmacyEmail "" page 2 with
             | Ok r => items r
             | Throw _ => []
             end) <$> seqZ 1 2)
  = stock pharmacy.
Proof.
  refine (proj2 (proj2 (queryStock_pages stores pharmacyEmail "" 2 pharmacy _ _))).
  - vm_compute. reflexivity.
  - lia.
Defined.

Lemma searchBillingHistory_newest_first_pharmacy :
  let r := paginate (sort (fun a b : Billing => createdAt b <=? createdAt a)
                          (filter (fun bill => billMatches by_medicine "b" bill)
                                  history)) 1 20 in
  StronglySorted (fun a b => createdAt b <= createdAt a) (items r)
  /\ total r = 2.
Proof.
  intros r.
  destruct (searchBillingHistory_newest_first stores pharmacyEmail " B " by_medicine
              1 20 r) as (store & Hstore & Hsorted & _ & Htotal).
  { vm_compute. reflexivity. }
  split; [exact Hsorted|]. vm_compute. reflexivity.
Defined.

End ScenarioChecks.
